(** * Tablet bootstrap: replay of the write-ahead log

    A shallow embedding of [src/kudu/tablet/tablet_bootstrap.cc]: the replay
    state machine ([ReplayState], [HandleEntry] and its handlers), the
    durability oracle ([WasStoreAlreadyFlushed]), the operation replayers,
    the segment pipeline ([PlaySegments]) and the orchestrator
    ([Bootstrap]).

    Conventions of the embedding.
    - Protobuf messages are records.  An optional field [f] is a pair of
      the presence bit [has_f] and the value the accessor [f()] returns.
    - Payloads the bootstrap code never looks into (schemas, row operations,
      application statuses) are carried in serialized form, as [string].
    - Integers of protobuf fields are [Z].  Where the code computes with
      one, the wrap-around of its type is written out: the index of an
      OpId plus one ([int64_add1]) and a sequence number passed for an
      [int] ([to_int]).
    - [DCHECK] and [LOG(DFATAL)] are debug-build assertions: they are
      recorded in comments and have no effect in the embedding.  [CHECK_OK],
      [CHECK_EQ] and [LOG(FATAL)] abort the process in every build: they are
      the outcome [Crash].
    - A C++ function returning [Status] and mutating objects through
      pointers is a state transformer [S -> Outcome A * S]: the mutation made
      before an early return stays. *)

From stdpp Require Import base numbers strings gmap list pretty.

Open Scope Z_scope.

(** ** Status *)

(** Modelled from the spec: [kudu::Status] is declared outside this file
    (util/status.h).  The codes are those this file constructs (Corruption,
    IllegalState, RuntimeError, AlreadyPresent) and the IO error of the
    spec's error taxonomy (section 7). *)
Inductive StatusCode :=
  | kOk | kCorruption | kIllegalState | kRuntimeError | kAlreadyPresent
  | kIOError.

Record Status := mkStatus { code : StatusCode; message : string }.

Global Instance StatusCode_eq_dec : EqDecision StatusCode.
Proof. solve_decision. Defined.

Module StatusNS.
Definition OK : Status := mkStatus kOk "".
Definition Corruption (msg : string) : Status := mkStatus kCorruption msg.
(* Status::Corruption(msg, msg2): the two parts joined by ": ". *)
Definition Corruption2 (msg msg2 : string) : Status :=
  mkStatus kCorruption (msg +:+ ": " +:+ msg2).
Definition IllegalState (msg : string) : Status := mkStatus kIllegalState msg.
Definition RuntimeError (msg : string) : Status := mkStatus kRuntimeError msg.
Definition AlreadyPresent (msg : string) : Status :=
  mkStatus kAlreadyPresent msg.
Definition ok (s : Status) : bool := bool_decide (code s = kOk).
(* Status::CloneAndPrepend, used by RETURN_NOT_OK_PREPEND. *)
Definition CloneAndPrepend (msg : string) (s : Status) : Status :=
  mkStatus (code s) (msg +:+ ": " +:+ message s).
End StatusNS.

(** ** Data model: the protobuf messages *)

Record OpId := mkOpId { term : Z; index : Z }.

Global Instance OpId_eq_dec : EqDecision OpId.
Proof. solve_decision. Defined.

Global Instance OpId_countable : Countable OpId.
Proof.
  refine (inj_countable' (λ x, (term x, index x)) (λ p, mkOpId p.1 p.2) _).
  by intros [].
Defined.

(* consensus::MinimumOpId() *)
Definition MinimumOpId : OpId := mkOpId 0 0.

(** The term and the index of an OpId are 64-bit signed integers: int64
    fields of a message that is declared outside this file.  A field holds
    a value from INT64_MIN to INT64_MAX. *)
Definition INT64_MAX : Z := 9223372036854775807.
Definition INT64_MIN : Z := -9223372036854775808.

(** [i + 1] on an int64 (two's complement): the sum wraps around, from
    INT64_MAX to INT64_MIN. *)
Definition int64_add1 (i : Z) : Z :=
  if i =? INT64_MAX then INT64_MIN else i + 1.

(** The conversion of an integer to [int] (32 bits) where it is passed for
    an [int] parameter: the value modulo 2^32, in the range of [int]. *)
Definition to_int (z : Z) : Z :=
  (z + 2147483648) `mod` 4294967296 - 2147483648.

(** Protobuf text format of an OpId on one line, as
    [Message::ShortDebugString] prints a message with two integer fields. *)
Definition OpId_ShortDebugString (id : OpId) : string :=
  "term: " +:+ pretty (term id) +:+ " index: " +:+ pretty (index id).

(** Modelled from the spec: [OpIdCompare] is declared outside this file.
    Section 3: an OpId is "totally ordered first by term then by index".
    The result is negative, zero or positive. *)
Definition OpIdCompare (first second : OpId) : Z :=
  if term first =? term second then
    (if index first <? index second then -1
     else if index first =? index second then 0 else 1)
  else if term first <? term second then -1 else 1.

(** The commit and replicate op-types.  The enum is declared outside this
    file; the four enumerators the file names are constructors, and any
    other enumerator is [OTHER_OP] with its declared name and number. *)
Inductive OperationType :=
  | OP_ABORT | WRITE_OP | ALTER_SCHEMA_OP | CHANGE_CONFIG_OP
  | OTHER_OP (name : string) (number : Z).

(* The generated OperationType_Name: the enumerator's identifier. *)
Definition OperationType_Name (t : OperationType) : string :=
  match t with
  | OP_ABORT => "OP_ABORT"
  | WRITE_OP => "WRITE_OP"
  | ALTER_SCHEMA_OP => "ALTER_SCHEMA_OP"
  | CHANGE_CONFIG_OP => "CHANGE_CONFIG_OP"
  | OTHER_OP name _ => name
  end.

Module MemStoreTargetPB.
Record t := mk {
  has_mrs_id : bool; mrs_id : Z;
  has_rs_id : bool; rs_id : Z;
  has_dms_id : bool; dms_id : Z }.
Definition MRS (id : Z) : t := mk true id false 0 false 0.
Definition DRS (rs dms : Z) : t := mk false 0 true rs true dms.
End MemStoreTargetPB.

Module OperationResultPB.
Record t := mk {
  has_failed_status : bool;
  failed_status : string;
  mutated_stores : list MemStoreTargetPB.t }.
End OperationResultPB.

Module TxResultPB.
Record t := mk { ops : list OperationResultPB.t }.
End TxResultPB.

Module CommitMsg.
Record t := mk {
  op_type : OperationType;
  commited_op_id : OpId;
  result : TxResultPB.t;
  timestamp : Z }.
End CommitMsg.

Module QuorumPB.
Record t := mk { seqno : Z; peers : string }.
End QuorumPB.

Module WriteRequestPB.
Record t := mk {
  has_row_operations : bool;
  schema : string;
  row_operations : string }.
End WriteRequestPB.

Module AlterSchemaRequestPB.
Record t := mk { schema : string }.
End AlterSchemaRequestPB.

Module ChangeConfigRequestPB.
Record t := mk { new_config : QuorumPB.t }.
End ChangeConfigRequestPB.

Module ReplicateMsg.
Record t := mk {
  op_type : OperationType;
  write_request : WriteRequestPB.t;
  alter_schema_request : AlterSchemaRequestPB.t;
  change_config_request : ChangeConfigRequestPB.t }.
End ReplicateMsg.

Module OperationPB.
Record t := mk {
  has_id : bool; id : OpId;
  has_replicate : bool; replicate : ReplicateMsg.t;
  has_commit : bool; commit : CommitMsg.t }.
End OperationPB.

(** The log entry types: [OPERATION], or any other enumerator with its
    number. *)
Inductive LogEntryTypePB := OPERATION | OTHER_ENTRY_TYPE (number : Z).

Global Instance LogEntryTypePB_eq_dec : EqDecision LogEntryTypePB.
Proof. solve_decision. Defined.

Module LogEntryPB.
Record t := mk { type : LogEntryTypePB; operation : OperationPB.t }.
End LogEntryPB.

(** ** Tablet metadata and the durability oracle *)

(** Modelled from the spec: [TabletMetadata] and [RowSetMetadata] are
    declared outside this file.  Section 3: the metadata "exposes
    last_durable_mrs_id and, per rowset, last_durable_redo_dms_id";
    section 4.1: the rowset is looked up by its id and may be absent.  The
    rowsets are a finite map from the rowset id. *)
Module RowSetMetadata.
Record t := mk { last_durable_redo_dms_id : Z }.
End RowSetMetadata.

Inductive TabletBootstrapStatePB :=
  | REMOTE_BOOTSTRAP_DONE
  | OTHER_BOOTSTRAP_STATE (name : string).

Definition TabletBootstrapStatePB_Name (s : TabletBootstrapStatePB) : string :=
  match s with
  | REMOTE_BOOTSTRAP_DONE => "REMOTE_BOOTSTRAP_DONE"
  | OTHER_BOOTSTRAP_STATE name => name
  end.

Global Instance TabletBootstrapStatePB_eq_dec : EqDecision TabletBootstrapStatePB.
Proof. solve_decision. Defined.

Module TabletMetadata.
Record t := mk {
  oid : string;
  remote_bootstrap_state : TabletBootstrapStatePB;
  last_durable_mrs_id : Z;
  rowsets : gmap Z RowSetMetadata.t;
  flush_pins : Z }.

(* GetRowSetForTests(id): the rowset with that id, or NULL. *)
Definition GetRowSetForTests (m : t) (id : Z) : option RowSetMetadata.t :=
  rowsets m !! id.

Definition PinFlush (m : t) : t :=
  mk (oid m) (remote_bootstrap_state m) (last_durable_mrs_id m) (rowsets m)
     (flush_pins m + 1).
End TabletMetadata.

(** [TabletBootstrap::WasStoreAlreadyFlushed], on the metadata
    [tablet_->metadata()] reads.  In the MRS branch the source has
    DCHECK(!target.has_rs_id()) and DCHECK(!target.has_dms_id()). *)
Definition WasStoreAlreadyFlushed (meta : TabletMetadata.t)
    (target : MemStoreTargetPB.t) : bool :=
  if MemStoreTargetPB.has_mrs_id target then
    MemStoreTargetPB.mrs_id target <=? TabletMetadata.last_durable_mrs_id meta
  else
    match TabletMetadata.GetRowSetForTests meta (MemStoreTargetPB.rs_id target) with
    | None => true
    | Some row_set =>
        if MemStoreTargetPB.dms_id target
             <=? RowSetMetadata.last_durable_redo_dms_id row_set
        then true else false
    end.

(** ** The replay state *)

Record ReplayState := mkReplayState {
  prev_op_id : OpId;
  committed_op_id : OpId;
  pending_replicates : gmap OpId LogEntryPB.t }.

(* ReplayState::ReplayState() *)
Definition ReplayState_new : ReplayState :=
  mkReplayState (mkOpId 0 0) (mkOpId 0 0) ∅.

Definition set_prev_op_id (id : OpId) (st : ReplayState) : ReplayState :=
  mkReplayState id (committed_op_id st) (pending_replicates st).
Definition set_committed_op_id (id : OpId) (st : ReplayState) : ReplayState :=
  mkReplayState (prev_op_id st) id (pending_replicates st).
Definition set_pending_replicates (p : gmap OpId LogEntryPB.t)
    (st : ReplayState) : ReplayState :=
  mkReplayState (prev_op_id st) (committed_op_id st) p.

(** [ReplayState::valid_sequence]: may [b] immediately follow [a]?  The
    sum [a.index() + 1] is taken in the type of the index, int64. *)
Definition valid_sequence (a b : OpId) : bool :=
  if (term a =? 0) && (index a =? 0) then true
  else if (term b =? term a) && negb (index b =? int64_add1 (index a)) then false
  else if term b <? term a then false
  else true.

(** [ReplayState::CheckSequentialReplicateId].  The source has
    DCHECK(op.has_replicate()). *)
Definition CheckSequentialReplicateId (op : OperationPB.t) (st : ReplayState)
    : Status * ReplayState :=
  if negb (valid_sequence (prev_op_id st) (OperationPB.id op)) then
    let op_desc :=
      pretty (term (OperationPB.id op)) +:+ "," +:+
      pretty (index (OperationPB.id op)) +:+ " REPLICATE (Type: " +:+
      OperationType_Name (ReplicateMsg.op_type (OperationPB.replicate op)) +:+
      ")" in
    (StatusNS.Corruption
       ("Unexpected opid following opid " +:+
        OpId_ShortDebugString (prev_op_id st) +:+
        ". Operation: " +:+ op_desc),
     st)
  else (StatusNS.OK, set_prev_op_id (OperationPB.id op) st).

(** [ReplayState::UpdateCommittedOpId] *)
Definition UpdateCommittedOpId (id : OpId) (st : ReplayState) : ReplayState :=
  if OpIdCompare id (committed_op_id st) >? 0
  then set_committed_op_id id st
  else st.

(** The order of the data model (section 3): first by term, then by index. *)
Definition OpId_le (a b : OpId) : Prop :=
  term a < term b ∨ (term a = term b ∧ index a ≤ index b).

(** ** Outcomes and the state-and-error monad *)

(** What a call leaves behind: a value, a non-OK [Status] handed back to the
    caller, or the abort of the process by a failed CHECK. *)
Inductive Outcome (A : Type) :=
  | Ret (a : A)
  | Fail (s : Status)
  | Crash.
Arguments Ret {A} a.
Arguments Fail {A} s.
Arguments Crash {A}.

Definition M (S A : Type) : Type := S → Outcome A * S.

Definition ret {S A} (a : A) : M S A := λ s, (Ret a, s).
Definition bind {S A B} (m : M S A) (k : A → M S B) : M S B :=
  λ s, match m s with
       | (Ret a, s') => k a s'
       | (Fail e, s') => (Fail e, s')
       | (Crash, s') => (Crash, s')
       end.
Definition fail {S A} (e : Status) : M S A := λ s, (Fail e, s).
Definition crash {S A} : M S A := λ s, (Crash, s).
Definition get {S} : M S S := λ s, (Ret s, s).
Definition gets {S A} (f : S → A) : M S A := λ s, (Ret (f s), s).
Definition modify {S} (f : S → S) : M S unit := λ s, (Ret tt, f s).

Notation "x <- m ;; k" := (bind m (λ x, k))
  (at level 100, m at next level, right associativity,
   format "'[v' x  <-  m  ;; '/' k ']'").
Notation "m ;;; k" := (bind m (λ _, k))
  (at level 100, right associativity,
   format "'[v' m  ;;; '/' k ']'").

(* RETURN_NOT_OK(s) on a status already computed. *)
Definition RETURN_NOT_OK {S} (s : Status) : M S unit :=
  if StatusNS.ok s then ret tt else fail s.
(* CHECK_OK(s) *)
Definition CHECK_OK {S} (s : Status) : M S unit :=
  if StatusNS.ok s then ret tt else crash.
(* RETURN_NOT_OK_PREPEND(call, msg) around a call in the monad. *)
Definition RETURN_NOT_OK_PREPEND {S A} (m : M S A) (msg : string) : M S A :=
  λ s, match m s with
       | (Fail e, s') => (Fail (StatusNS.CloneAndPrepend msg e), s')
       | r => r
       end.
(* Dereference of a pointer member: a null pointer ends the process. *)
Definition deref {S A} (p : S → option A) : M S A :=
  λ s, match p s with Some a => (Ret a, s) | None => (Crash, s) end.
(* A call that only sees the first component of the state. *)
Definition lift_fst {S T A} (m : M S A) : M (S * T) A :=
  λ st, let '(r, s') := m st.1 in (r, (s', st.2)).
(* A call that only sees the second component of the state. *)
Definition lift_snd {S T A} (m : M T A) : M (S * T) A :=
  λ st, let '(r, t') := m st.2 in (r, (st.1, t')).
(* A call on a state [S] extended by a local object that starts as [t0];
   the final local object comes back with the value. *)
Definition with_local {S T A} (t0 : T) (m : M (S * T) A) : M S (A * T) :=
  λ s, match m (s, t0) with
       | (Ret a, (s', t')) => (Ret (a, t'), s')
       | (Fail e, (s', _)) => (Fail e, s')
       | (Crash, (s', _)) => (Crash, s')
       end.


Definition newline : string := String (Ascii.ascii_of_nat 10%nat) "".

(** ** The log reader *)

(** Modelled from the spec: [LogReader] and [ReadableLogSegment] are declared
    outside this file.  Section 6: a reader gives a snapshot of its segments
    and their number; a segment exposes its sequence number, its path and
    [read_entries() → (result, [Entry])], which "may return partial on
    error". *)
Module ReadableLogSegment.
Record t := mk {
  sequence_number : Z;
  path : string;
  ReadEntries : Status * list LogEntryPB.t }.
End ReadableLogSegment.

Module LogReader.
Record t := mk {
  GetSegmentsSnapshot : Status * list ReadableLogSegment.t;
  num_segments : Z }.
End LogReader.

(** ** Consensus metadata and the bootstrap result *)

Module ConsensusMetadata.
Record t := mk { committed_quorum : QuorumPB.t }.
End ConsensusMetadata.

Module ConsensusBootstrapInfo.
Record t := mk {
  last_id : OpId;
  last_committed_id : OpId;
  orphaned_replicates : list OperationPB.t }.
End ConsensusBootstrapInfo.

(** ** Write transactions *)

Inductive RowOpType := INSERT | UPDATE | DELETE | OTHER_ROW_OP (number : Z).

Module RowOp.
Record t := mk {
  decoded_op_type : RowOpType;
  decoded_op_row : string;
  result : option OperationResultPB.t }.
Definition set_result (r : OperationResultPB.t) (op : t) : t :=
  mk (decoded_op_type op) (decoded_op_row op) (Some r).
End RowOp.

Module WriteTransactionState.
Record t := mk {
  request : WriteRequestPB.t;
  op_id : OpId;
  row_ops : list RowOp.t }.
Definition set_op_id (id : OpId) (tx : t) : t :=
  mk (request tx) id (row_ops tx).
Definition set_row_ops (ops : list RowOp.t) (tx : t) : t :=
  mk (request tx) (op_id tx) ops.
End WriteTransactionState.

Inductive OpIdAnchorRegistry := OpIdAnchorRegistry_new.

(** ** The external collaborators

    The row-store engine, the log writer, the clock, the file system and
    the printers of protobuf messages are outside the bootstrap core
    (spec, sections 1 and 6).  They are an interface: abstract states and
    the operations the core calls on them, with no assumption on what
    they do, but for the iteration over a hash map, which visits every
    entry of the map once.

    A call on the tablet or on the log is taken to act on the tablet or on
    the log alone.  In the source the tablet also holds the metadata, the
    clock and the anchor registry it was constructed with, and the log
    writes through the file system; what a call does to these through the
    tablet or the log is not modelled, and nothing is stated of it. *)
Class Collaborators := {
  TabletT : Type;
  ClockT : Type;
  FsT : Type;
  LogT : Type;
  Schema : Type;
  Timestamp : Type;
  AlterSchemaTransactionState : Type;

  (* Tablet *)
  Tablet_new :
    TabletMetadata.t → ClockT → option OpIdAnchorRegistry → TabletT;
  Tablet_Open : TabletT → Status * TabletT;
  Tablet_num_rowsets : TabletT → Z;
  Tablet_metadata : TabletT → TabletMetadata.t;
  Tablet_tablet_id : TabletT → string;
  Tablet_UnPinFlush : TabletT → Status * TabletT;
  Tablet_StartTransaction :
    TabletT → WriteTransactionState.t → TabletT * WriteTransactionState.t;
  Tablet_DecodeWriteOperations :
    TabletT → Schema → WriteTransactionState.t →
    Status * TabletT * WriteTransactionState.t;
  Tablet_AcquireRowLocks :
    TabletT → WriteTransactionState.t →
    Status * TabletT * WriteTransactionState.t;
  (* ApplyRowOperation(tx_state, op), [op] being the row op at an index of
     tx_state's row_ops *)
  Tablet_ApplyRowOperation :
    TabletT → WriteTransactionState.t → nat →
    TabletT * WriteTransactionState.t;
  AlterSchemaTransactionState_new :
    AlterSchemaRequestPB.t → AlterSchemaTransactionState;
  Tablet_CreatePreparedAlterSchema :
    TabletT → AlterSchemaTransactionState → Schema →
    Status * TabletT * AlterSchemaTransactionState;
  Tablet_AlterSchema :
    TabletT → AlterSchemaTransactionState →
    Status * TabletT * AlterSchemaTransactionState;
  SchemaFromPB : string → Status * Schema;
  ReleaseTxResultPB : WriteTransactionState.t → TxResultPB.t;
  StatusToPB : Status → string;
  ToSuperBlock : TabletMetadata.t → Status;

  (* Log writer *)
  Log_Open : FsT → string → Status * option LogT * FsT;
  Log_DisableSync : LogT → LogT;
  Log_Append : LogT → LogEntryPB.t → Status * LogT;
  Log_ReEnableSyncIfRequired : LogT → Status * LogT;
  LogReader_OpenFromRecoveryDir : FsT → string → Status * option LogReader.t;

  (* Clock *)
  Timestamp_FromUint64 : Z → Status * Timestamp;
  Clock_Update : ClockT → Timestamp → Status * ClockT;

  (* Consensus metadata *)
  ConsensusMetadata_Load :
    FsT → string → Status * option ConsensusMetadata.t;
  ConsensusMetadata_Flush : FsT → ConsensusMetadata.t → Status * FsT;

  (* File system *)
  GetTabletWalDir : string → string;
  GetTabletWalRecoveryDir : string → string;
  IsLogFileName : string → bool;
  JoinPathSegments : string → string → string;
  Fs_Exists : FsT → string → bool;
  Fs_ListDir : FsT → string → Status * list string;
  Fs_CreateDirIfMissing : FsT → string → Status * FsT;
  Env_DeleteFile : FsT → string → Status * FsT;
  Env_RenameFile : FsT → string → string → Status * FsT;
  Env_DeleteRecursively : FsT → string → Status * FsT;
  GetCurrentTimeMicros : FsT → Z;

  (* Flags *)
  FLAGS_skip_remove_old_recovery_dir : bool;
  VLOG_IS_ON_1 : bool;

  (* Printers *)
  Status_ToString : Status → string;
  LogEntryPB_ShortDebugString : LogEntryPB.t → string;
  CommitMsg_ShortDebugString : CommitMsg.t → string;
  CommitMsg_DebugString : CommitMsg.t → string;
  ReplicateMsg_DebugString : ReplicateMsg.t → string;
  MemStoreTargetPB_ShortDebugString : MemStoreTargetPB.t → string;
  OperationResultPB_ShortDebugString : OperationResultPB.t → string;
  RowOperationsPB_ShortDebugString : string → string;
  AppStatusPB_ShortDebugString : string → string;
  RowOp_ToString : TabletT → RowOp.t → string;

  (* A default-constructed LogEntryPB *)
  LogEntryPB_new : LogEntryPB.t;

  (* BOOST_FOREACH over an OpToEntryMap, an unordered_map keyed by OpId:
     the entries of the map, each once, in the order of the hash table,
     which the standard library leaves open *)
  OpToEntryMap_iterate : gmap OpId LogEntryPB.t → list (OpId * LogEntryPB.t);
  OpToEntryMap_iterate_perm :
    ∀ m, OpToEntryMap_iterate m ≡ₚ map_to_list m
}.

Section Core.
Context `{Collaborators}.

(** ** The bootstrap object: the members of [class TabletBootstrap]

    [fs_manager] is the file system behind [meta_->fs_manager()];
    [listener_] is the listener's last status.  The tablet is built from
    [meta_] and [clock_] and keeps its own view of them
    ([Tablet_metadata]), which is the one the code reads once the tablet
    exists.  The arena only holds decoded row data and is left out. *)
Record TabletBootstrap := mkTabletBootstrap {
  meta_ : TabletMetadata.t;
  clock_ : ClockT;
  fs_manager : FsT;
  listener_ : string;
  tablet_ : option TabletT;
  opid_anchor_registry_ : option OpIdAnchorRegistry;
  log_ : option LogT;
  log_reader_ : option LogReader.t;
  cmeta_ : option ConsensusMetadata.t }.

Definition set_meta_ (x : TabletMetadata.t) (b : TabletBootstrap) :=
  mkTabletBootstrap x (clock_ b) (fs_manager b) (listener_ b) (tablet_ b)
    (opid_anchor_registry_ b) (log_ b) (log_reader_ b) (cmeta_ b).
Definition set_clock_ (x : ClockT) (b : TabletBootstrap) :=
  mkTabletBootstrap (meta_ b) x (fs_manager b) (listener_ b) (tablet_ b)
    (opid_anchor_registry_ b) (log_ b) (log_reader_ b) (cmeta_ b).
Definition set_fs_manager (x : FsT) (b : TabletBootstrap) :=
  mkTabletBootstrap (meta_ b) (clock_ b) x (listener_ b) (tablet_ b)
    (opid_anchor_registry_ b) (log_ b) (log_reader_ b) (cmeta_ b).
Definition set_listener_ (x : string) (b : TabletBootstrap) :=
  mkTabletBootstrap (meta_ b) (clock_ b) (fs_manager b) x (tablet_ b)
    (opid_anchor_registry_ b) (log_ b) (log_reader_ b) (cmeta_ b).
Definition set_tablet_ (x : option TabletT) (b : TabletBootstrap) :=
  mkTabletBootstrap (meta_ b) (clock_ b) (fs_manager b) (listener_ b) x
    (opid_anchor_registry_ b) (log_ b) (log_reader_ b) (cmeta_ b).
Definition set_opid_anchor_registry_ (x : option OpIdAnchorRegistry)
    (b : TabletBootstrap) :=
  mkTabletBootstrap (meta_ b) (clock_ b) (fs_manager b) (listener_ b)
    (tablet_ b) x (log_ b) (log_reader_ b) (cmeta_ b).
Definition set_log_ (x : option LogT) (b : TabletBootstrap) :=
  mkTabletBootstrap (meta_ b) (clock_ b) (fs_manager b) (listener_ b)
    (tablet_ b) (opid_anchor_registry_ b) x (log_reader_ b) (cmeta_ b).
Definition set_log_reader_ (x : option LogReader.t) (b : TabletBootstrap) :=
  mkTabletBootstrap (meta_ b) (clock_ b) (fs_manager b) (listener_ b)
    (tablet_ b) (opid_anchor_registry_ b) (log_ b) x (cmeta_ b).
Definition set_cmeta_ (x : option ConsensusMetadata.t) (b : TabletBootstrap) :=
  mkTabletBootstrap (meta_ b) (clock_ b) (fs_manager b) (listener_ b)
    (tablet_ b) (opid_anchor_registry_ b) (log_ b) (log_reader_ b) x.

(* The state the replay handlers work on: the bootstrap object and the
   [ReplayState] that [PlaySegments] passes by pointer. *)
Definition Replay : Type := TabletBootstrap * ReplayState.

(* TabletStatusListener::StatusMessage *)
Definition StatusMessage (status : string) : M TabletBootstrap unit :=
  modify (set_listener_ status).

(* tablet_->f(...) for an f that returns a Status. *)
Definition on_tablet (f : TabletT → Status * TabletT) : M TabletBootstrap unit :=
  t <- deref tablet_ ;;
  let '(s, t') := f t in
  modify (set_tablet_ (Some t')) ;;;
  RETURN_NOT_OK s.

(* A file-system call that returns a Status. *)
Definition on_fs (f : FsT → Status * FsT) : M TabletBootstrap unit :=
  fs <- gets fs_manager ;;
  let '(s, fs') := f fs in
  modify (set_fs_manager fs') ;;;
  RETURN_NOT_OK s.

(* log_->Append(entry) *)
Definition Append (entry : LogEntryPB.t) : M TabletBootstrap unit :=
  l <- deref log_ ;;
  let '(s, l') := Log_Append l entry in
  modify (set_log_ (Some l')) ;;;
  RETURN_NOT_OK s.

(** [TabletBootstrap::UpdateClock] *)
Definition UpdateClock (timestamp : Z) : M TabletBootstrap unit :=
  let '(s, ts) := Timestamp_FromUint64 timestamp in
  RETURN_NOT_OK s ;;;
  c <- gets clock_ ;;
  let '(s', c') := Clock_Update c ts in
  modify (set_clock_ c') ;;;
  RETURN_NOT_OK s'.

(** ** Row-op filter and applier *)

(* RowOp::SetFailed *)
Definition SetFailed (s : Status) (op : RowOp.t) : RowOp.t :=
  RowOp.set_result (OperationResultPB.mk true (StatusToPB s) []) op.

(** [TabletBootstrap::FilterInsert].  The source has
    DCHECK_EQ(op->decoded_op.type, INSERT). *)
Definition FilterInsert (op : RowOp.t) (op_result : OperationResultPB.t)
    : M TabletBootstrap RowOp.t :=
  match OperationResultPB.mutated_stores op_result with
  | [store] =>
      if negb (MemStoreTargetPB.has_mrs_id store) then
        fail (StatusNS.Corruption
                ("Insert operation result must have an mrs_id: " +:+
                 OperationResultPB_ShortDebugString op_result))
      else
        t <- deref tablet_ ;;
        if WasStoreAlreadyFlushed (Tablet_metadata t) store
        then ret (SetFailed (StatusNS.AlreadyPresent
                               "Row to insert was already flushed.") op)
        else ret op
  | _ =>
      fail (StatusNS.Corruption
              ("Insert operation result must have an mrs_id: " +:+
               OperationResultPB_ShortDebugString op_result))
  end.

(* The loop of FilterMutate that counts the unflushed targets. *)
Fixpoint count_unflushed (stores : list MemStoreTargetPB.t) (num : Z)
    : M TabletBootstrap Z :=
  match stores with
  | [] => ret num
  | mutated_store :: rest =>
      t <- deref tablet_ ;;
      if negb (WasStoreAlreadyFlushed (Tablet_metadata t) mutated_store)
      then count_unflushed rest (num + 1)
      else count_unflushed rest num
  end.

(** [TabletBootstrap::FilterMutate].  The source has a DCHECK that the op
    is an UPDATE or a DELETE, and LOG(DFATAL) when both targets are
    unflushed. *)
Definition FilterMutate (op : RowOp.t) (op_result : OperationResultPB.t)
    : M TabletBootstrap RowOp.t :=
  let num_mutated_stores :=
    Z.of_nat (length (OperationResultPB.mutated_stores op_result)) in
  if (num_mutated_stores =? 0) || (2 <? num_mutated_stores) then
    fail (StatusNS.Corruption
            ("Mutations must have one or two mutated_stores: " +:+
             OperationResultPB_ShortDebugString op_result))
  else
    num_unflushed_stores <-
      count_unflushed (OperationResultPB.mutated_stores op_result) 0 ;;
    if num_unflushed_stores =? 0 then
      ret (SetFailed (StatusNS.AlreadyPresent "Update was already flushed.") op)
    else ret op.

(* Stores [op] back at its place in tx_state's row_ops: the RowOp* the loop
   holds points into that vector. *)
Definition put_row_op (i : nat) (op : RowOp.t) (tx : WriteTransactionState.t)
    : WriteTransactionState.t :=
  WriteTransactionState.set_row_ops
    (<[i := op]> (WriteTransactionState.row_ops tx)) tx.

(** [TabletBootstrap::FilterAndApplyOperations]: the loop over the row ops,
    [n] ops remaining from position [op_idx]. *)
Fixpoint FilterAndApplyOperations_from (n : nat) (op_idx : nat)
    (tx_state : WriteTransactionState.t) (orig_result : TxResultPB.t)
    : M TabletBootstrap WriteTransactionState.t :=
  match n with
  | O => ret tx_state
  | S n' =>
      match WriteTransactionState.row_ops tx_state !! op_idx,
            TxResultPB.ops orig_result !! op_idx with
      | Some op, Some op_result =>
          if OperationResultPB.has_failed_status op_result then
            FilterAndApplyOperations_from n' (S op_idx)
              (put_row_op op_idx
                 (SetFailed (StatusNS.RuntimeError
                               "Row operation failed previously.") op)
                 tx_state)
              orig_result
          else
            op' <- match RowOp.decoded_op_type op with
                   | INSERT => FilterInsert op op_result
                   | UPDATE | DELETE => FilterMutate op op_result
                   | OTHER_ROW_OP _ => crash   (* LOG(FATAL) << "Bad op type" *)
                   end ;;
            let tx_state := put_row_op op_idx op' tx_state in
            match RowOp.result op' with
            | Some _ => FilterAndApplyOperations_from n' (S op_idx) tx_state orig_result
            | None =>
                (* Actually apply it. *)
                t <- deref tablet_ ;;
                let '(t', tx_state) := Tablet_ApplyRowOperation t tx_state op_idx in
                modify (set_tablet_ (Some t')) ;;;
                match WriteTransactionState.row_ops tx_state !! op_idx with
                | Some applied =>
                    match RowOp.result applied with
                    | Some r =>
                        if OperationResultPB.has_failed_status r then
                          t <- deref tablet_ ;;
                          fail (StatusNS.Corruption2
                                  "Operation which previously succeeded failed during log replay"
                                  ("Op: " +:+ RowOp_ToString t applied +:+ newline +:+
                                   "Failure: " +:+
                                   AppStatusPB_ShortDebugString
                                     (OperationResultPB.failed_status r)))
                        else
                          FilterAndApplyOperations_from n' (S op_idx) tx_state
                            orig_result
                    | None => crash   (* op->result is NULL *)
                    end
                | None => crash
                end
            end
      | _, _ => crash
      end
  end.

Definition FilterAndApplyOperations (tx_state : WriteTransactionState.t)
    (orig_result : TxResultPB.t) : M TabletBootstrap WriteTransactionState.t :=
  FilterAndApplyOperations_from
    (length (WriteTransactionState.row_ops tx_state)) 0 tx_state orig_result.

(** [TabletBootstrap::PlayRowOperations].  [arena_.Reset()] is left out. *)
Definition PlayRowOperations (tx_state : WriteTransactionState.t)
    (schema_pb ops_pb : string) (result : TxResultPB.t)
    : M TabletBootstrap WriteTransactionState.t :=
  let '(s, inserts_schema) := SchemaFromPB schema_pb in
  RETURN_NOT_OK_PREPEND (RETURN_NOT_OK s) "Couldn't decode client schema" ;;;
  t <- deref tablet_ ;;
  let '(s, t', tx_state) := Tablet_DecodeWriteOperations t inserts_schema tx_state in
  modify (set_tablet_ (Some t')) ;;;
  RETURN_NOT_OK_PREPEND (RETURN_NOT_OK s)
    ("Could not decode row operations: " +:+
     RowOperationsPB_ShortDebugString ops_pb) ;;;
  (* CHECK_EQ(tx_state->row_ops().size(), result.ops_size()) *)
  (if bool_decide (length (WriteTransactionState.row_ops tx_state)
                   = length (TxResultPB.ops result))
   then ret tt else crash) ;;;
  t <- deref tablet_ ;;
  let '(s, t', tx_state) := Tablet_AcquireRowLocks t tx_state in
  modify (set_tablet_ (Some t')) ;;;
  RETURN_NOT_OK_PREPEND (RETURN_NOT_OK s) "Failed to acquire row locks" ;;;
  FilterAndApplyOperations tx_state result.

(* LogEntryPB commit_entry; commit_entry.set_type(OPERATION);
   commit_entry.mutable_operation()->mutable_commit()->CopyFrom(c) *)
Definition new_commit_entry (c : CommitMsg.t) : LogEntryPB.t :=
  let o := LogEntryPB.operation LogEntryPB_new in
  LogEntryPB.mk OPERATION
    (OperationPB.mk (OperationPB.has_id o) (OperationPB.id o)
       (OperationPB.has_replicate o) (OperationPB.replicate o) true c).

(** [TabletBootstrap::PlayWriteRequest] *)
Definition PlayWriteRequest (replicate_op commit_op : OperationPB.t)
    : M TabletBootstrap unit :=
  let write := ReplicateMsg.write_request (OperationPB.replicate replicate_op) in
  let tx_state :=
    WriteTransactionState.mk write (OperationPB.id replicate_op) [] in
  t <- deref tablet_ ;;
  let '(t', tx_state) := Tablet_StartTransaction t tx_state in
  modify (set_tablet_ (Some t')) ;;;
  let tx_state :=
    WriteTransactionState.set_op_id (OperationPB.id replicate_op) tx_state in
  tx_state <-
    (if WriteRequestPB.has_row_operations write then
       PlayRowOperations tx_state (WriteRequestPB.schema write)
         (WriteRequestPB.row_operations write)
         (CommitMsg.result (OperationPB.commit commit_op))
     else ret tx_state) ;;
  (* the commit msg with the result replaced by the new one *)
  let c := OperationPB.commit commit_op in
  Append (new_commit_entry
            (CommitMsg.mk (CommitMsg.op_type c) (CommitMsg.commited_op_id c)
               (ReleaseTxResultPB tx_state) (CommitMsg.timestamp c))).

(** [TabletBootstrap::PlayAlterSchemaRequest] *)
Definition PlayAlterSchemaRequest (replicate_op commit_op : OperationPB.t)
    : M TabletBootstrap unit :=
  let alter_schema :=
    ReplicateMsg.alter_schema_request (OperationPB.replicate replicate_op) in
  let '(s, schema) := SchemaFromPB (AlterSchemaRequestPB.schema alter_schema) in
  RETURN_NOT_OK s ;;;
  let tx_state := AlterSchemaTransactionState_new alter_schema in
  t <- deref tablet_ ;;
  let '(s, t', tx_state) := Tablet_CreatePreparedAlterSchema t tx_state schema in
  modify (set_tablet_ (Some t')) ;;;
  RETURN_NOT_OK s ;;;
  t <- deref tablet_ ;;
  let '(s, t', tx_state) := Tablet_AlterSchema t tx_state in
  modify (set_tablet_ (Some t')) ;;;
  RETURN_NOT_OK_PREPEND (RETURN_NOT_OK s) "Failed to AlterSchema:" ;;;
  Append (new_commit_entry (OperationPB.commit commit_op)).

(** [TabletBootstrap::PlayChangeConfigRequest] *)
Definition PlayChangeConfigRequest (replicate_op commit_op : OperationPB.t)
    : M TabletBootstrap unit :=
  let change_config :=
    ReplicateMsg.change_config_request (OperationPB.replicate replicate_op) in
  let quorum := ChangeConfigRequestPB.new_config change_config in
  cmeta <- deref cmeta_ ;;
  let committed_seqno :=
    QuorumPB.seqno (ConsensusMetadata.committed_quorum cmeta) in
  (if committed_seqno <? QuorumPB.seqno quorum
   then modify (set_cmeta_ (Some (ConsensusMetadata.mk quorum)))
   else ret tt) ;;;
  Append (new_commit_entry (OperationPB.commit commit_op)).

(** ** The replay state machine *)

(** [TabletBootstrap::HandleEntryPair] *)
Definition HandleEntryPair (replicate_entry commit_entry : LogEntryPB.t)
    : M TabletBootstrap unit :=
  let replicate := OperationPB.replicate (LogEntryPB.operation replicate_entry) in
  let commit := OperationPB.commit (LogEntryPB.operation commit_entry) in
  let msgs :=
    "ReplicateMsg: " +:+ ReplicateMsg_DebugString replicate +:+
    " CommitMsg: " +:+ CommitMsg_DebugString commit +:+ newline in
  match CommitMsg.op_type commit with
  | OP_ABORT =>
      (* return here so we don't update the clock *)
      ret tt
  | WRITE_OP =>
      RETURN_NOT_OK_PREPEND
        (PlayWriteRequest (LogEntryPB.operation replicate_entry)
           (LogEntryPB.operation commit_entry))
        ("Failed to play write request. " +:+ msgs) ;;;
      UpdateClock (CommitMsg.timestamp commit)
  | ALTER_SCHEMA_OP =>
      RETURN_NOT_OK_PREPEND
        (PlayAlterSchemaRequest (LogEntryPB.operation replicate_entry)
           (LogEntryPB.operation commit_entry))
        ("Failed to play alter schema request. " +:+ msgs) ;;;
      UpdateClock (CommitMsg.timestamp commit)
  | CHANGE_CONFIG_OP =>
      RETURN_NOT_OK_PREPEND
        (PlayChangeConfigRequest (LogEntryPB.operation replicate_entry)
           (LogEntryPB.operation commit_entry))
        ("Failed to play change config. request. " +:+ msgs) ;;;
      UpdateClock (CommitMsg.timestamp commit)
  | OTHER_OP _ number =>
      fail (StatusNS.IllegalState
              ("Unsupported commit entry type: " +:+ pretty number))
  end.

(** [TabletBootstrap::HandleReplicateMessage] *)
Definition HandleReplicateMessage (entry : LogEntryPB.t) : M Replay unit :=
  lift_snd (λ st,
    let '(s, st') := CheckSequentialReplicateId (LogEntryPB.operation entry) st in
    RETURN_NOT_OK s st') ;;;
  (* Append the replicate message to the log as is *)
  lift_fst (Append entry) ;;;
  (* InsertOrReturnExisting(&state->pending_replicates, id, entry) *)
  pending <- gets (λ s : Replay, pending_replicates s.2) ;;
  match pending !! OperationPB.id (LogEntryPB.operation entry) with
  | Some existing_entry =>
      fail (StatusNS.Corruption2 "Found previous entry with the same id"
              (LogEntryPB_ShortDebugString existing_entry))
  | None =>
      lift_snd (modify (set_pending_replicates
        (<[OperationPB.id (LogEntryPB.operation entry) := entry]> pending)))
  end.

(* The dump of the whole log that precedes the orphan-commit error:
   CHECK_OK(log_reader_->GetSegmentsSnapshot(&seq)) and, for each segment,
   CHECK_OK(seg->ReadEntries(&entries)); the entries go to LOG(INFO). *)
Fixpoint print_segments (seq : list ReadableLogSegment.t)
    : M TabletBootstrap unit :=
  match seq with
  | [] => ret tt
  | seg :: rest =>
      let '(s, entries) := ReadableLogSegment.ReadEntries seg in
      CHECK_OK s ;;;
      print_segments rest
  end.

Definition print_entries : M TabletBootstrap unit :=
  reader <- deref log_reader_ ;;
  let '(s, seq) := LogReader.GetSegmentsSnapshot reader in
  CHECK_OK s ;;;
  print_segments seq.

(* The inner loop of the orphan-commit check, over the mutated stores of
   one operation result. *)
Fixpoint check_mutated_stores (commit : CommitMsg.t)
    (stores : list MemStoreTargetPB.t) : M TabletBootstrap unit :=
  match stores with
  | [] => ret tt
  | mutated_store :: rest =>
      t <- deref tablet_ ;;
      if negb (WasStoreAlreadyFlushed (Tablet_metadata t) mutated_store) then
        print_entries ;;;
        fail (StatusNS.Corruption
                ("Orphan commit " +:+ CommitMsg_ShortDebugString commit +:+
                 " has a mutated store " +:+
                 MemStoreTargetPB_ShortDebugString mutated_store +:+
                 " that was NOT already flushed"))
      else check_mutated_stores commit rest
  end.

(* The outer loop, over commit.result().ops(). *)
Fixpoint check_orphan_commit (commit : CommitMsg.t)
    (ops : list OperationResultPB.t) : M TabletBootstrap unit :=
  match ops with
  | [] => ret tt
  | op_result :: rest =>
      check_mutated_stores commit (OperationResultPB.mutated_stores op_result) ;;;
      check_orphan_commit commit rest
  end.

(** [TabletBootstrap::HandleCommitMessage].  The source has
    DCHECK(entry->operation().has_commit()) and
    DCHECK(!entry->operation().has_id()). *)
Definition HandleCommitMessage (entry : LogEntryPB.t) : M Replay unit :=
  let commit := OperationPB.commit (LogEntryPB.operation entry) in
  let committed_op_id := CommitMsg.commited_op_id commit in
  lift_snd (modify (UpdateCommittedOpId committed_op_id)) ;;;
  (* EraseKeyReturnValuePtr(&state->pending_replicates, committed_op_id) *)
  pending <- gets (λ s : Replay, pending_replicates s.2) ;;
  lift_snd (modify (set_pending_replicates (delete committed_op_id pending))) ;;;
  match pending !! committed_op_id with
  | Some existing_entry =>
      (* We found a match. *)
      lift_fst (HandleEntryPair existing_entry entry)
  | None =>
      lift_fst (check_orphan_commit commit
                  (TxResultPB.ops (CommitMsg.result commit)))
  end.

(** [TabletBootstrap::HandleEntry] *)
Definition HandleEntry (entry : LogEntryPB.t) : M Replay unit :=
  match LogEntryPB.type entry with
  | OPERATION =>
      if OperationPB.has_replicate (LogEntryPB.operation entry) then
        HandleReplicateMessage entry
      else if OperationPB.has_commit (LogEntryPB.operation entry) then
        HandleCommitMessage entry
      else ret tt
  | OTHER_ENTRY_TYPE number =>
      fail (StatusNS.Corruption
              ("Unexpected log entry type: " +:+ pretty number))
  end.

(** ** The segment pipeline *)

(** [DebugInfo] *)
Definition DebugInfo (tablet_id : string) (segment_seqno entry_idx : Z)
    (segment_path : string) (entry : LogEntryPB.t) : string :=
  let debug_str := LogEntryPB_ShortDebugString entry in
  let debug_str :=
    if bool_decide (500 < String.length debug_str)%nat
    then String.substring 0 500 debug_str +:+ "..."
    else debug_str in
  "Debug Info: Error playing entry " +:+ pretty entry_idx +:+
  " of segment " +:+ pretty segment_seqno +:+
  " of tablet " +:+ tablet_id +:+
  ". Segment path: " +:+ segment_path +:+
  ". Entry: " +:+ debug_str.

(** [TabletBootstrap::OpenNewLog] *)
Definition OpenNewLog : M TabletBootstrap unit :=
  t <- deref tablet_ ;;
  fs <- gets fs_manager ;;
  let '(s, l, fs') := Log_Open fs (Tablet_tablet_id t) in
  modify (set_fs_manager fs') ;;;
  modify (set_log_ l) ;;;
  RETURN_NOT_OK s ;;;
  l <- deref log_ ;;
  modify (set_log_ (Some (Log_DisableSync l))).

(* The loop of PlaySegments over the entries of one segment.  The message
   of RETURN_NOT_OK_PREPEND is built on the error path only; it reads
   tablet_->tablet_id().  DebugInfo takes the sequence number of the
   segment as an [int]; [entry_idx] is an [int] already. *)
Fixpoint play_entries (segment : ReadableLogSegment.t) (entry_idx : Z)
    (entries : list LogEntryPB.t) : M Replay unit :=
  match entries with
  | [] => ret tt
  | entry :: rest =>
      (λ s, match HandleEntry entry s with
            | (Fail e, s') =>
                match tablet_ s'.1 with
                | Some t =>
                    (Fail (StatusNS.CloneAndPrepend
                             (DebugInfo (Tablet_tablet_id t)
                                (to_int
                                   (ReadableLogSegment.sequence_number segment))
                                entry_idx
                                (ReadableLogSegment.path segment) entry) e),
                     s')
                | None => (Crash, s')
                end
            | r => r
            end) ;;;
      play_entries segment (entry_idx + 1) rest
  end.

(* The loop of PlaySegments over the segments. *)
Fixpoint play_segments (segments : list ReadableLogSegment.t)
    (segment_count : Z) : M Replay unit :=
  match segments with
  | [] => ret tt
  | segment :: rest =>
      let '(read_status, entries) := ReadableLogSegment.ReadEntries segment in
      play_entries segment 0 entries ;;;
      (if negb (StatusNS.ok read_status) then
         t <- lift_fst (deref tablet_) ;;
         fail (StatusNS.Corruption
                 ("Error reading Log Segment of tablet " +:+
                  Tablet_tablet_id t +:+ ": " +:+
                  Status_ToString read_status +:+
                  " (Read up to entry " +:+
                  pretty (Z.of_nat (length entries)) +:+
                  " of segment " +:+
                  pretty (ReadableLogSegment.sequence_number segment) +:+
                  ", in path " +:+ ReadableLogSegment.path segment +:+ ")"))
       else ret tt) ;;;
      reader <- lift_fst (deref log_reader_) ;;
      lift_fst (StatusMessage
                  ("Bootstrap replayed " +:+ pretty (segment_count + 1) +:+
                   "/" +:+ pretty (LogReader.num_segments reader) +:+
                   " log segments.")) ;;;
      play_segments rest (segment_count + 1)
  end.

(* BOOST_FOREACH(e, state.pending_replicates)
     orphaned_replicates.push_back(e.second->release_operation());
   the operations of the entries left in pending_replicates, in the
   iteration order of the hash map. *)
Definition release_operations (pending : gmap OpId LogEntryPB.t)
    : list OperationPB.t :=
  (λ e, LogEntryPB.operation e.2) <$> OpToEntryMap_iterate pending.

(** [TabletBootstrap::PlaySegments].  [consensus_info] is the caller's
    structure, filled in on success.  DumpOrphanedReplicates only logs. *)
Definition PlaySegments (consensus_info : ConsensusBootstrapInfo.t)
    : M TabletBootstrap ConsensusBootstrapInfo.t :=
  RETURN_NOT_OK_PREPEND OpenNewLog "Failed to open new log" ;;;
  reader <- deref log_reader_ ;;
  let '(s, segments) := LogReader.GetSegmentsSnapshot reader in
  RETURN_NOT_OK s ;;;
  r <- with_local ReplayState_new (play_segments segments 0) ;;
  let state : ReplayState := r.2 in
  ret (ConsensusBootstrapInfo.mk
         (prev_op_id state)
         (committed_op_id state)
         (ConsensusBootstrapInfo.orphaned_replicates consensus_info
          ++ release_operations (pending_replicates state))).

(** ** The recovery directory *)

(* The loop of PrepareRecoveryDir that removes the log files a previous,
   aborted recovery left in the log directory. *)
Fixpoint delete_old_log_files (log_dir : string) (children : list string)
    : M TabletBootstrap unit :=
  match children with
  | [] => ret tt
  | child :: rest =>
      (if negb (IsLogFileName child) then ret tt
       else on_fs (λ fs, Env_DeleteFile fs (JoinPathSegments log_dir child))) ;;;
      delete_old_log_files log_dir rest
  end.

(** [TabletBootstrap::PrepareRecoveryDir]; the value is [*needs_recovery]. *)
Definition PrepareRecoveryDir : M TabletBootstrap bool :=
  t <- deref tablet_ ;;
  let tablet_id := TabletMetadata.oid (Tablet_metadata t) in
  let log_dir := GetTabletWalDir tablet_id in
  let recovery_path := GetTabletWalRecoveryDir tablet_id in
  fs <- gets fs_manager ;;
  if Fs_Exists fs recovery_path then
    (if Fs_Exists fs log_dir then
       let '(s, children) := Fs_ListDir fs log_dir in
       RETURN_NOT_OK_PREPEND (RETURN_NOT_OK s) "Couldn't list log segments." ;;;
       delete_old_log_files log_dir children
     else
       RETURN_NOT_OK_PREPEND (on_fs (λ fs, Fs_CreateDirIfMissing fs log_dir))
         "Failed to create log dir") ;;;
    ret true
  else if negb (Fs_Exists fs log_dir) then
    RETURN_NOT_OK_PREPEND (on_fs (λ fs, Fs_CreateDirIfMissing fs log_dir))
      "Failed to create log dir" ;;;
    ret false
  else
    let '(s, children) := Fs_ListDir fs log_dir in
    RETURN_NOT_OK_PREPEND (RETURN_NOT_OK s) "Couldn't list log segments." ;;;
    let needs_recovery := existsb IsLogFileName children in
    (if needs_recovery then
       (* Atomically rename the log directory to the recovery directory
          and then re-create the log directory. *)
       RETURN_NOT_OK_PREPEND
         (on_fs (λ fs, Env_RenameFile fs log_dir recovery_path))
         ("Could not move log directory " +:+ log_dir +:+
          " to recovery dir " +:+ recovery_path) ;;;
       RETURN_NOT_OK_PREPEND (on_fs (λ fs, Fs_CreateDirIfMissing fs log_dir))
         ("Failed to recreate log directory " +:+ log_dir)
     else ret tt) ;;;
    ret needs_recovery.

(** [TabletBootstrap::RemoveRecoveryDir].  The source has a DCHECK that the
    recovery directory exists. *)
Definition RemoveRecoveryDir : M TabletBootstrap unit :=
  t <- deref tablet_ ;;
  let recovery_path :=
    GetTabletWalRecoveryDir (TabletMetadata.oid (Tablet_metadata t)) in
  fs <- gets fs_manager ;;
  let tmp_path :=
    recovery_path +:+ "-" +:+ pretty (GetCurrentTimeMicros fs) in
  RETURN_NOT_OK_PREPEND
    (on_fs (λ fs, Env_RenameFile fs recovery_path tmp_path))
    ("Could not rename old recovery dir from: " +:+ recovery_path +:+
     " to: " +:+ tmp_path) ;;;
  if FLAGS_skip_remove_old_recovery_dir then ret tt
  else
    RETURN_NOT_OK_PREPEND
      (on_fs (λ fs, Env_DeleteRecursively fs tmp_path))
      ("Could not remove renamed recovery dir" +:+ tmp_path).

(** ** The orchestrator *)

(** [TabletBootstrap::FetchBlocksAndOpenTablet]; the value is [*fetched]. *)
Definition FetchBlocksAndOpenTablet : M TabletBootstrap bool :=
  b <- get ;;
  let tablet := Tablet_new (meta_ b) (clock_ b) (opid_anchor_registry_ b) in
  let '(s, tablet) := Tablet_Open tablet in
  RETURN_NOT_OK s ;;;
  modify (set_tablet_ (Some tablet)) ;;;
  ret (negb (Tablet_num_rowsets tablet =? 0)).

(** [TabletBootstrap::FetchLogSegments]; the value is [*needs_recovery]. *)
Definition FetchLogSegments : M TabletBootstrap bool :=
  needs_recovery <- PrepareRecoveryDir ;;
  if negb needs_recovery then ret needs_recovery
  else
    t <- deref tablet_ ;;
    fs <- gets fs_manager ;;
    let '(s, reader) :=
      LogReader_OpenFromRecoveryDir fs (TabletMetadata.oid (Tablet_metadata t)) in
    modify (set_log_reader_ reader) ;;;
    RETURN_NOT_OK_PREPEND (RETURN_NOT_OK s) "Could not open LogReader. Reason" ;;;
    ret needs_recovery.

(* What Bootstrap hands out through its pointer arguments. *)
Record BootstrapOutputs := mkBootstrapOutputs {
  rebuilt_tablet : option TabletT;
  rebuilt_log : option LogT;
  opid_anchor_registry : option OpIdAnchorRegistry;
  results : ConsensusBootstrapInfo.t }.

(* rebuilt_tablet->reset(tablet_.release());
   rebuilt_log->reset(log_.release());
   *opid_anchor_registry = opid_anchor_registry_; *)
Definition hand_out (info : ConsensusBootstrapInfo.t)
    : M TabletBootstrap BootstrapOutputs :=
  b <- get ;;
  modify (set_tablet_ None) ;;;
  modify (set_log_ None) ;;;
  ret (mkBootstrapOutputs (tablet_ b) (log_ b) (opid_anchor_registry_ b) info).

(** [TabletBootstrap::Bootstrap], first part: from the load of the
    consensus metadata to the point where [fetched_blocks] and
    [needs_recovery] are known.  [tablet_id] is [meta_->oid()]; the value is
    (fetched_blocks, needs_recovery). *)
Definition Bootstrap_fetch (tablet_id : string) : M TabletBootstrap (bool * bool) :=
  b <- get ;;
  let '(s, cmeta) := ConsensusMetadata_Load (fs_manager b) tablet_id in
  modify (set_cmeta_ cmeta) ;;;
  RETURN_NOT_OK_PREPEND (RETURN_NOT_OK s) "Unable to load Consensus metadata" ;;;
  let remote_bootstrap_state := TabletMetadata.remote_bootstrap_state (meta_ b) in
  if negb (bool_decide (remote_bootstrap_state = REMOTE_BOOTSTRAP_DONE)) then
    fail (StatusNS.Corruption
            ("Unable to locally bootstrap tablet " +:+ tablet_id +:+ ": " +:+
             "TabletMetadata bootstrap state is " +:+
             TabletBootstrapStatePB_Name remote_bootstrap_state))
  else
    modify (λ b, set_meta_ (TabletMetadata.PinFlush (meta_ b)) b) ;;;
    StatusMessage "Bootstrap starting." ;;;
    (if VLOG_IS_ON_1
     then m <- gets meta_ ;; RETURN_NOT_OK (ToSuperBlock m)
     else ret tt) ;;;
    modify (set_opid_anchor_registry_ (Some OpIdAnchorRegistry_new)) ;;;
    fetched_blocks <- FetchBlocksAndOpenTablet ;;
    needs_recovery <- FetchLogSegments ;;
    ret (fetched_blocks, needs_recovery).

(** [TabletBootstrap::Bootstrap], second part: the cases on
    (fetched_blocks, needs_recovery). *)
Definition Bootstrap_cases (tablet_id : string)
    (fetched_blocks needs_recovery : bool)
    (consensus_info : ConsensusBootstrapInfo.t)
    : M TabletBootstrap BootstrapOutputs :=
  if negb fetched_blocks && negb needs_recovery then
    (* This is a new tablet just return OK() *)
    RETURN_NOT_OK_PREPEND OpenNewLog "Failed to open new log" ;;;
    on_tablet Tablet_UnPinFlush ;;;
    StatusMessage "No bootstrap required, opened a new log" ;;;
    hand_out (ConsensusBootstrapInfo.mk MinimumOpId MinimumOpId
                (ConsensusBootstrapInfo.orphaned_replicates consensus_info))
  else if fetched_blocks && negb needs_recovery then
    (* If there were blocks there must be segments to replay *)
    fail (StatusNS.IllegalState
            ("Tablet: " +:+ tablet_id +:+
             " had rowsets but no log segments could be found."))
  else
    consensus_info <-
      RETURN_NOT_OK_PREPEND (PlaySegments consensus_info)
        "Failed log replay. Reason" ;;
    (* cmeta_->Flush(): the status is not looked at *)
    cmeta <- deref cmeta_ ;;
    modify (λ b, set_fs_manager
                   (ConsensusMetadata_Flush (fs_manager b) cmeta).2 b) ;;;
    on_tablet Tablet_UnPinFlush ;;;
    RemoveRecoveryDir ;;;
    StatusMessage "Bootstrap complete." ;;;
    hand_out consensus_info.

(** [TabletBootstrap::Bootstrap] *)
Definition Bootstrap (consensus_info : ConsensusBootstrapInfo.t)
    : M TabletBootstrap BootstrapOutputs :=
  b <- get ;;
  let tablet_id := TabletMetadata.oid (meta_ b) in
  r <- Bootstrap_fetch tablet_id ;;
  Bootstrap_cases tablet_id r.1 r.2 consensus_info.

(** [BootstrapTablet] *)
Definition BootstrapTablet (consensus_info : ConsensusBootstrapInfo.t)
    : M TabletBootstrap BootstrapOutputs :=
  out <- Bootstrap consensus_info ;;
  (* This is necessary since OpenNewLog() initially disables sync. *)
  match rebuilt_log out with
  | Some l =>
      let '(s, l') := Log_ReEnableSyncIfRequired l in
      RETURN_NOT_OK s ;;;
      ret (mkBootstrapOutputs (rebuilt_tablet out) (Some l')
             (opid_anchor_registry out) (results out))
  | None => crash
  end.

(* A call that leaves the new log alone. *)
Definition keeps_log {A} (m : M TabletBootstrap A) : Prop :=
  ∀ b, log_ (m b).2 = log_ b.

End Core.

(** ** Specification-side notions *)

(** The maximum of two OpIds in the order of the data model. *)
Global Instance OpId_le_dec (a b : OpId) : Decision (OpId_le a b).
Proof. unfold OpId_le. apply _. Defined.

Definition OpId_max (a b : OpId) : OpId :=
  if decide (OpId_le a b) then b else a.

(** The three cases in which [new] follows [prev] in the replay: the next
    index is the one the code computes, in the 64-bit arithmetic of the
    index. *)
Definition may_follow (prev new : OpId) : Prop :=
  prev = mkOpId 0 0
  ∨ (term new = term prev ∧ index new = int64_add1 (index prev))
  ∨ term new > term prev.

Global Instance may_follow_dec (prev new : OpId) : Decision (may_follow prev new).
Proof. unfold may_follow. apply _. Defined.

(** The three cases in the words of section 4.4, [prev.index + 1] being the
    sum in the integers. *)
Definition may_follow_as_specified (prev new : OpId) : Prop :=
  prev = mkOpId 0 0
  ∨ (term new = term prev ∧ index new = index prev + 1)
  ∨ term new > term prev.

Global Instance may_follow_as_specified_dec (prev new : OpId) :
  Decision (may_follow_as_specified prev new).
Proof. unfold may_follow_as_specified. apply _. Defined.

(** How [HandleEntry] dispatches an entry. *)
Definition is_replicate_entry (e : LogEntryPB.t) : bool :=
  bool_decide (LogEntryPB.type e = OPERATION)
  && OperationPB.has_replicate (LogEntryPB.operation e).

Definition is_commit_entry (e : LogEntryPB.t) : bool :=
  bool_decide (LogEntryPB.type e = OPERATION)
  && negb (OperationPB.has_replicate (LogEntryPB.operation e))
  && OperationPB.has_commit (LogEntryPB.operation e).

Definition entry_id (e : LogEntryPB.t) : OpId :=
  OperationPB.id (LogEntryPB.operation e).

Definition entry_commited_op_id (e : LogEntryPB.t) : OpId :=
  CommitMsg.commited_op_id (OperationPB.commit (LogEntryPB.operation e)).

(** The mutated stores a commit lists, over all its operation results. *)
Definition commit_mutated_stores (c : CommitMsg.t) : list MemStoreTargetPB.t :=
  concat (OperationResultPB.mutated_stores <$> TxResultPB.ops (CommitMsg.result c)).

(** The state machine of section 4.4 on the replay state alone: what an
    accepted entry does to [prev_op_id], [committed_op_id] and
    [pending_replicates].  A replicate is accepted by the sequence rule as
    the code computes it, [may_follow]. *)
Inductive accepts : ReplayState → LogEntryPB.t → ReplayState → Prop :=
  | accepts_replicate st e :
      is_replicate_entry e = true →
      may_follow (prev_op_id st) (entry_id e) →
      pending_replicates st !! entry_id e = None →
      accepts st e
        (mkReplayState (entry_id e) (committed_op_id st)
           (<[entry_id e := e]> (pending_replicates st)))
  | accepts_commit st e :
      is_commit_entry e = true →
      accepts st e
        (mkReplayState (prev_op_id st)
           (OpId_max (committed_op_id st) (entry_commited_op_id e))
           (delete (entry_commited_op_id e) (pending_replicates st)))
  | accepts_other st e :
      LogEntryPB.type e = OPERATION →
      is_replicate_entry e = false →
      is_commit_entry e = false →
      accepts st e st.

Inductive accepts_all : ReplayState → list LogEntryPB.t → ReplayState → Prop :=
  | accepts_nil st : accepts_all st [] st
  | accepts_cons st e st' es st'' :
      accepts st e st' → accepts_all st' es st'' →
      accepts_all st (e :: es) st''.

(** The operations of the pending entries, each once; the order of the list
    is the one of the keys and says nothing of the code. *)
Definition pending_operations (pending : gmap OpId LogEntryPB.t)
    : list OperationPB.t :=
  (λ e, LogEntryPB.operation e.2) <$> map_to_list pending.

(** The id of the last replicate of a stream, [acc] if there is none. *)
Definition last_replicate_id (acc : OpId) (stream : list LogEntryPB.t) : OpId :=
  foldl (λ acc e, if is_replicate_entry e then entry_id e else acc) acc stream.

(** The maximum of [acc] and the ids the commits of a stream refer to. *)
Definition max_commited_op_id (acc : OpId) (stream : list LogEntryPB.t) : OpId :=
  foldl (λ acc e, if is_commit_entry e
                  then OpId_max acc (entry_commited_op_id e) else acc)
        acc stream.

(** The replicate at position [i] of the stream is matched by no later
    commit. *)
Definition never_matched (stream : list LogEntryPB.t) (i : nat)
    (e : LogEntryPB.t) : Prop :=
  stream !! i = Some e
  ∧ is_replicate_entry e = true
  ∧ ∀ j c, (i < j)%nat → stream !! j = Some c → is_commit_entry c = true →
           entry_commited_op_id c ≠ entry_id e.

(** All entries of the segments, in log order. *)
Definition all_entries (segments : list ReadableLogSegment.t)
    : list LogEntryPB.t :=
  concat ((λ seg, (ReadableLogSegment.ReadEntries seg).2) <$> segments).

(** The re-read of the log that the orphan-commit dump makes succeeds. *)
Definition log_readable (reader : LogReader.t) : Prop :=
  StatusNS.ok (LogReader.GetSegmentsSnapshot reader).1 = true
  ∧ Forall (λ seg, StatusNS.ok (ReadableLogSegment.ReadEntries seg).1 = true)
      (LogReader.GetSegmentsSnapshot reader).2.

(** [needle] occurs in [hay]. *)
Fixpoint contains (needle hay : string) : bool :=
  String.prefix needle hay
  || match hay with
     | EmptyString => false
     | String _ rest => contains needle rest
     end.

(** ** Notions for the properties of the replay as a whole *)

(** An id with no negative part. *)
Definition nonneg (id : OpId) : Prop := 0 ≤ term id ∧ 0 ≤ index id.

(** The ids of the replicates of a stream, in log order. *)
Definition replicate_ids (stream : list LogEntryPB.t) : list OpId :=
  entry_id <$> filter (λ e, is_replicate_entry e = true) stream.

(** Every id of the list may follow the one before it, the first one
    following [prev]. *)
Fixpoint in_sequence (prev : OpId) (ids : list OpId) : Prop :=
  match ids with
  | [] => True
  | id :: rest => may_follow prev id ∧ in_sequence id rest
  end.

(** A call keeps a property of the state, whatever it returns. *)
Definition preserves {S A} (P : S → Prop) (m : M S A) : Prop :=
  ∀ s, P s → P (m s).2.

(** The metadata [m'] is the metadata [m] after flushes and compactions:
    the last durable memrowset id has not gone back, no rowset has appeared
    and the rowsets that remain have not gone back either. *)
Definition metadata_advanced (m m' : TabletMetadata.t) : Prop :=
  TabletMetadata.last_durable_mrs_id m ≤ TabletMetadata.last_durable_mrs_id m'
  ∧ ∀ id rs', TabletMetadata.rowsets m' !! id = Some rs' →
      ∃ rs, TabletMetadata.rowsets m !! id = Some rs
            ∧ RowSetMetadata.last_durable_redo_dms_id rs
              ≤ RowSetMetadata.last_durable_redo_dms_id rs'.

(** The row op needs no replay: it failed in the original transaction, or
    all the stores its result names are flushed (one memrowset for an
    insert, one or two delta stores for a mutation). *)
Definition filtered_out (meta : TabletMetadata.t) (op : RowOp.t)
    (op_result : OperationResultPB.t) : bool :=
  OperationResultPB.has_failed_status op_result
  || match RowOp.decoded_op_type op with
     | INSERT =>
         match OperationResultPB.mutated_stores op_result with
         | [store] =>
             MemStoreTargetPB.has_mrs_id store
             && WasStoreAlreadyFlushed meta store
         | _ => false
         end
     | UPDATE | DELETE =>
         bool_decide (1 ≤ length (OperationResultPB.mutated_stores op_result) ≤ 2)%nat
         && forallb (WasStoreAlreadyFlushed meta)
              (OperationResultPB.mutated_stores op_result)
     | OTHER_ROW_OP _ => false
     end.

(** The row op carries a result that is a failure. *)
Definition marked_failed (op : RowOp.t) : Prop :=
  ∃ r, RowOp.result op = Some r
       ∧ OperationResultPB.has_failed_status r = true.

Section CoreNotions.
Context `{Collaborators}.

(* A call that changes nothing but the file system. *)
Definition only_fs {A} (m : M TabletBootstrap A) : Prop :=
  ∀ b, (m b).2 = set_fs_manager (fs_manager (m b).2) b.

(* The tablet and the new log are there. *)
Definition non_null (b : TabletBootstrap) : Prop :=
  is_Some (tablet_ b) ∧ is_Some (log_ b).

(* The sequence number of the committed quorum is at least [n]. *)
Definition seqno_at_least (n : Z) (b : TabletBootstrap) : Prop :=
  ∃ cmeta, cmeta_ b = Some cmeta
           ∧ n ≤ QuorumPB.seqno (ConsensusMetadata.committed_quorum cmeta).

(* A property of the bootstrap object that stands when the tablet or the
   new log is replaced by another one, and when the committed quorum is
   replaced by one with a higher sequence number: the only changes the
   replay of a replicate with its commit makes before it comes to the
   clock. *)
Definition play_stable (P : TabletBootstrap → Prop) : Prop :=
  (∀ b t, P b → P (set_tablet_ (Some t) b))
  ∧ (∀ b l, P b → P (set_log_ (Some l) b))
  ∧ (∀ b cmeta quorum,
       P b → cmeta_ b = Some cmeta →
       QuorumPB.seqno (ConsensusMetadata.committed_quorum cmeta)
         < QuorumPB.seqno quorum →
       P (set_cmeta_ (Some (ConsensusMetadata.mk quorum)) b)).

(* A property of the bootstrap object that stands when the tablet, the new
   log or the clock is replaced by another one, and when the committed
   quorum is replaced by one with a higher sequence number: the only
   changes the handling of a log entry makes. *)
Definition replay_stable (P : TabletBootstrap → Prop) : Prop :=
  (∀ b t, P b → P (set_tablet_ (Some t) b))
  ∧ (∀ b l, P b → P (set_log_ (Some l) b))
  ∧ (∀ b c, P b → P (set_clock_ c b))
  ∧ (∀ b cmeta quorum,
       P b → cmeta_ b = Some cmeta →
       QuorumPB.seqno (ConsensusMetadata.committed_quorum cmeta)
         < QuorumPB.seqno quorum →
       P (set_cmeta_ (Some (ConsensusMetadata.mk quorum)) b)).

End CoreNotions.

(** ** An in-memory implementation of the collaborators

    A small tablet server to run the bootstrap on: the tablet is its
    metadata and the rows of its memrowset, the log is the list of appended
    entries, the clock is the latest timestamp, and the file system holds
    directory listings, the segments of the recovery directory and the
    consensus metadata file. *)
Module InMemory.

Record Tablet := mkTablet {
  metadata : TabletMetadata.t;
  memrowset : list string }.

Record Log := mkLog { entries : list LogEntryPB.t; sync_disabled : bool }.

Record Fs := mkFs {
  dirs : gmap string (list string);
  recovery_segments : list ReadableLogSegment.t;
  cmeta_file : option ConsensusMetadata.t }.

Definition set_dirs (d : gmap string (list string)) (fs : Fs) : Fs :=
  mkFs d (recovery_segments fs) (cmeta_file fs).

Definition unpin_flush (t : Tablet) : Status * Tablet :=
  let m := metadata t in
  (StatusNS.OK,
   mkTablet
     (TabletMetadata.mk (TabletMetadata.oid m)
        (TabletMetadata.remote_bootstrap_state m)
        (TabletMetadata.last_durable_mrs_id m) (TabletMetadata.rowsets m)
        (TabletMetadata.flush_pins m - 1))
     (memrowset t)).

(* Every write request decodes to one INSERT of its row data. *)
Definition decode_write_operations (t : Tablet) (schema : string)
    (tx : WriteTransactionState.t)
    : Status * Tablet * WriteTransactionState.t :=
  (StatusNS.OK, t,
   WriteTransactionState.set_row_ops
     [RowOp.mk INSERT
        (WriteRequestPB.row_operations (WriteTransactionState.request tx))
        None] tx).

(* An applied insert lands in the memrowset after the last durable one. *)
Definition apply_row_operation (t : Tablet) (tx : WriteTransactionState.t)
    (i : nat) : Tablet * WriteTransactionState.t :=
  match WriteTransactionState.row_ops tx !! i with
  | Some op =>
      let target :=
        MemStoreTargetPB.MRS
          (TabletMetadata.last_durable_mrs_id (metadata t) + 1) in
      (mkTablet (metadata t) (memrowset t ++ [RowOp.decoded_op_row op]),
       WriteTransactionState.set_row_ops
         (<[i := RowOp.set_result (OperationResultPB.mk false "" [target]) op]>
            (WriteTransactionState.row_ops tx)) tx)
  | None => (t, tx)
  end.

Definition release_results (tx : WriteTransactionState.t) : TxResultPB.t :=
  TxResultPB.mk
    (omap RowOp.result (WriteTransactionState.row_ops tx)).

Definition join_path (a b : string) : string := a +:+ "/" +:+ b.

Definition list_dir (fs : Fs) (dir : string) : Status * list string :=
  match dirs fs !! dir with
  | Some children => (StatusNS.OK, children)
  | None => (mkStatus kIOError ("no such directory: " +:+ dir), [])
  end.

Definition create_dir (fs : Fs) (dir : string) : Status * Fs :=
  match dirs fs !! dir with
  | Some _ => (StatusNS.OK, fs)
  | None => (StatusNS.OK, set_dirs (<[dir := []]> (dirs fs)) fs)
  end.

Definition delete_file (fs : Fs) (path : string) : Status * Fs :=
  (StatusNS.OK,
   set_dirs
     (map_imap (λ dir children,
        Some (filter (λ c, join_path dir c ≠ path) children))
        (dirs fs)) fs).

Definition rename_file (fs : Fs) (src dst : string) : Status * Fs :=
  match dirs fs !! src with
  | Some children =>
      (StatusNS.OK, set_dirs (<[dst := children]> (delete src (dirs fs))) fs)
  | None => (mkStatus kIOError ("no such directory: " +:+ src), fs)
  end.

Definition empty_entry : LogEntryPB.t :=
  LogEntryPB.mk OPERATION
    (OperationPB.mk false (mkOpId 0 0)
       false
       (ReplicateMsg.mk (OTHER_OP "UNKNOWN_OP" 0)
          (WriteRequestPB.mk false "" "") (AlterSchemaRequestPB.mk "")
          (ChangeConfigRequestPB.mk (QuorumPB.mk 0 "")))
       false
       (CommitMsg.mk (OTHER_OP "UNKNOWN_OP" 0) (mkOpId 0 0)
          (TxResultPB.mk []) 0)).

Definition entry_name (e : LogEntryPB.t) : string :=
  if OperationPB.has_replicate (LogEntryPB.operation e) then
    "replicate " +:+ OpId_ShortDebugString (OperationPB.id (LogEntryPB.operation e))
  else
    "commit of " +:+
    OpId_ShortDebugString
      (CommitMsg.commited_op_id (OperationPB.commit (LogEntryPB.operation e))).

Definition collaborators : Collaborators := {|
  TabletT := Tablet;
  ClockT := Z;
  FsT := Fs;
  LogT := Log;
  Schema := string;
  Timestamp := Z;
  AlterSchemaTransactionState := AlterSchemaRequestPB.t;
  Tablet_new := λ m _ _, mkTablet m [];
  Tablet_Open := λ t, (StatusNS.OK, t);
  Tablet_num_rowsets := λ t, Z.of_nat (size (TabletMetadata.rowsets (metadata t)));
  Tablet_metadata := metadata;
  Tablet_tablet_id := λ t, TabletMetadata.oid (metadata t);
  Tablet_UnPinFlush := unpin_flush;
  Tablet_StartTransaction := λ t tx, (t, tx);
  Tablet_DecodeWriteOperations := decode_write_operations;
  Tablet_AcquireRowLocks := λ t tx, (StatusNS.OK, t, tx);
  Tablet_ApplyRowOperation := apply_row_operation;
  AlterSchemaTransactionState_new := λ r, r;
  Tablet_CreatePreparedAlterSchema := λ t tx _, (StatusNS.OK, t, tx);
  Tablet_AlterSchema := λ t tx, (StatusNS.OK, t, tx);
  SchemaFromPB := λ pb, (StatusNS.OK, pb);
  ReleaseTxResultPB := release_results;
  StatusToPB := message;
  ToSuperBlock := λ _, StatusNS.OK;
  Log_Open := λ fs _, (StatusNS.OK, Some (mkLog [] false), fs);
  Log_DisableSync := λ l, mkLog (entries l) true;
  Log_Append := λ l e, (StatusNS.OK, mkLog (entries l ++ [e]) (sync_disabled l));
  Log_ReEnableSyncIfRequired := λ l, (StatusNS.OK, mkLog (entries l) false);
  LogReader_OpenFromRecoveryDir := λ fs _,
    (StatusNS.OK,
     Some (LogReader.mk (StatusNS.OK, recovery_segments fs)
             (Z.of_nat (length (recovery_segments fs)))));
  Timestamp_FromUint64 := λ z, (StatusNS.OK, z);
  Clock_Update := λ c ts, (StatusNS.OK, Z.max c ts);
  ConsensusMetadata_Load := λ fs _,
    match cmeta_file fs with
    | Some c => (StatusNS.OK, Some c)
    | None => (mkStatus kIOError "no consensus metadata", None)
    end;
  ConsensusMetadata_Flush := λ fs c,
    (StatusNS.OK, mkFs (dirs fs) (recovery_segments fs) (Some c));
  GetTabletWalDir := λ id, "/wals/" +:+ id;
  GetTabletWalRecoveryDir := λ id, "/wals/" +:+ id +:+ ".recovery";
  IsLogFileName := String.prefix "wal-";
  JoinPathSegments := join_path;
  Fs_Exists := λ fs p, bool_decide (is_Some (dirs fs !! p));
  Fs_ListDir := list_dir;
  Fs_CreateDirIfMissing := create_dir;
  Env_DeleteFile := delete_file;
  Env_RenameFile := rename_file;
  Env_DeleteRecursively := λ fs p, (StatusNS.OK, set_dirs (delete p (dirs fs)) fs);
  GetCurrentTimeMicros := λ _, 1400000000000000;
  FLAGS_skip_remove_old_recovery_dir := false;
  VLOG_IS_ON_1 := false;
  Status_ToString := message;
  LogEntryPB_ShortDebugString := entry_name;
  CommitMsg_ShortDebugString := λ c,
    "commit of " +:+ OpId_ShortDebugString (CommitMsg.commited_op_id c);
  CommitMsg_DebugString := λ c,
    "commit of " +:+ OpId_ShortDebugString (CommitMsg.commited_op_id c);
  ReplicateMsg_DebugString := λ r, OperationType_Name (ReplicateMsg.op_type r);
  MemStoreTargetPB_ShortDebugString := λ t,
    if MemStoreTargetPB.has_mrs_id t
    then "mrs_id: " +:+ pretty (MemStoreTargetPB.mrs_id t)
    else "rs_id: " +:+ pretty (MemStoreTargetPB.rs_id t) +:+
         " dms_id: " +:+ pretty (MemStoreTargetPB.dms_id t);
  OperationResultPB_ShortDebugString := λ r,
    pretty (Z.of_nat (length (OperationResultPB.mutated_stores r))) +:+
    " mutated stores";
  RowOperationsPB_ShortDebugString := λ s, s;
  AppStatusPB_ShortDebugString := λ s, s;
  RowOp_ToString := λ _ op, RowOp.decoded_op_row op;
  LogEntryPB_new := empty_entry;
  OpToEntryMap_iterate := map_to_list;
  OpToEntryMap_iterate_perm := λ m, Permutation_refl (map_to_list m)
|}.

(** Entries and states to run the bootstrap on. *)

(* A replicate of a write of one row. *)
Definition replicate_write (id : OpId) (row : string) : LogEntryPB.t :=
  LogEntryPB.mk OPERATION
    (OperationPB.mk true id
       true
       (ReplicateMsg.mk WRITE_OP (WriteRequestPB.mk true "schema" row)
          (AlterSchemaRequestPB.mk "")
          (ChangeConfigRequestPB.mk (QuorumPB.mk 0 "")))
       false (OperationPB.commit (LogEntryPB.operation empty_entry))).

(* A commit of type [t] for the operation [id], whose rows went to the
   given stores. *)
Definition commit_of (t : OperationType) (id : OpId)
    (stores : list MemStoreTargetPB.t) (timestamp : Z) : LogEntryPB.t :=
  LogEntryPB.mk OPERATION
    (OperationPB.mk false (mkOpId 0 0)
       false (OperationPB.replicate (LogEntryPB.operation empty_entry))
       true
       (CommitMsg.mk t id
          (TxResultPB.mk [OperationResultPB.mk false "" stores])
          timestamp)).

Definition tablet_meta (durable_mrs : Z) (rowsets : gmap Z RowSetMetadata.t)
    : TabletMetadata.t :=
  TabletMetadata.mk "tablet-1" REMOTE_BOOTSTRAP_DONE durable_mrs rowsets 1.

Definition segment (read_status : Status) (es : list LogEntryPB.t)
    : ReadableLogSegment.t :=
  ReadableLogSegment.mk 1 "/wals/tablet-1.recovery/wal-000001"
    (read_status, es).

Definition reader (segments : list ReadableLogSegment.t) : LogReader.t :=
  LogReader.mk (StatusNS.OK, segments) (Z.of_nat (length segments)).

Definition fs_of (segments : list ReadableLogSegment.t) : Fs :=
  mkFs {[ "/wals/tablet-1.recovery" := ["wal-000001"] ]} segments
    (Some (ConsensusMetadata.mk (QuorumPB.mk 0 ""))).

(* The bootstrap object in the middle of a replay: tablet opened, new log
   opened, reader over the given segments. *)
Definition replaying (durable_mrs : Z) (segments : list ReadableLogSegment.t)
    : @TabletBootstrap collaborators :=
  @mkTabletBootstrap collaborators
    (tablet_meta durable_mrs ∅) 0 (fs_of segments) "Bootstrap starting."
    (Some (mkTablet (tablet_meta durable_mrs ∅) []))
    (Some OpIdAnchorRegistry_new)
    (Some (mkLog [] true))
    (Some (reader segments))
    (Some (ConsensusMetadata.mk (QuorumPB.mk 0 ""))).

(* The bootstrap object as BootstrapTablet constructs it. *)
Definition constructed (meta : TabletMetadata.t) (fs : Fs)
    : @TabletBootstrap collaborators :=
  @mkTabletBootstrap collaborators meta 0 fs "" None None None None None.

End InMemory.

(** ** Scenarios on the in-memory tablet server *)

Module Scenarios.
Import InMemory.

Definition r00 : LogEntryPB.t := replicate_write (mkOpId 0 0) "row0".
Definition r11 : LogEntryPB.t := replicate_write (mkOpId 1 1) "rowA".
Definition r12 : LogEntryPB.t := replicate_write (mkOpId 1 2) "rowB".
Definition r13 : LogEntryPB.t := replicate_write (mkOpId 1 3) "rowC".
(* the commit of (1,1), whose row went to memrowset 1 *)
Definition c11 : LogEntryPB.t :=
  commit_of WRITE_OP (mkOpId 1 1) [MemStoreTargetPB.MRS 1] 5.
Definition abort11 : LogEntryPB.t := commit_of OP_ABORT (mkOpId 1 1) [] 0.

Definition fresh_info : ConsensusBootstrapInfo.t :=
  ConsensusBootstrapInfo.mk MinimumOpId MinimumOpId [].

(* A replay in which nothing is durable yet and the log has no segment. *)
Definition idle : @TabletBootstrap collaborators := replaying 0 [].

(* The state after the replicate (0,0) was handled. *)
Definition after_r00 : @Replay collaborators :=
  Eval vm_compute in (HandleReplicateMessage r00 (idle, ReplayState_new)).2.

(* The state after the replicate (1,1) was handled. *)
Definition after_r11 : @Replay collaborators :=
  Eval vm_compute in (HandleReplicateMessage r11 (idle, ReplayState_new)).2.

(* Scenario 4 of the spec: two replicates and the commit of the first. *)
Definition orphan_replicate_log : list ReadableLogSegment.t :=
  [segment StatusNS.OK [r11; r12; c11]].

Definition after_orphan_replicate_log : @TabletBootstrap collaborators :=
  Eval vm_compute in
    (PlaySegments fresh_info (replaying 0 orphan_replicate_log)).2.

(* Three replicates and the commit of the first: two replicates stay
   pending. *)
Definition two_orphans_log : list ReadableLogSegment.t :=
  [segment StatusNS.OK [r11; r12; r13; c11]].

Definition after_two_orphans_log : @TabletBootstrap collaborators :=
  Eval vm_compute in
    (PlaySegments fresh_info (replaying 0 two_orphans_log)).2.

(* A log that holds the commit of (1,1) and not its replicate. *)
Definition orphan_commit_log : list ReadableLogSegment.t :=
  [segment StatusNS.OK [c11]].


(* A log whose only segment is read in part: the read returns the commit
   of (1,1) and an error; the replicate is not there. *)
Definition truncated_log : list ReadableLogSegment.t :=
  [segment (mkStatus kCorruption "truncated segment") [c11]].

(* A tablet with one row-set and no log directory. *)
Definition flushed_tablet : @TabletBootstrap collaborators :=
  constructed
    (tablet_meta 3 {[ 0 := RowSetMetadata.mk 2 ]})
    (mkFs ∅ [] (Some (ConsensusMetadata.mk (QuorumPB.mk 0 "")))).

Definition flushed_tablet_fetched : @TabletBootstrap collaborators :=
  Eval vm_compute in (Bootstrap_fetch "tablet-1" flushed_tablet).2.

(* A replicate of a change of configuration to a quorum with the given
   sequence number, and its commit. *)
Definition change_config (seqno : Z) : OperationPB.t :=
  OperationPB.mk true (mkOpId 1 1)
    true
    (ReplicateMsg.mk CHANGE_CONFIG_OP (WriteRequestPB.mk false "" "")
       (AlterSchemaRequestPB.mk "")
       (ChangeConfigRequestPB.mk (QuorumPB.mk seqno "a,b,c")))
    false (OperationPB.commit (LogEntryPB.operation empty_entry)).

Definition change_config_commit : OperationPB.t :=
  LogEntryPB.operation (commit_of CHANGE_CONFIG_OP (mkOpId 1 1) [] 7).

(* The state after the replicate (0,0) of a segment was played. *)
Definition played_r00 : @Replay collaborators :=
  Eval vm_compute in
    (play_entries (segment StatusNS.OK [r00]) 0 [r00] (idle, ReplayState_new)).2.

(* The replay of scenario 4 in a tablet whose memrowset 5 is durable. *)
Definition durable5 : @TabletBootstrap collaborators := replaying 5 [].

(* The write of one row that went to memrowset 1, as decoded. *)
Definition decoded_write : WriteTransactionState.t :=
  WriteTransactionState.mk (WriteRequestPB.mk true "schema" "rowA")
    (mkOpId 1 1) [RowOp.mk INSERT "rowA" None].

Definition write_result : TxResultPB.t :=
  TxResultPB.mk [OperationResultPB.mk false "" [MemStoreTargetPB.MRS 1]].

(* A tablet server that went down with one log segment in the log
   directory of the tablet: the segment of scenario 4. *)
Definition crashed_tablet : @TabletBootstrap collaborators :=
  constructed (tablet_meta 0 ∅)
    (mkFs {[ "/wals/tablet-1" := ["wal-000001"] ]} orphan_replicate_log
       (Some (ConsensusMetadata.mk (QuorumPB.mk 0 "")))).

(* The same once the tablet is opened, and once the recovery directory is
   prepared. *)
Definition crashed_tablet_opened : @TabletBootstrap collaborators :=
  @set_tablet_ collaborators (Some (mkTablet (tablet_meta 0 ∅) []))
    crashed_tablet.

Definition crashed_tablet_prepared : @TabletBootstrap collaborators :=
  Eval vm_compute in (PrepareRecoveryDir crashed_tablet_opened).2.

(* The same once the log segments are fetched. *)
Definition crashed_tablet_with_reader : @TabletBootstrap collaborators :=
  Eval vm_compute in (FetchLogSegments crashed_tablet_opened).2.

(* The same tablet after the first part of Bootstrap. *)
Definition crashed_tablet_fetched : @TabletBootstrap collaborators :=
  Eval vm_compute in (Bootstrap_fetch "tablet-1" crashed_tablet).2.

Definition no_outputs : @BootstrapOutputs collaborators :=
  @mkBootstrapOutputs collaborators None None None fresh_info.

Definition outputs_of (r : Outcome (@BootstrapOutputs collaborators))
    : @BootstrapOutputs collaborators :=
  match r with Ret out => out | _ => no_outputs end.

Definition crashed_tablet_outputs : @BootstrapOutputs collaborators :=
  Eval vm_compute in outputs_of (Bootstrap fresh_info crashed_tablet).1.

Definition crashed_tablet_bootstrapped : @TabletBootstrap collaborators :=
  Eval vm_compute in (Bootstrap fresh_info crashed_tablet).2.

(* A tablet that was just created: no row-set, no log directory. *)
Definition new_tablet : @TabletBootstrap collaborators :=
  constructed (tablet_meta 0 ∅)
    (mkFs ∅ [] (Some (ConsensusMetadata.mk (QuorumPB.mk 0 "")))).

Definition new_tablet_fetched : @TabletBootstrap collaborators :=
  Eval vm_compute in (Bootstrap_fetch "tablet-1" new_tablet).2.

Definition new_tablet_outputs : @BootstrapOutputs collaborators :=
  Eval vm_compute in outputs_of (Bootstrap fresh_info new_tablet).1.

Definition new_tablet_bootstrapped : @TabletBootstrap collaborators :=
  Eval vm_compute in (Bootstrap fresh_info new_tablet).2.

(* A tablet whose remote bootstrap has not finished. *)
Definition copying_tablet : @TabletBootstrap collaborators :=
  constructed
    (TabletMetadata.mk "tablet-1" (OTHER_BOOTSTRAP_STATE "REMOTE_BOOTSTRAP_COPYING")
       0 ∅ 0)
    (mkFs ∅ [] (Some (ConsensusMetadata.mk (QuorumPB.mk 0 "")))).
End Scenarios.

(** * Properties *)

(** ** Order and sequence of OpIds *)

Lemma OpIdCompare_pos (a b : OpId) :
  OpIdCompare a b > 0 ↔ ¬ OpId_le a b.
Proof.
  unfold OpIdCompare, OpId_le. destruct a as [ta ia], b as [tb ib]; simpl.
  destruct (Z.eqb_spec ta tb) as [->|Hne].
  - destruct (Z.ltb_spec ia ib); [lia|].
    destruct (Z.eqb_spec ia ib); lia.
  - destruct (Z.ltb_spec ta tb); lia.
Qed.

Lemma OpId_le_refl (a : OpId) : OpId_le a a.
Proof. unfold OpId_le. lia. Qed.

Lemma OpId_le_total (a b : OpId) : OpId_le a b ∨ OpId_le b a.
Proof. unfold OpId_le. lia. Qed.

Lemma OpId_le_antisym (a b : OpId) : OpId_le a b → OpId_le b a → a = b.
Proof.
  unfold OpId_le. destruct a, b; simpl. intros. f_equal; lia.
Qed.

Lemma OpId_le_max_l (a b : OpId) : OpId_le a (OpId_max a b).
Proof.
  unfold OpId_max. destruct (decide (OpId_le a b)); [done | apply OpId_le_refl].
Qed.

Lemma OpId_le_max_r (a b : OpId) : OpId_le b (OpId_max a b).
Proof.
  unfold OpId_max. destruct (decide (OpId_le a b)) as [|Hn]; [apply OpId_le_refl|].
  destruct (OpId_le_total a b); [done | done].
Qed.

(** The code's update of [committed_op_id] computes the maximum. *)
Lemma UpdateCommittedOpId_max (id : OpId) (st : ReplayState) :
  UpdateCommittedOpId id st
  = set_committed_op_id (OpId_max (committed_op_id st) id) st.
Proof.
  unfold UpdateCommittedOpId, OpId_max.
  destruct (Z.gtb_spec (OpIdCompare id (committed_op_id st)) 0) as [Hgt|Hle].
  - assert (Hn : ¬ OpId_le id (committed_op_id st)) by (apply OpIdCompare_pos; lia).
    destruct (decide (OpId_le (committed_op_id st) id)) as [|Hn']; [done|].
    destruct (OpId_le_total id (committed_op_id st)); done.
  - assert (Hle' : OpId_le id (committed_op_id st)).
    { destruct (decide (OpId_le id (committed_op_id st))) as [|Hn]; [done|].
      apply OpIdCompare_pos in Hn. lia. }
    destruct (decide (OpId_le (committed_op_id st) id)) as [Hle2|]; [|by destruct st].
    rewrite (OpId_le_antisym _ _ Hle' Hle2). by destruct st.
Qed.

Lemma valid_sequence_spec (prev new : OpId) :
  valid_sequence prev new = true ↔ may_follow prev new.
Proof.
  unfold valid_sequence, may_follow. destruct prev as [pt pi], new as [nt ni]; simpl.
  destruct (Z.eqb_spec pt 0), (Z.eqb_spec pi 0); simpl;
    destruct (Z.eqb_spec nt pt), (Z.eqb_spec ni (int64_add1 pi)); simpl;
    destruct (Z.ltb_spec nt pt);
    split; intros Hv; try done; try (left; f_equal; lia); try lia;
    try (destruct Hv as [Hv | [Hv | Hv]]; [inversion Hv; lia | lia | lia]).
Qed.

(* On the values of an int64, [int64_add1] is the sum modulo 2^64 taken in
   the range of the type. *)
Lemma int64_add1_wraps (i : Z) :
  INT64_MIN ≤ i ≤ INT64_MAX →
  int64_add1 i
  = (i + 1 + 9223372036854775808) `mod` 18446744073709551616
    - 9223372036854775808.
Proof.
  unfold int64_add1, INT64_MIN, INT64_MAX. intros Hi.
  destruct (Z.eqb_spec i 9223372036854775807) as [->|Hne]; [done|].
  rewrite Z.mod_small; lia.
Qed.



(** ** The durability oracle *)

(** C3.  WasStoreAlreadyFlushed answers true for an MRS target exactly when
    its mrs_id is at most the metadata's last_durable_mrs_id; for a DRS
    target it answers true when the metadata has no rowset with the
    target's rs_id, and otherwise exactly when the target's dms_id is at
    most that rowset's last_durable_redo_dms_id.  It is a total function of
    the metadata and the target into [bool]: it has no effect and cannot
    fail. *)
Theorem WasStoreAlreadyFlushed_spec
    (meta : TabletMetadata.t) (target : MemStoreTargetPB.t) :
  WasStoreAlreadyFlushed meta target = true
  ↔ if MemStoreTargetPB.has_mrs_id target
    then MemStoreTargetPB.mrs_id target ≤ TabletMetadata.last_durable_mrs_id meta
    else match TabletMetadata.rowsets meta !! MemStoreTargetPB.rs_id target with
         | None => True
         | Some row_set =>
             MemStoreTargetPB.dms_id target
             ≤ RowSetMetadata.last_durable_redo_dms_id row_set
         end.
Proof.
  unfold WasStoreAlreadyFlushed, TabletMetadata.GetRowSetForTests.
  destruct (MemStoreTargetPB.has_mrs_id target).
  - apply Z.leb_le.
  - destruct (TabletMetadata.rowsets meta !! MemStoreTargetPB.rs_id target) as [rs|];
      [|done].
    destruct (Z.leb_spec (MemStoreTargetPB.dms_id target)
                (RowSetMetadata.last_durable_redo_dms_id rs)); split; (done || lia).
Qed.

(** ** Text of the messages *)

Lemma prefix_append (n rest : string) : String.prefix n (n +:+ rest) = true.
Proof.
  induction n as [|c n IH]; simpl; [by destruct rest|].
  destruct (Ascii.ascii_dec c c); [done | congruence].
Qed.

Lemma contains_of_prefix (n h : string) :
  String.prefix n h = true → contains n h = true.
Proof. destruct h; simpl; intros ->; done. Qed.

Lemma contains_prefix (n rest : string) : contains n (n +:+ rest) = true.
Proof. apply contains_of_prefix, prefix_append. Qed.

Lemma prefix_inv (n h : string) :
  String.prefix n h = true → ∃ rest, h = n +:+ rest.
Proof.
  revert h. induction n as [|c n IH]; intros h; simpl.
  - intros _. by exists h.
  - destruct h as [|c' h]; simpl; [done|].
    destruct (Ascii.ascii_dec c c') as [->|]; [|done].
    intros [rest ->]%IH. by exists rest.
Qed.

(** [contains] is the occurrence of a text inside another. *)
Lemma contains_spec (n h : string) :
  contains n h = true ↔ ∃ before after, h = before +:+ n +:+ after.
Proof.
  split.
  - induction h as [|c h IH]; cbn [contains].
    + rewrite orb_false_r. intros [rest ->]%prefix_inv. by exists "", rest.
    + intros [Hp|Hc]%orb_true_iff.
      * apply prefix_inv in Hp as [rest ->]. by exists "", rest.
      * destruct (IH Hc) as (b & a & ->). by exists (String c b), a.
  - intros (b & a & ->). induction b as [|c b IH].
    + change ("" +:+ n +:+ a) with (n +:+ a). apply contains_prefix.
    + change (String c b +:+ n +:+ a) with (String c (b +:+ n +:+ a)).
      cbn [contains]. rewrite IH. apply orb_true_r.
Qed.

Section Properties.
Context `{Collaborators}.

Ltac unfold_monad :=
  unfold bind, ret, fail, crash, get, gets, modify, deref, lift_fst, lift_snd,
    with_local, RETURN_NOT_OK, RETURN_NOT_OK_PREPEND, CHECK_OK in *.

(** ** Entries without a payload *)

(** C9.  An OPERATION entry that carries neither a replicate nor a commit
    is accepted by HandleEntry with status OK; the replay state and the
    bootstrap object, the new log included, are left as they were. *)
Theorem HandleEntry_operation_without_payload
    (entry : LogEntryPB.t) (s : Replay) :
  LogEntryPB.type entry = OPERATION →
  OperationPB.has_replicate (LogEntryPB.operation entry) = false →
  OperationPB.has_commit (LogEntryPB.operation entry) = false →
  HandleEntry entry s = (Ret tt, s).
Proof.
  intros Ht Hr Hc. unfold HandleEntry. by rewrite Ht, Hr, Hc.
Qed.

(** ** Aborted operations *)

(** C6.  For a pair whose commit has op-type OP_ABORT, HandleEntryPair
    returns OK and leaves the whole bootstrap object as it was: the tablet,
    the new log, the clock and the consensus metadata are unchanged. *)
Theorem HandleEntryPair_abort_touches_nothing
    (replicate_entry commit_entry : LogEntryPB.t) (b : TabletBootstrap) :
  CommitMsg.op_type (OperationPB.commit (LogEntryPB.operation commit_entry))
    = OP_ABORT →
  HandleEntryPair replicate_entry commit_entry b = (Ret tt, b).
Proof.
  intros Ha. unfold HandleEntryPair. by rewrite Ha.
Qed.

(** ** Replicates with an id that is already pending *)

Lemma CheckSequentialReplicateId_ok (op : OperationPB.t) (st : ReplayState) :
  may_follow (prev_op_id st) (OperationPB.id op) →
  CheckSequentialReplicateId op st
  = (StatusNS.OK, set_prev_op_id (OperationPB.id op) st).
Proof.
  intros Hv%valid_sequence_spec. unfold CheckSequentialReplicateId.
  by rewrite Hv.
Qed.

(** C10.  HandleReplicateMessage appends the entry to the new log before
    it looks for the id in pending_replicates.  When the id is already
    pending, the call returns the error of the append if the append failed,
    and otherwise the Corruption "Found previous entry with the same id";
    in both cases the log is the one the append left and prev_op_id has
    moved to the id of the entry, although an error is returned. *)
Theorem HandleReplicateMessage_duplicate_after_append
    (entry existing_entry : LogEntryPB.t) (b : TabletBootstrap)
    (st : ReplayState) (l : LogT) :
  may_follow (prev_op_id st) (entry_id entry) →
  log_ b = Some l →
  pending_replicates st !! entry_id entry = Some existing_entry →
  HandleReplicateMessage entry (b, st)
  = (Fail (if StatusNS.ok (Log_Append l entry).1
           then StatusNS.Corruption2 "Found previous entry with the same id"
                  (LogEntryPB_ShortDebugString existing_entry)
           else (Log_Append l entry).1),
     (set_log_ (Some (Log_Append l entry).2) b,
      set_prev_op_id (entry_id entry) st)).
Proof.
  intros Hv Hl Hp. unfold HandleReplicateMessage, Append, entry_id in *.
  unfold_monad. simpl.
  rewrite (CheckSequentialReplicateId_ok _ _ Hv). simpl. rewrite Hl.
  destruct (Log_Append l entry) as [s l'] eqn:Ha. simpl.
  destruct (StatusNS.ok s) eqn:Hok; simpl; [|done].
  by rewrite Hp.
Qed.

(** ** committed_op_id *)

Lemma lift_fst_state {A} (m : M TabletBootstrap A) (s : Replay) :
  (lift_fst m s).2.2 = s.2.
Proof. unfold lift_fst. by destruct (m s.1). Qed.

Lemma UpdateCommittedOpId_pending (id : OpId) (st : ReplayState) :
  pending_replicates (UpdateCommittedOpId id st) = pending_replicates st.
Proof. by rewrite UpdateCommittedOpId_max. Qed.

(* Whatever HandleCommitMessage returns, it leaves this replay state. *)
Lemma HandleCommitMessage_state (entry : LogEntryPB.t) (s : Replay) :
  (HandleCommitMessage entry s).2.2
  = set_pending_replicates
      (delete (entry_commited_op_id entry) (pending_replicates s.2))
      (UpdateCommittedOpId (entry_commited_op_id entry) s.2).
Proof.
  destruct s as [b st]. unfold HandleCommitMessage, entry_commited_op_id.
  unfold bind, gets, modify, lift_snd. simpl.
  destruct (pending_replicates (UpdateCommittedOpId _ st) !! _);
    rewrite lift_fst_state; simpl; by rewrite UpdateCommittedOpId_pending.
Qed.

Lemma HandleReplicateMessage_committed (entry : LogEntryPB.t) (s : Replay) :
  committed_op_id (HandleReplicateMessage entry s).2.2 = committed_op_id s.2.
Proof.
  destruct s as [b st]. unfold HandleReplicateMessage, Append.
  unfold CheckSequentialReplicateId. unfold_monad. simpl.
  destruct (valid_sequence _ _); simpl; [|done].
  destruct (log_ b) as [l|]; simpl; [|done].
  destruct (Log_Append l entry) as [s l']. simpl.
  destruct (StatusNS.ok s); simpl; [|done].
  by destruct (pending_replicates st !! _).
Qed.

(** C5.  Processing a commit entry, matched or orphan and whatever the
    status returned, leaves committed_op_id at the maximum, in the order by
    term and then index, of its former value and the commit's
    committed_op_id; so it never decreases.  A replicate leaves it as it
    was, and so does every entry HandleEntry does not treat as a commit. *)
Theorem committed_op_id_is_running_maximum
    (entry : LogEntryPB.t) (s : Replay) :
  committed_op_id (HandleCommitMessage entry s).2.2
    = OpId_max (committed_op_id s.2) (entry_commited_op_id entry)
  ∧ OpId_le (committed_op_id s.2)
      (committed_op_id (HandleCommitMessage entry s).2.2)
  ∧ committed_op_id (HandleReplicateMessage entry s).2.2 = committed_op_id s.2
  ∧ committed_op_id (HandleEntry entry s).2.2
    = if is_commit_entry entry
      then OpId_max (committed_op_id s.2) (entry_commited_op_id entry)
      else committed_op_id s.2.
Proof.
  assert (Hc : committed_op_id (HandleCommitMessage entry s).2.2
               = OpId_max (committed_op_id s.2) (entry_commited_op_id entry)).
  { rewrite HandleCommitMessage_state, UpdateCommittedOpId_max. done. }
  split; [done|]. split; [rewrite Hc; apply OpId_le_max_l|].
  split; [apply HandleReplicateMessage_committed|].
  unfold HandleEntry, is_commit_entry.
  destruct (LogEntryPB.type entry); simpl; [|done].
  destruct (OperationPB.has_replicate _); simpl.
  - apply HandleReplicateMessage_committed.
  - destruct (OperationPB.has_commit _); simpl; done.
Qed.

(** ** Out-of-sequence replicates *)

Lemma pretty_Z_1 : pretty 1 = "1".
Proof. by vm_compute. Qed.

Lemma pretty_Z_3 : pretty 3 = "3".
Proof. by vm_compute. Qed.

(** C8, as the code has it.  After a replicate (1,1), a replicate (1,3) is
    refused by HandleReplicateMessage with a Corruption status and nothing
    is changed.  The message is "Unexpected opid following opid term: 1
    index: 1. Operation: 1,3 REPLICATE (Type: <op type>)": the previous id
    follows the word "opid" and is printed in protobuf text format. *)
Theorem out_of_sequence_replicate_is_corruption
    (entry : LogEntryPB.t) (b : TabletBootstrap) (st : ReplayState) :
  prev_op_id st = mkOpId 1 1 →
  entry_id entry = mkOpId 1 3 →
  ∃ s, HandleReplicateMessage entry (b, st) = (Fail s, (b, st))
       ∧ code s = kCorruption
       ∧ message s
         = "Unexpected opid following opid term: 1 index: 1. Operation: 1,3 REPLICATE (Type: "
           +:+ OperationType_Name
                 (ReplicateMsg.op_type
                    (OperationPB.replicate (LogEntryPB.operation entry)))
           +:+ ")"
       ∧ contains "Unexpected opid following opid term: 1 index: 1"
           (message s) = true.
Proof.
  intros Hp Hi. unfold entry_id in Hi.
  unfold HandleReplicateMessage, CheckSequentialReplicateId.
  unfold_monad. simpl. rewrite Hp, Hi. simpl.
  unfold OpId_ShortDebugString. simpl. rewrite pretty_Z_1, pretty_Z_3.
  eexists. split; [reflexivity|]. split; [done|]. split; [reflexivity|].
  apply contains_spec.
  exists "", (". Operation: 1,3 REPLICATE (Type: " +:+
              OperationType_Name
                (ReplicateMsg.op_type
                   (OperationPB.replicate (LogEntryPB.operation entry))) +:+
              ")").
  reflexivity.
Qed.

(** ** Orphan commits *)

Lemma print_segments_readable (seq : list ReadableLogSegment.t)
    (b : TabletBootstrap) :
  Forall (λ seg, StatusNS.ok (ReadableLogSegment.ReadEntries seg).1 = true) seq →
  print_segments seq b = (Ret tt, b).
Proof.
  induction 1 as [|seg seq Hok _ IH]; simpl; [done|].
  destruct (ReadableLogSegment.ReadEntries seg) as [s es]. simpl in Hok.
  unfold_monad. by rewrite Hok.
Qed.

Lemma print_entries_readable (reader : LogReader.t) (b : TabletBootstrap) :
  log_reader_ b = Some reader → log_readable reader →
  print_entries b = (Ret tt, b).
Proof.
  intros Hr [Hs Hall]. unfold print_entries. unfold_monad. rewrite Hr.
  destruct (LogReader.GetSegmentsSnapshot reader) as [s seq]. simpl in *.
  rewrite Hs. by apply print_segments_readable.
Qed.

Lemma print_segments_state (seq : list ReadableLogSegment.t)
    (b : TabletBootstrap) :
  (print_segments seq b).2 = b.
Proof.
  induction seq as [|seg seq IH]; simpl; [done|].
  destruct (ReadableLogSegment.ReadEntries seg) as [st es].
  unfold bind, CHECK_OK. by destruct (StatusNS.ok st).
Qed.

Lemma preserves_unchanged_print_entries (b : TabletBootstrap) :
  (print_entries b).2 = b.
Proof.
  unfold print_entries. unfold bind at 1, deref.
  destruct (log_reader_ b) as [reader|]; [|done].
  destruct (LogReader.GetSegmentsSnapshot reader) as [st seq].
  unfold bind, CHECK_OK. destruct (StatusNS.ok st); [|done].
  apply print_segments_state.
Qed.

Lemma print_segments_unreadable (seq : list ReadableLogSegment.t)
    (b : TabletBootstrap) :
  ¬ Forall (λ seg, StatusNS.ok (ReadableLogSegment.ReadEntries seg).1 = true) seq →
  print_segments seq b = (Crash, b).
Proof.
  induction seq as [|seg seq IH]; intros Hn; [by destruct Hn|]. simpl.
  destruct (ReadableLogSegment.ReadEntries seg) as [st es] eqn:Hread.
  unfold bind, CHECK_OK. destruct (StatusNS.ok st) eqn:Hok; [|done].
  unfold ret. apply IH. intros Hall. apply Hn. constructor; [|done].
  by rewrite Hread.
Qed.

Lemma print_entries_unreadable (reader : LogReader.t) (b : TabletBootstrap) :
  log_reader_ b = Some reader → ¬ log_readable reader →
  print_entries b = (Crash, b).
Proof.
  intros Hr Hn. unfold print_entries, log_readable in *.
  unfold bind at 1, deref. rewrite Hr.
  destruct (LogReader.GetSegmentsSnapshot reader) as [st seq]. simpl in *.
  unfold bind, CHECK_OK. destruct (StatusNS.ok st) eqn:Hok; [|done].
  unfold ret. apply print_segments_unreadable. intros Hall. by apply Hn.
Qed.

(* The orphan check over one list of stores: OK when all are flushed; at
   the first that is not, the dump of the log and then Corruption. *)
Lemma check_mutated_stores_outcome (commit : CommitMsg.t)
    (stores : list MemStoreTargetPB.t) (b : TabletBootstrap) (t : TabletT) :
  tablet_ b = Some t →
  if forallb (WasStoreAlreadyFlushed (Tablet_metadata t)) stores
  then check_mutated_stores commit stores b = (Ret tt, b)
  else ∃ msg, check_mutated_stores commit stores b
              = (print_entries ;;; fail (StatusNS.Corruption msg)) b.
Proof.
  intros Ht. induction stores as [|store stores IH]; [done|].
  assert (Hstep : ∃ msg,
    check_mutated_stores commit (store :: stores) b
    = if WasStoreAlreadyFlushed (Tablet_metadata t) store
      then check_mutated_stores commit stores b
      else (print_entries ;;; fail (StatusNS.Corruption msg)) b).
  { eexists. cbn [check_mutated_stores]. unfold bind at 1, deref. rewrite Ht.
    destruct (WasStoreAlreadyFlushed (Tablet_metadata t) store); simpl; done. }
  destruct Hstep as [msg ->]. cbn [forallb].
  destruct (WasStoreAlreadyFlushed (Tablet_metadata t) store); simpl; eauto.
Qed.

Lemma check_orphan_commit_outcome (commit : CommitMsg.t)
    (ops : list OperationResultPB.t) (b : TabletBootstrap) (t : TabletT) :
  tablet_ b = Some t →
  if forallb (WasStoreAlreadyFlushed (Tablet_metadata t))
       (concat (OperationResultPB.mutated_stores <$> ops))
  then check_orphan_commit commit ops b = (Ret tt, b)
  else ∃ msg, check_orphan_commit commit ops b
              = (print_entries ;;; fail (StatusNS.Corruption msg)) b.
Proof.
  intros Ht. induction ops as [|op ops IH]; [done|].
  pose proof (check_mutated_stores_outcome commit
                (OperationResultPB.mutated_stores op) b t Ht) as Hm.
  assert (Hstep :
    check_orphan_commit commit (op :: ops) b
    = match check_mutated_stores commit (OperationResultPB.mutated_stores op) b with
      | (Ret _, b1) => check_orphan_commit commit ops b1
      | (Fail e, b1) => (Fail e, b1)
      | (Crash, b1) => (Crash, b1)
      end) by reflexivity.
  rewrite Hstep. rewrite fmap_cons. cbn [concat]. rewrite forallb_app.
  destruct (forallb _ (OperationResultPB.mutated_stores op)); simpl.
  - rewrite Hm. exact IH.
  - destruct Hm as [msg ->]. exists msg. unfold bind, fail.
    by destruct (print_entries b) as [[u|e|] b1].
Qed.

Lemma forallb_false_exists {A} (f : A → bool) (l : list A) :
  forallb f l = false ↔ ∃ x, x ∈ l ∧ f x = false.
Proof.
  induction l as [|a l IH]; simpl.
  - split; [done|]. intros (x & Hx & _). by apply elem_of_nil in Hx.
  - rewrite andb_false_iff, IH. split.
    + intros [Ha|(x & Hx & Hf)]; [exists a | exists x]; split; try done;
        [by left | by right].
    + intros (x & [->|Hx]%elem_of_cons & Hf); [by left|]. right. eauto.
Qed.

(** X24.  Take a commit whose committed_op_id matches no pending
    replicate, handled while the tablet is open.  When every mutated store
    of the commit's result is already flushed, the handling returns OK and
    the commit is dropped.  It returns a Corruption status only if some
    store is not flushed; when some store is not flushed, it returns
    Corruption if the log reader reads its segments again with status OK
    for the dump of the log, and the failed CHECK_OK of the dump ends the
    process if it does not.  In every case the bootstrap object is as it
    was and only committed_op_id is brought up to date. *)
Theorem orphan_commit_outcomes
    (entry : LogEntryPB.t) (b : TabletBootstrap) (st : ReplayState)
    (t : TabletT) :
  tablet_ b = Some t →
  pending_replicates st !! entry_commited_op_id entry = None →
  let stores :=
    commit_mutated_stores (OperationPB.commit (LogEntryPB.operation entry)) in
  let flushed := WasStoreAlreadyFlushed (Tablet_metadata t) in
  let run := HandleCommitMessage entry (b, st) in
  run.2 = (b, UpdateCommittedOpId (entry_commited_op_id entry) st)
  ∧ ((∀ store, store ∈ stores → flushed store = true) → run.1 = Ret tt)
  ∧ ((∃ msg, run.1 = Fail (StatusNS.Corruption msg)) →
     ∃ store, store ∈ stores ∧ flushed store = false)
  ∧ ((∃ store, store ∈ stores ∧ flushed store = false) →
     ∀ reader, log_reader_ b = Some reader →
       (log_readable reader → ∃ msg, run.1 = Fail (StatusNS.Corruption msg))
       ∧ (¬ log_readable reader → run.1 = Crash)).
Proof.
  intros Ht Hp stores flushed run.
  assert (Hrun : run
                 = let r := check_orphan_commit
                              (OperationPB.commit (LogEntryPB.operation entry))
                              (TxResultPB.ops (CommitMsg.result
                                 (OperationPB.commit (LogEntryPB.operation entry)))) b in
                   (r.1, (r.2, UpdateCommittedOpId (entry_commited_op_id entry) st))).
  { subst run. unfold HandleCommitMessage, entry_commited_op_id in *.
    unfold bind, gets, modify, lift_snd, lift_fst. simpl.
    rewrite UpdateCommittedOpId_pending, Hp. simpl.
    rewrite delete_id by done.
    destruct (check_orphan_commit _ _ b) as [r b']. simpl.
    do 2 f_equal. unfold set_pending_replicates.
    rewrite <- (UpdateCommittedOpId_pending
                  (CommitMsg.commited_op_id
                     (OperationPB.commit (LogEntryPB.operation entry))) st).
    by destruct (UpdateCommittedOpId _ st). }
  pose proof (check_orphan_commit_outcome
                (OperationPB.commit (LogEntryPB.operation entry))
                (TxResultPB.ops (CommitMsg.result
                   (OperationPB.commit (LogEntryPB.operation entry))))
                b t Ht) as Hc.
  fold (commit_mutated_stores (OperationPB.commit (LogEntryPB.operation entry))) in Hc.
  fold stores in Hc. fold flushed in Hc.
  rewrite Hrun. clear Hrun run. cbv zeta.
  destruct (forallb flushed stores) eqn:Hall.
  - rewrite Hc. cbn [fst snd]. split; [done|]. split; [done|].
    rewrite forallb_forall in Hall.
    assert (∀ store, store ∈ stores → flushed store = false → False) as Hno.
    { intros store Hin%list_elem_of_In Hf. rewrite (Hall store Hin) in Hf. done. }
    split; [by intros [msg Hm]|].
    intros (store & Hin & Hf). by destruct (Hno store Hin Hf).
  - destruct Hc as [msg ->].
    pose proof (proj1 (forallb_false_exists flushed stores) Hall) as Hex.
    assert ((print_entries b).2 = b) as Hsame.
    { apply (preserves_unchanged_print_entries b). }
    unfold bind, fail.
    destruct (print_entries b) as [[u|e|] b1] eqn:Hprint; simpl in Hsame;
      subst b1; cbn [fst snd].
    + split; [done|]. split.
      { intros Hflushed. destruct Hex as (x & Hx & Hf).
        by rewrite (Hflushed x Hx) in Hf. }
      split; [done|]. intros _ reader Hr. split; [by eauto|].
      intros Hn. by rewrite (print_entries_unreadable reader b Hr Hn) in Hprint.
    + split; [done|]. split.
      { intros Hflushed. destruct Hex as (x & Hx & Hf).
        by rewrite (Hflushed x Hx) in Hf. }
      split; [done|]. intros _ reader Hr. split.
      * intros Hread. by rewrite (print_entries_readable reader b Hr Hread) in Hprint.
      * intros Hn. by rewrite (print_entries_unreadable reader b Hr Hn) in Hprint.
    + split; [done|]. split.
      { intros Hflushed. destruct Hex as (x & Hx & Hf).
        by rewrite (Hflushed x Hx) in Hf. }
      split; [by intros [? ?]|]. intros _ reader Hr. split; [|done].
      intros Hread. by rewrite (print_entries_readable reader b Hr Hread) in Hprint.
Qed.

(** ** Row-sets without a log *)

Lemma keeps_log_ret {A} (a : A) : keeps_log (ret a).
Proof. done. Qed.

Lemma keeps_log_fail {A} (e : Status) : keeps_log (@fail _ A e).
Proof. done. Qed.

Lemma keeps_log_crash {A} : keeps_log (@crash _ A).
Proof. done. Qed.

Lemma keeps_log_get : keeps_log get.
Proof. done. Qed.

Lemma keeps_log_gets {A} (f : TabletBootstrap → A) : keeps_log (gets f).
Proof. done. Qed.

Lemma keeps_log_deref {A} (p : TabletBootstrap → option A) : keeps_log (deref p).
Proof. intros b. unfold deref. by destruct (p b). Qed.

Lemma keeps_log_modify (f : TabletBootstrap → TabletBootstrap) :
  (∀ b, log_ (f b) = log_ b) → keeps_log (modify f).
Proof. intros Hf b. apply Hf. Qed.

Lemma keeps_log_bind {A B} (m : M TabletBootstrap A) (k : A → M TabletBootstrap B) :
  keeps_log m → (∀ a, keeps_log (k a)) → keeps_log (bind m k).
Proof.
  intros Hm Hk b. unfold bind. specialize (Hm b).
  destruct (m b) as [[a|e|] b1]; simpl in *; [|done|done].
  by rewrite Hk.
Qed.

Lemma keeps_log_RETURN_NOT_OK (s : Status) : keeps_log (RETURN_NOT_OK s).
Proof. unfold RETURN_NOT_OK. by destruct (StatusNS.ok s). Qed.

Lemma keeps_log_PREPEND {A} (m : M TabletBootstrap A) (msg : string) :
  keeps_log m → keeps_log (RETURN_NOT_OK_PREPEND m msg).
Proof.
  intros Hm b. unfold RETURN_NOT_OK_PREPEND. specialize (Hm b).
  by destruct (m b) as [[a|e|] b1].
Qed.

Ltac keeps_log_step :=
  first
    [ apply keeps_log_ret | apply keeps_log_fail | apply keeps_log_crash
    | apply keeps_log_get | apply keeps_log_gets | apply keeps_log_deref
    | apply keeps_log_RETURN_NOT_OK
    | apply keeps_log_PREPEND
    | apply keeps_log_modify; by intros []
    | apply keeps_log_bind; [|intros ?]
    | match goal with
      | |- keeps_log (let '(_, _) := ?x in _) => destruct x
      | |- keeps_log (if ?c then _ else _) => destruct c
      end ].

Lemma keeps_log_on_fs (f : FsT → Status * FsT) : keeps_log (on_fs f).
Proof. unfold on_fs. repeat keeps_log_step. Qed.

Lemma keeps_log_delete_old_log_files (log_dir : string) (children : list string) :
  keeps_log (delete_old_log_files log_dir children).
Proof.
  induction children as [|child rest IH]; simpl; [apply keeps_log_ret|].
  apply keeps_log_bind; [|by intros ?].
  destruct (negb (IsLogFileName child)); [apply keeps_log_ret | apply keeps_log_on_fs].
Qed.

Lemma keeps_log_PrepareRecoveryDir : keeps_log PrepareRecoveryDir.
Proof.
  unfold PrepareRecoveryDir.
  repeat first [ apply keeps_log_on_fs | apply keeps_log_delete_old_log_files
               | keeps_log_step ].
Qed.

Lemma keeps_log_FetchLogSegments : keeps_log FetchLogSegments.
Proof.
  unfold FetchLogSegments.
  repeat first [ apply keeps_log_PrepareRecoveryDir | keeps_log_step ].
Qed.

Lemma keeps_log_FetchBlocksAndOpenTablet : keeps_log FetchBlocksAndOpenTablet.
Proof. unfold FetchBlocksAndOpenTablet. repeat keeps_log_step. Qed.

Lemma keeps_log_Bootstrap_fetch (tablet_id : string) :
  keeps_log (Bootstrap_fetch tablet_id).
Proof.
  unfold Bootstrap_fetch, StatusMessage.
  repeat first [ apply keeps_log_FetchLogSegments
               | apply keeps_log_FetchBlocksAndOpenTablet
               | keeps_log_step ].
Qed.

(** C7.  When the tablet that was opened has row-sets (fetched_blocks is
    true) and the preparation of the recovery directory finds nothing to
    recover (needs_recovery is false), Bootstrap returns IllegalState.  The
    bootstrap object is left as the fetch of blocks and segments left it:
    no new log was opened and no segment was played. *)
Theorem Bootstrap_rowsets_without_log_is_illegal
    (info : ConsensusBootstrapInfo.t) (b b' : TabletBootstrap) :
  Bootstrap_fetch (TabletMetadata.oid (meta_ b)) b = (Ret (true, false), b') →
  Bootstrap info b
  = (Fail (StatusNS.IllegalState
             ("Tablet: " +:+ TabletMetadata.oid (meta_ b) +:+
              " had rowsets but no log segments could be found.")),
     b')
  ∧ log_ b' = log_ b.
Proof.
  intros Hf. split.
  - unfold Bootstrap. unfold bind at 1, get at 1. unfold bind. rewrite Hf. done.
  - pose proof (keeps_log_Bootstrap_fetch (TabletMetadata.oid (meta_ b)) b) as Hk.
    by rewrite Hf in Hk.
Qed.

(** ** The result of the replay *)

Lemma HandleReplicateMessage_Ret (e : LogEntryPB.t) (b b' : TabletBootstrap)
    (st st' : ReplayState) (u : unit) :
  HandleReplicateMessage e (b, st) = (Ret u, (b', st')) →
  may_follow (prev_op_id st) (entry_id e)
  ∧ pending_replicates st !! entry_id e = None
  ∧ st' = mkReplayState (entry_id e) (committed_op_id st)
            (<[entry_id e := e]> (pending_replicates st)).
Proof.
  unfold HandleReplicateMessage, Append, CheckSequentialReplicateId, entry_id.
  unfold_monad. simpl.
  destruct (valid_sequence _ _) eqn:Hv; simpl; [|done].
  apply valid_sequence_spec in Hv.
  destruct (log_ b) as [l|]; simpl; [|done].
  destruct (Log_Append l e) as [s l']. simpl.
  destruct (StatusNS.ok s); simpl; [|done].
  destruct (pending_replicates st !! _) eqn:Hp; simpl; [done|].
  intros [= <- <-]. done.
Qed.

Lemma HandleCommitMessage_Ret (e : LogEntryPB.t) (b b' : TabletBootstrap)
    (st st' : ReplayState) (u : unit) :
  HandleCommitMessage e (b, st) = (Ret u, (b', st')) →
  st' = mkReplayState (prev_op_id st)
          (OpId_max (committed_op_id st) (entry_commited_op_id e))
          (delete (entry_commited_op_id e) (pending_replicates st)).
Proof.
  intros Hr. pose proof (HandleCommitMessage_state e (b, st)) as Hs.
  rewrite Hr in Hs. simpl in Hs. rewrite Hs, UpdateCommittedOpId_max. done.
Qed.

(* An entry that HandleEntry takes with status OK moves the replay state
   as the state machine of section 4.4 says. *)
Lemma HandleEntry_Ret (e : LogEntryPB.t) (b b' : TabletBootstrap)
    (st st' : ReplayState) (u : unit) :
  HandleEntry e (b, st) = (Ret u, (b', st')) → accepts st e st'.
Proof.
  unfold HandleEntry.
  destruct (LogEntryPB.type e) eqn:Ht; [|done].
  destruct (OperationPB.has_replicate (LogEntryPB.operation e)) eqn:Hr.
  - intros (Hv & Hp & ->)%HandleReplicateMessage_Ret.
    apply accepts_replicate; [|done|done].
    unfold is_replicate_entry. by rewrite Ht, Hr.
  - destruct (OperationPB.has_commit (LogEntryPB.operation e)) eqn:Hc.
    + intros ->%HandleCommitMessage_Ret. apply accepts_commit.
      unfold is_commit_entry. by rewrite Ht, Hr, Hc.
    + intros [= ? ?]; subst. apply accepts_other; [done| |].
      * unfold is_replicate_entry. by rewrite Hr, andb_false_r.
      * unfold is_commit_entry. by rewrite Hc, andb_false_r.
Qed.

Lemma play_entries_Ret (seg : ReadableLogSegment.t) (es : list LogEntryPB.t)
    (idx : Z) (b b' : TabletBootstrap) (st st' : ReplayState) (u : unit) :
  play_entries seg idx es (b, st) = (Ret u, (b', st')) → accepts_all st es st'.
Proof.
  revert idx b st. induction es as [|e es IH]; intros idx b st; simpl.
  - intros [= ? ?]; subst. constructor.
  - unfold bind at 1.
    destruct (HandleEntry e (b, st)) as [[u1|err|] [b1 st1]] eqn:He; simpl;
      [ | by destruct (tablet_ b1) | done].
    intros Hrest. econstructor; [by eapply HandleEntry_Ret | by eapply IH].
Qed.

Lemma accepts_all_app (st st' st'' : ReplayState) (es es' : list LogEntryPB.t) :
  accepts_all st es st' → accepts_all st' es' st'' →
  accepts_all st (es ++ es') st''.
Proof.
  induction 1; simpl; [done|]. intros. econstructor; eauto.
Qed.

Lemma play_segments_Ret (segments : list ReadableLogSegment.t) (n : Z)
    (b b' : TabletBootstrap) (st st' : ReplayState) (u : unit) :
  play_segments segments n (b, st) = (Ret u, (b', st')) →
  accepts_all st (all_entries segments) st'.
Proof.
  revert n b st. induction segments as [|seg segments IH]; intros n b st.
  - simpl. intros [= ? ?]; subst. constructor.
  - unfold all_entries. rewrite fmap_cons. cbn [concat play_segments].
    destruct (ReadableLogSegment.ReadEntries seg) as [read_status es]. simpl.
    unfold bind at 1.
    destruct (play_entries seg 0 es (b, st)) as [[u1|err|] [b1 st1]] eqn:Hes;
      [|done|done].
    apply play_entries_Ret in Hes.
    unfold bind at 1.
    destruct (negb (StatusNS.ok read_status)).
    { unfold bind, lift_fst, deref, fail. simpl.
      by destruct (tablet_ b1). }
    unfold ret at 1. unfold bind at 1. unfold lift_fst at 1, deref. simpl.
    destruct (log_reader_ b1) as [reader|]; [|done]. simpl.
    unfold bind at 1, lift_fst at 1, StatusMessage, modify. simpl.
    intros Hrest%IH. by eapply accepts_all_app.
Qed.

Lemma accepts_all_snoc_inv (st st'' : ReplayState) (es : list LogEntryPB.t)
    (e : LogEntryPB.t) :
  accepts_all st (es ++ [e]) st'' →
  ∃ st', accepts_all st es st' ∧ accepts st' e st''.
Proof.
  revert st. induction es as [|x es IH]; intros st Ha; simpl in Ha.
  - inversion Ha as [|? ? st1 ? ? Hx Hnil]; subst. inversion Hnil; subst.
    exists st. split; [constructor | done].
  - inversion Ha as [|? ? st1 ? ? Hx Hrest]; subst.
    destruct (IH _ Hrest) as (st' & H1 & H2).
    exists st'. split; [econstructor; eauto | done].
Qed.

(* prev_op_id is the id of the last replicate accepted. *)
Lemma accepts_all_prev_op_id (st st' : ReplayState) (es : list LogEntryPB.t) :
  accepts_all st es st' →
  prev_op_id st' = last_replicate_id (prev_op_id st) es.
Proof.
  unfold last_replicate_id.
  induction 1 as [|st e st1 es st2 Hstep _ IH]; simpl; [done|].
  rewrite IH. f_equal.
  destruct Hstep as [st e Hr _ _|st e Hc|st e _ Hr _]; simpl.
  - by rewrite Hr.
  - unfold is_commit_entry in Hc. unfold is_replicate_entry.
    destruct (bool_decide _), (OperationPB.has_replicate _); done.
  - by rewrite Hr.
Qed.

(* committed_op_id is the maximum over the commits seen. *)
Lemma accepts_all_committed_op_id (st st' : ReplayState) (es : list LogEntryPB.t) :
  accepts_all st es st' →
  committed_op_id st' = max_commited_op_id (committed_op_id st) es.
Proof.
  unfold max_commited_op_id.
  induction 1 as [|st e st1 es st2 Hstep _ IH]; simpl; [done|].
  rewrite IH. f_equal.
  destruct Hstep as [st e Hr _ _|st e Hc|st e _ _ Hc]; simpl.
  - unfold is_commit_entry. unfold is_replicate_entry in Hr.
    destruct (bool_decide _), (OperationPB.has_replicate _); done.
  - by rewrite Hc.
  - by rewrite Hc.
Qed.

Lemma replicate_is_no_commit (e : LogEntryPB.t) :
  is_replicate_entry e = true → is_commit_entry e = false.
Proof.
  unfold is_replicate_entry, is_commit_entry.
  destruct (bool_decide _), (OperationPB.has_replicate _); done.
Qed.

Lemma never_matched_lt (es : list LogEntryPB.t) (i : nat) (e : LogEntryPB.t) :
  never_matched es i e → (i < length es)%nat.
Proof. intros [Hl _]. by eapply lookup_lt_Some. Qed.

(* A replicate of the stream stays unmatched when an entry is added
   exactly when that entry is no commit of its id. *)
Lemma never_matched_snoc_old (es : list LogEntryPB.t) (x : LogEntryPB.t)
    (i : nat) (e : LogEntryPB.t) :
  (i < length es)%nat →
  never_matched (es ++ [x]) i e
  ↔ never_matched es i e
    ∧ (is_commit_entry x = true → entry_commited_op_id x ≠ entry_id e).
Proof.
  intros Hi. unfold never_matched. rewrite lookup_app_l by done. split.
  - intros (Hl & Hr & Hlater). repeat split; [done|done| |].
    + intros j c Hj Hc. apply (Hlater j c Hj).
      rewrite lookup_app_l; [done|]. by eapply lookup_lt_Some.
    + intros Hx. apply (Hlater (length es) x Hi); [|done].
      rewrite lookup_app_r by done. by rewrite Nat.sub_diag.
  - intros ((Hl & Hr & Hlater) & Hx). repeat split; [done|done|].
    intros j c Hj Hc Hcc.
    destruct (decide (j < length es)%nat) as [Hlt|Hge].
    + rewrite lookup_app_l in Hc by done. by eapply Hlater.
    + rewrite lookup_app_r in Hc by lia.
      destruct (j - length es)%nat eqn:Hd; simpl in Hc; [|done].
      injection Hc as <-. by apply Hx.
Qed.

(* The entry just added is unmatched exactly when it is a replicate. *)
Lemma never_matched_snoc_new (es : list LogEntryPB.t) (x e : LogEntryPB.t) :
  never_matched (es ++ [x]) (length es) e
  ↔ e = x ∧ is_replicate_entry x = true.
Proof.
  unfold never_matched. rewrite lookup_app_r by done. rewrite Nat.sub_diag.
  simpl. split.
  - intros ([= <-] & Hr & _). done.
  - intros [-> Hr]. repeat split; [done|].
    intros j c Hj Hc. apply lookup_lt_Some in Hc.
    rewrite length_app in Hc. simpl in Hc. lia.
Qed.

(* The pending replicates are the replicates of the stream that no later
   commit refers to, each under its id. *)
Lemma accepts_all_pending (es : list LogEntryPB.t) (st : ReplayState) :
  accepts_all ReplayState_new es st →
  ∀ k e, pending_replicates st !! k = Some e
         ↔ entry_id e = k ∧ ∃ i, never_matched es i e.
Proof.
  revert st. induction es as [|x es IH] using rev_ind; intros st Ha k e.
  - inversion Ha; subst. simpl. rewrite lookup_empty. split; [done|].
    intros [_ [i [Hl _]]]. done.
  - apply accepts_all_snoc_inv in Ha as (st' & Ha & Hstep).
    specialize (IH st' Ha).
    assert (Hsplit : (∃ i, never_matched (es ++ [x]) i e)
              ↔ (e = x ∧ is_replicate_entry x = true)
                ∨ ((∃ i, never_matched es i e)
                   ∧ (is_commit_entry x = true →
                      entry_commited_op_id x ≠ entry_id e))).
    { split.
      - intros [i Hn]. pose proof (never_matched_lt _ _ _ Hn) as Hi.
        rewrite length_app in Hi. simpl in Hi.
        destruct (decide (i = length es)) as [->|Hne].
        + left. by apply never_matched_snoc_new in Hn.
        + right. apply never_matched_snoc_old in Hn as [Hn Hx]; [|lia]. eauto.
      - intros [Hnew|[[i Hn] Hx]].
        + exists (length es). by apply (never_matched_snoc_new es x e).
        + exists i. apply never_matched_snoc_old; [|done].
          by eapply never_matched_lt. }
    rewrite Hsplit. clear Hsplit.
    destruct Hstep as [st' x Hr Hv Hp|st' x Hc|st' x Ht Hr Hc]; simpl.
    + (* a replicate: inserted under its id, which was free *)
      pose proof (replicate_is_no_commit x Hr) as Hnc.
      destruct (decide (entry_id x = k)) as [<-|Hne].
      * rewrite lookup_insert_eq. split.
        -- intros [= <-]. split; [done|]. by left.
        -- intros [Hid [[-> _]|[Hold _]]]; [done|].
           assert (pending_replicates st' !! entry_id x = Some e) as Hin
             by (by apply IH).
           congruence.
      * rewrite lookup_insert_ne by done. rewrite IH. split.
        -- intros [Hid Hold]. split; [done|]. right. split; [done|].
           intros Hcx. congruence.
        -- intros [Hid [[-> _]|[Hold _]]]; [done|done].
    + (* a commit: the replicate it refers to leaves *)
      pose proof Hc as Hnr. unfold is_commit_entry in Hnr.
      assert (is_replicate_entry x = false) as Hxr.
      { unfold is_replicate_entry.
        destruct (bool_decide _), (OperationPB.has_replicate _); done. }
      destruct (decide (entry_commited_op_id x = k)) as [<-|Hne].
      * rewrite lookup_delete_eq. split; [done|].
        intros [Hid [[-> Hr]|[_ Hx]]]; [congruence|].
        exfalso. by apply Hx.
      * rewrite lookup_delete_ne by done. rewrite IH. split.
        -- intros [Hid Hold]. split; [done|]. right. split; [done|].
           intros _. congruence.
        -- intros [Hid [[-> Hr]|[Hold _]]]; [congruence|done].
    + (* neither: nothing moves *)
      rewrite IH. split.
      * intros [Hid Hold]. split; [done|]. right. split; [done|].
        intros Hcx. congruence.
      * intros [Hid [[-> Hr']|[Hold _]]]; [congruence|done].
Qed.

Lemma OpenNewLog_log_reader (b b' : TabletBootstrap) (r : Outcome unit) :
  OpenNewLog b = (r, b') → log_reader_ b' = log_reader_ b.
Proof.
  unfold OpenNewLog. unfold_monad.
  destruct (tablet_ b) as [t|]; [|by intros [= _ <-]].
  destruct (Log_Open (fs_manager b) (Tablet_tablet_id t)) as [[s l] fs'].
  simpl. destruct (StatusNS.ok s); simpl; [|by intros [= _ <-]].
  destruct l; simpl; by intros [= _ <-].
Qed.

(** C4.  When PlaySegments succeeds, on a result structure that came with
    no orphaned replicates, the result has: last_id equal to the final
    prev_op_id (the id of the last replicate of the stream) ;
    last_committed_id equal to the final committed_op_id (the maximum over
    the commits of the stream) ; and as orphaned_replicates exactly the
    operations of the entries left in pending_replicates, each once and in
    the order in which the hash map is iterated: a permutation of the
    operations of the pending entries.  They are the replicates of the
    stream that no later commit refers to.  The stream is made of the
    entries of all segments in order, and the final state is the one the
    state machine reaches on it from the initial state. *)
Theorem PlaySegments_result
    (info0 info : ConsensusBootstrapInfo.t) (b b' : TabletBootstrap)
    (reader : LogReader.t) :
  ConsensusBootstrapInfo.orphaned_replicates info0 = [] →
  log_reader_ b = Some reader →
  PlaySegments info0 b = (Ret info, b') →
  let stream := all_entries (LogReader.GetSegmentsSnapshot reader).2 in
  ∃ st : ReplayState,
    accepts_all ReplayState_new stream st
    ∧ ConsensusBootstrapInfo.last_id info = prev_op_id st
    ∧ ConsensusBootstrapInfo.last_id info = last_replicate_id MinimumOpId stream
    ∧ ConsensusBootstrapInfo.last_committed_id info = committed_op_id st
    ∧ ConsensusBootstrapInfo.last_committed_id info
      = max_commited_op_id MinimumOpId stream
    ∧ ConsensusBootstrapInfo.orphaned_replicates info
      ≡ₚ pending_operations (pending_replicates st)
    ∧ (∀ op, op ∈ ConsensusBootstrapInfo.orphaned_replicates info
             ↔ ∃ i e, never_matched stream i e ∧ LogEntryPB.operation e = op).
Proof.
  intros Hempty Hreader Hplay stream.
  unfold PlaySegments in Hplay.
  unfold bind at 1 in Hplay. unfold RETURN_NOT_OK_PREPEND in Hplay.
  destruct (OpenNewLog b) as [[u|err|] b1] eqn:Hopen; [|done|done].
  apply OpenNewLog_log_reader in Hopen. rewrite Hreader in Hopen.
  unfold bind at 1, deref at 1 in Hplay. rewrite Hopen in Hplay.
  subst stream.
  destruct (LogReader.GetSegmentsSnapshot reader) as [s segments]. simpl.
  unfold bind at 1, RETURN_NOT_OK in Hplay.
  destruct (StatusNS.ok s); [|done].
  unfold ret at 1 in Hplay. unfold bind, with_local in Hplay.
  destruct (play_segments segments 0 (b1, ReplayState_new))
    as [[u1|err|] [b2 st]] eqn:Hseg; [|done|done].
  apply play_segments_Ret in Hseg.
  unfold ret in Hplay. injection Hplay as <- <-. simpl.
  rewrite Hempty. simpl.
  exists st. split; [done|]. split; [done|].
  split; [apply (accepts_all_prev_op_id _ _ _ Hseg)|]. split; [done|].
  split; [apply (accepts_all_committed_op_id _ _ _ Hseg)|].
  assert (release_operations (pending_replicates st)
          ≡ₚ pending_operations (pending_replicates st)) as Hperm.
  { unfold release_operations, pending_operations.
    apply fmap_Permutation, OpToEntryMap_iterate_perm. }
  split; [done|].
  intros op. rewrite Hperm. unfold pending_operations.
  rewrite list_elem_of_fmap. split.
  - intros ([k e] & -> & Hin). apply elem_of_map_to_list in Hin.
    apply (accepts_all_pending _ _ Hseg) in Hin as [_ [i Hn]]. eauto.
  - intros (i & e & Hn & <-). exists (entry_id e, e). split; [done|].
    apply elem_of_map_to_list. apply (accepts_all_pending _ _ Hseg). eauto.
Qed.

End Properties.

(** * Further properties *)

Section MoreProperties.
Context `{Collaborators}.

Ltac unfold_monad :=
  unfold bind, ret, fail, crash, get, gets, modify, deref, lift_fst, lift_snd,
    with_local, RETURN_NOT_OK, RETURN_NOT_OK_PREPEND, CHECK_OK in *.

(** ** What a successful replay says about the log *)

Lemma OpId_le_trans (a b c : OpId) : OpId_le a b → OpId_le b c → OpId_le a c.
Proof. unfold OpId_le. lia. Qed.

Lemma may_follow_le (prev new : OpId) :
  may_follow prev new → nonneg new → OpId_le prev new.
Proof.
  unfold may_follow, nonneg, OpId_le, int64_add1, INT64_MIN.
  intros [-> | Hf] Hn; simpl; [lia|].
  destruct (index prev =? INT64_MAX); lia.
Qed.

Lemma may_follow_strict (prev new : OpId) :
  may_follow prev new → nonneg new → prev ≠ mkOpId 0 0 → ¬ OpId_le new prev.
Proof.
  unfold may_follow, nonneg, OpId_le, int64_add1, INT64_MIN.
  intros [-> | Hf] Hn Hne; [done|].
  destruct (index prev =? INT64_MAX); lia.
Qed.

Lemma play_segments_Ret_read_ok (segments : list ReadableLogSegment.t) (n : Z)
    (s s' : Replay) (u : unit) :
  play_segments segments n s = (Ret u, s') →
  Forall (λ seg, StatusNS.ok (ReadableLogSegment.ReadEntries seg).1 = true)
    segments.
Proof.
  revert n s. induction segments as [|seg segments IH]; intros n s; [constructor|].
  cbn [play_segments].
  destruct (ReadableLogSegment.ReadEntries seg) as [read_status es] eqn:Hread.
  unfold bind at 1.
  destruct (play_entries seg 0 es s) as [[u1|err|] s1]; [|done|done].
  unfold bind at 1.
  destruct (StatusNS.ok read_status) eqn:Hok; simpl.
  - unfold bind at 1. unfold lift_fst at 1, deref.
    destruct (log_reader_ s1.1) as [reader|]; [|done]. simpl.
    unfold bind at 1, lift_fst at 1, StatusMessage, modify. simpl.
    intros Hrest%IH. constructor; [by rewrite Hread|done].
  - unfold bind, lift_fst, deref, fail. by destruct (tablet_ s1.1).
Qed.

(* What PlaySegments has done when it returns OK. *)
Lemma PlaySegments_Ret (info0 info : ConsensusBootstrapInfo.t)
    (b b' : TabletBootstrap) (reader : LogReader.t) :
  log_reader_ b = Some reader →
  PlaySegments info0 b = (Ret info, b') →
  ∃ st : ReplayState,
    accepts_all ReplayState_new
      (all_entries (LogReader.GetSegmentsSnapshot reader).2) st
    ∧ info = ConsensusBootstrapInfo.mk (prev_op_id st) (committed_op_id st)
               (ConsensusBootstrapInfo.orphaned_replicates info0
                ++ release_operations (pending_replicates st))
    ∧ StatusNS.ok (LogReader.GetSegmentsSnapshot reader).1 = true
    ∧ Forall (λ seg, StatusNS.ok (ReadableLogSegment.ReadEntries seg).1 = true)
        (LogReader.GetSegmentsSnapshot reader).2.
Proof.
  intros Hreader Hplay. unfold PlaySegments in Hplay.
  unfold bind at 1 in Hplay. unfold RETURN_NOT_OK_PREPEND in Hplay.
  destruct (OpenNewLog b) as [[u|err|] b1] eqn:Hopen; [|done|done].
  apply OpenNewLog_log_reader in Hopen. rewrite Hreader in Hopen.
  unfold bind at 1, deref at 1 in Hplay. rewrite Hopen in Hplay.
  destruct (LogReader.GetSegmentsSnapshot reader) as [s segments]. simpl.
  unfold bind at 1, RETURN_NOT_OK in Hplay.
  destruct (StatusNS.ok s); [|done].
  unfold ret at 1 in Hplay. unfold bind, with_local in Hplay.
  destruct (play_segments segments 0 (b1, ReplayState_new))
    as [[u1|err|] [b2 st]] eqn:Hseg; [|done|done].
  pose proof (play_segments_Ret_read_ok _ _ _ _ _ Hseg) as Hok.
  apply play_segments_Ret in Hseg.
  unfold ret in Hplay. injection Hplay as <- <-. simpl. eauto.
Qed.

Lemma accepts_all_in_sequence (st st' : ReplayState) (es : list LogEntryPB.t) :
  accepts_all st es st' → in_sequence (prev_op_id st) (replicate_ids es).
Proof.
  unfold replicate_ids.
  induction 1 as [|st e st1 es st2 Hstep _ IH]; [done|].
  destruct Hstep as [st e Hr Hv _|st e Hc|st e _ Hr _]; simpl in *.
  - rewrite filter_cons_True by done. simpl. done.
  - assert (is_replicate_entry e = false) as Hr.
    { unfold is_commit_entry in Hc. unfold is_replicate_entry.
      destruct (bool_decide _), (OperationPB.has_replicate _); done. }
    rewrite filter_cons_False by (by rewrite Hr). done.
  - rewrite filter_cons_False by (by rewrite Hr). done.
Qed.

(** X1.  When PlaySegments returns OK, the ids of the replicates of the
    log, in log order, form a sequence: the first may be any id, and each
    next one has the term of the one before and the next index, or a higher
    term (or follows an id (0,0)).  The next index is the index plus one in
    64-bit arithmetic: INT64_MIN after INT64_MAX. *)
Theorem replayed_replicates_are_in_sequence
    (info0 info : ConsensusBootstrapInfo.t) (b b' : TabletBootstrap)
    (reader : LogReader.t) :
  log_reader_ b = Some reader →
  PlaySegments info0 b = (Ret info, b') →
  in_sequence MinimumOpId
    (replicate_ids (all_entries (LogReader.GetSegmentsSnapshot reader).2)).
Proof.
  intros Hr Hp. destruct (PlaySegments_Ret _ _ _ _ _ Hr Hp) as (st & Ha & _).
  apply (accepts_all_in_sequence _ _ _ Ha).
Qed.

(* With ids that are not negative, prev_op_id only grows and stays above
   the id of every replicate accepted. *)
Lemma accepts_all_prev_dominates (st st' : ReplayState) (es : list LogEntryPB.t) :
  accepts_all st es st' →
  nonneg (prev_op_id st) →
  (∀ e, e ∈ es → is_replicate_entry e = true → nonneg (entry_id e)) →
  nonneg (prev_op_id st')
  ∧ OpId_le (prev_op_id st) (prev_op_id st')
  ∧ ∀ e, e ∈ es → is_replicate_entry e = true →
         OpId_le (entry_id e) (prev_op_id st').
Proof.
  induction 1 as [st|st e st1 es st2 Hstep _ IH]; intros Hn0 Hnn.
  - split; [done|]. split; [apply OpId_le_refl|]. intros e He. by apply elem_of_nil in He.
  - assert (nonneg (prev_op_id st1) ∧ OpId_le (prev_op_id st) (prev_op_id st1)
            ∧ (is_replicate_entry e = true → prev_op_id st1 = entry_id e))
      as (Hn1 & Hle1 & Hid1).
    { destruct Hstep as [st e Hr Hv _|st e Hc|st e _ Hr _]; simpl.
      - assert (nonneg (entry_id e)) by (apply Hnn; [left|done]).
        split; [done|]. split; [by apply may_follow_le|done].
      - split; [done|]. split; [apply OpId_le_refl|].
        unfold is_commit_entry in Hc. unfold is_replicate_entry.
        destruct (bool_decide _), (OperationPB.has_replicate _); done.
      - split; [done|]. split; [apply OpId_le_refl|]. congruence. }
    destruct (IH Hn1) as (Hn2 & Hle2 & Hall).
    { intros x Hx. apply Hnn. by right. }
    split; [done|]. split; [by eapply OpId_le_trans|].
    intros x [->|Hx]%elem_of_cons Hr; [|by apply Hall].
    rewrite <- (Hid1 Hr). done.
Qed.

(** X2.  When PlaySegments returns OK on a log whose replicate ids are not
    negative, last_id is at least the id of every replicate of the log, in
    the order by term and then index. *)
Theorem last_id_dominates_replicates
    (info0 info : ConsensusBootstrapInfo.t) (b b' : TabletBootstrap)
    (reader : LogReader.t) :
  log_reader_ b = Some reader →
  PlaySegments info0 b = (Ret info, b') →
  let stream := all_entries (LogReader.GetSegmentsSnapshot reader).2 in
  (∀ e, e ∈ stream → is_replicate_entry e = true → nonneg (entry_id e)) →
  ∀ e, e ∈ stream → is_replicate_entry e = true →
       OpId_le (entry_id e) (ConsensusBootstrapInfo.last_id info).
Proof.
  intros Hr Hp stream Hnn.
  destruct (PlaySegments_Ret _ _ _ _ _ Hr Hp) as (st & Ha & -> & _). simpl.
  apply (accepts_all_prev_dominates _ _ _ Ha); [|done].
  split; simpl; lia.
Qed.

(* The pending entries are replicates of the stream, kept under their id. *)
Lemma accepts_all_pending_in_stream (es : list LogEntryPB.t) (st : ReplayState)
    (k : OpId) (e : LogEntryPB.t) :
  accepts_all ReplayState_new es st →
  pending_replicates st !! k = Some e →
  e ∈ es ∧ is_replicate_entry e = true ∧ entry_id e = k.
Proof.
  intros Ha Hk. apply (accepts_all_pending _ _ Ha) in Hk as [Hid [i (Hl & Hr & _)]].
  split; [|done]. apply list_elem_of_lookup. eauto.
Qed.

(** X3.  After any stream of entries with replicate ids that are not
    negative has been played with status OK, a replicate that passes the
    sequence check can find its id pending only if that id is (0,0): the
    error "Found previous entry with the same id" of HandleReplicateMessage
    is reached for no other id. *)
Theorem duplicate_id_only_at_minimum
    (segment : ReadableLogSegment.t) (es : list LogEntryPB.t)
    (b0 b : TabletBootstrap) (st : ReplayState) (u : unit)
    (entry existing_entry : LogEntryPB.t) :
  play_entries segment 0 es (b0, ReplayState_new) = (Ret u, (b, st)) →
  (∀ e, e ∈ es → is_replicate_entry e = true → nonneg (entry_id e)) →
  may_follow (prev_op_id st) (entry_id entry) →
  pending_replicates st !! entry_id entry = Some existing_entry →
  entry_id entry = mkOpId 0 0.
Proof.
  intros Hplay%play_entries_Ret Hnn Hv Hp.
  destruct (accepts_all_pending_in_stream _ _ _ _ Hplay Hp) as (Hin & Hr & Hid).
  assert (nonneg (prev_op_id ReplayState_new)) as Hn0 by (split; simpl; lia).
  destruct (accepts_all_prev_dominates _ _ _ Hplay Hn0 Hnn) as (_ & _ & Hall).
  specialize (Hall _ Hin Hr). rewrite Hid in Hall.
  specialize (Hnn _ Hin Hr). rewrite Hid in Hnn.
  destruct (decide (prev_op_id st = mkOpId 0 0)) as [Heq|Hne].
  - rewrite Heq in Hall. unfold OpId_le, nonneg in *. simpl in *.
    destruct (entry_id entry) as [t i]. simpl in *. f_equal; lia.
  - exfalso. by apply (may_follow_strict _ _ Hv Hnn Hne).
Qed.

(* committed_op_id is at least the id of every commit accepted, and is the
   id of one of them unless it has not moved. *)
Lemma accepts_all_committed_dominates (st st' : ReplayState)
    (es : list LogEntryPB.t) :
  accepts_all st es st' →
  OpId_le (committed_op_id st) (committed_op_id st')
  ∧ (∀ c, c ∈ es → is_commit_entry c = true →
          OpId_le (entry_commited_op_id c) (committed_op_id st'))
  ∧ (committed_op_id st' = committed_op_id st
     ∨ ∃ c, c ∈ es ∧ is_commit_entry c = true
            ∧ entry_commited_op_id c = committed_op_id st').
Proof.
  induction 1 as [st|st e st1 es st2 Hstep _ IH].
  - split; [apply OpId_le_refl|]. split; [|by left].
    intros c Hc. by apply elem_of_nil in Hc.
  - destruct IH as (Hle & Hall & Hwit).
    assert (OpId_le (committed_op_id st) (committed_op_id st1)
            ∧ (is_commit_entry e = true →
               OpId_le (entry_commited_op_id e) (committed_op_id st1))
            ∧ (committed_op_id st1 = committed_op_id st
               ∨ (is_commit_entry e = true
                  ∧ entry_commited_op_id e = committed_op_id st1)))
      as (Hle1 & He1 & Hw1).
    { destruct Hstep as [st e Hr _ _|st e Hc|st e _ _ Hc]; simpl.
      - split; [apply OpId_le_refl|]. split; [|by left].
        intros Hc. by rewrite (replicate_is_no_commit e Hr) in Hc.
      - split; [apply OpId_le_max_l|]. split; [intros _; apply OpId_le_max_r|].
        unfold OpId_max. destruct (decide _); [by right | by left].
      - split; [apply OpId_le_refl|]. split; [congruence | by left]. }
    split; [by eapply OpId_le_trans|]. split.
    + intros c [->|Hc]%elem_of_cons Hcc; [|by apply Hall].
      eapply OpId_le_trans; [by apply He1 | done].
    + destruct Hwit as [Heq|(c & Hc & Hcc & Hid)].
      * rewrite Heq. destruct Hw1 as [Heq1|[Hc1 Hid1]]; [by left|].
        right. exists e. split; [by left|done].
      * right. exists c. split; [by right|done].
Qed.

(** X4.  When PlaySegments returns OK, last_committed_id is at least the
    committed_op_id of every commit of the log, and it is (0,0) or the
    committed_op_id of one of those commits. *)
Theorem last_committed_id_dominates_commits
    (info0 info : ConsensusBootstrapInfo.t) (b b' : TabletBootstrap)
    (reader : LogReader.t) :
  log_reader_ b = Some reader →
  PlaySegments info0 b = (Ret info, b') →
  let stream := all_entries (LogReader.GetSegmentsSnapshot reader).2 in
  (∀ c, c ∈ stream → is_commit_entry c = true →
        OpId_le (entry_commited_op_id c)
          (ConsensusBootstrapInfo.last_committed_id info))
  ∧ (ConsensusBootstrapInfo.last_committed_id info = MinimumOpId
     ∨ ∃ c, c ∈ stream ∧ is_commit_entry c = true
            ∧ entry_commited_op_id c
              = ConsensusBootstrapInfo.last_committed_id info).
Proof.
  intros Hr Hp stream.
  destruct (PlaySegments_Ret _ _ _ _ _ Hr Hp) as (st & Ha & -> & _). simpl.
  destruct (accepts_all_committed_dominates _ _ _ Ha) as (_ & Hall & Hwit).
  done.
Qed.

Lemma accepts_all_operations (st st' : ReplayState) (es : list LogEntryPB.t) :
  accepts_all st es st' → Forall (λ e, LogEntryPB.type e = OPERATION) es.
Proof.
  induction 1 as [|st e st1 es st2 Hstep _ IH]; constructor; [|done].
  destruct Hstep as [st e Hr _ _|st e Hc|st e Ht _ _]; [| |done].
  - unfold is_replicate_entry in Hr. apply andb_true_iff in Hr as [Ht _].
    by apply bool_decide_eq_true in Ht.
  - unfold is_commit_entry in Hc.
    apply andb_true_iff in Hc as [[Ht _]%andb_true_iff _].
    by apply bool_decide_eq_true in Ht.
Qed.

(** X5.  PlaySegments returns OK only if the snapshot of the segments and
    the read of every segment returned OK and every entry of the log has
    type OPERATION: a partial read or an entry of another type never goes
    unnoticed. *)
Theorem PlaySegments_ok_only_on_clean_log
    (info0 info : ConsensusBootstrapInfo.t) (b b' : TabletBootstrap)
    (reader : LogReader.t) :
  log_reader_ b = Some reader →
  PlaySegments info0 b = (Ret info, b') →
  StatusNS.ok (LogReader.GetSegmentsSnapshot reader).1 = true
  ∧ Forall (λ seg, StatusNS.ok (ReadableLogSegment.ReadEntries seg).1 = true)
      (LogReader.GetSegmentsSnapshot reader).2
  ∧ Forall (λ e, LogEntryPB.type e = OPERATION)
      (all_entries (LogReader.GetSegmentsSnapshot reader).2).
Proof.
  intros Hr Hp.
  destruct (PlaySegments_Ret _ _ _ _ _ Hr Hp) as (st & Ha & _ & Hs & Hall).
  split; [done|]. split; [done|]. by eapply accepts_all_operations.
Qed.

(** ** What the handling of a replicate and of a commit leaves behind *)


(** X7.  Whatever HandleCommitMessage returns, also when the replay of the
    pair fails, the replicate the commit refers to is no longer pending
    afterwards; the other pending replicates and prev_op_id are as they
    were. *)
Theorem HandleCommitMessage_consumes_replicate
    (entry : LogEntryPB.t) (s : Replay) :
  let st' := (HandleCommitMessage entry s).2.2 in
  pending_replicates st' !! entry_commited_op_id entry = None
  ∧ (∀ k, k ≠ entry_commited_op_id entry →
          pending_replicates st' !! k = pending_replicates s.2 !! k)
  ∧ prev_op_id st' = prev_op_id s.2.
Proof.
  intros st'. subst st'. rewrite HandleCommitMessage_state.
  rewrite UpdateCommittedOpId_max. simpl.
  split; [apply lookup_delete_eq|]. split; [|done].
  intros k Hk. by apply lookup_delete_ne.
Qed.

(** ** The durability oracle and the filters *)

(** X8.  A store that the oracle finds flushed stays flushed when the
    metadata advances: when last_durable_mrs_id and the
    last_durable_redo_dms_id of the rowsets only grow and rowsets only
    disappear. *)
Theorem WasStoreAlreadyFlushed_monotone
    (meta meta' : TabletMetadata.t) (target : MemStoreTargetPB.t) :
  metadata_advanced meta meta' →
  WasStoreAlreadyFlushed meta target = true →
  WasStoreAlreadyFlushed meta' target = true.
Proof.
  intros [Hmrs Hrs]. unfold WasStoreAlreadyFlushed, TabletMetadata.GetRowSetForTests.
  destruct (MemStoreTargetPB.has_mrs_id target).
  - rewrite !Z.leb_le. lia.
  - destruct (TabletMetadata.rowsets meta' !! MemStoreTargetPB.rs_id target)
      as [rs'|] eqn:H'; [|done].
    destruct (Hrs _ _ H') as (rs & -> & Hle).
    destruct (Z.leb_spec (MemStoreTargetPB.dms_id target)
                (RowSetMetadata.last_durable_redo_dms_id rs)); [|done].
    intros _.
    destruct (Z.leb_spec (MemStoreTargetPB.dms_id target)
                (RowSetMetadata.last_durable_redo_dms_id rs')); [done|lia].
Qed.

Lemma count_unflushed_spec (stores : list MemStoreTargetPB.t) (num : Z)
    (b : TabletBootstrap) (t : TabletT) :
  tablet_ b = Some t →
  count_unflushed stores num b
  = (Ret (num + Z.of_nat
                  (length (filter (λ s, WasStoreAlreadyFlushed
                                          (Tablet_metadata t) s = false) stores))),
     b).
Proof.
  intros Ht. revert num. induction stores as [|store stores IH]; intros num.
  - simpl. unfold ret. do 2 f_equal. lia.
  - cbn [count_unflushed]. unfold bind, deref. rewrite Ht.
    destruct (WasStoreAlreadyFlushed (Tablet_metadata t) store) eqn:Hf; simpl.
    + rewrite filter_cons_False by (by rewrite Hf). apply IH.
    + rewrite filter_cons_True by done. rewrite IH. simpl. do 2 f_equal. lia.
Qed.

Lemma no_unflushed_iff (meta : TabletMetadata.t) (stores : list MemStoreTargetPB.t) :
  length (filter (λ s, WasStoreAlreadyFlushed meta s = false) stores) = 0%nat
  ↔ forallb (WasStoreAlreadyFlushed meta) stores = true.
Proof.
  induction stores as [|store stores IH]; simpl; [done|].
  destruct (WasStoreAlreadyFlushed meta store) eqn:Hf; simpl.
  - rewrite filter_cons_False by (by rewrite Hf). done.
  - rewrite filter_cons_True by done. simpl. split; done.
Qed.

(* FilterMutate on one or two mutated stores. *)
Lemma FilterMutate_in_range (op : RowOp.t) (op_result : OperationResultPB.t)
    (b : TabletBootstrap) (t : TabletT) :
  tablet_ b = Some t →
  (1 ≤ length (OperationResultPB.mutated_stores op_result) ≤ 2)%nat →
  FilterMutate op op_result b
  = (Ret (if forallb (WasStoreAlreadyFlushed (Tablet_metadata t))
               (OperationResultPB.mutated_stores op_result)
          then SetFailed (StatusNS.AlreadyPresent "Update was already flushed.") op
          else op),
     b).
Proof.
  intros Ht Hlen. unfold FilterMutate.
  set (stores := OperationResultPB.mutated_stores op_result) in *.
  destruct (Z.eqb_spec (Z.of_nat (length stores)) 0) as [?|_]; [lia|].
  destruct (Z.ltb_spec 2 (Z.of_nat (length stores))) as [?|_]; [lia|]. simpl.
  unfold bind. rewrite (count_unflushed_spec stores 0 b t Ht).
  pose proof (no_unflushed_iff (Tablet_metadata t) stores) as Hiff.
  destruct (forallb _ stores).
  - rewrite (proj2 Hiff eq_refl). done.
  - destruct (length (filter _ stores)) as [|k] eqn:Hk;
      [by destruct Hiff as [Hiff _]; specialize (Hiff eq_refl)|].
    destruct (Z.eqb_spec (0 + Z.of_nat (S k)) 0); [lia|done].
Qed.

(* FilterInsert on one mutated store that is a memrowset. *)
Lemma FilterInsert_one_mrs (op : RowOp.t) (op_result : OperationResultPB.t)
    (b : TabletBootstrap) (t : TabletT) (store : MemStoreTargetPB.t) :
  tablet_ b = Some t →
  OperationResultPB.mutated_stores op_result = [store] →
  MemStoreTargetPB.has_mrs_id store = true →
  FilterInsert op op_result b
  = (Ret (if bool_decide
               (MemStoreTargetPB.mrs_id store
                ≤ TabletMetadata.last_durable_mrs_id (Tablet_metadata t))
          then SetFailed (StatusNS.AlreadyPresent
                            "Row to insert was already flushed.") op
          else op),
     b).
Proof.
  intros Ht Hs Hm. unfold FilterInsert. rewrite Hs, Hm. simpl.
  unfold bind, deref. rewrite Ht. unfold WasStoreAlreadyFlushed. rewrite Hm.
  destruct (Z.leb_spec (MemStoreTargetPB.mrs_id store)
              (TabletMetadata.last_durable_mrs_id (Tablet_metadata t))).
  - by rewrite bool_decide_eq_true_2.
  - by rewrite bool_decide_eq_false_2 by lia.
Qed.

(** X9.  FilterMutate never changes the bootstrap object.  With no mutated
    store or more than two it returns Corruption; with one or two it
    returns OK, and marks the op as failed (already present) exactly when
    every store is flushed, leaving it to be applied as soon as one store
    is unflushed. *)
Theorem FilterMutate_outcomes
    (op : RowOp.t) (op_result : OperationResultPB.t)
    (b : TabletBootstrap) (t : TabletT) :
  tablet_ b = Some t →
  let stores := OperationResultPB.mutated_stores op_result in
  if bool_decide (1 ≤ length stores ≤ 2)%nat then
    FilterMutate op op_result b
    = (Ret (if forallb (WasStoreAlreadyFlushed (Tablet_metadata t)) stores
            then SetFailed (StatusNS.AlreadyPresent "Update was already flushed.") op
            else op),
       b)
  else
    ∃ msg, FilterMutate op op_result b = (Fail (StatusNS.Corruption msg), b).
Proof.
  intros Ht stores.
  destruct (bool_decide_reflect (1 ≤ length stores ≤ 2)%nat) as [Hlen|Hlen].
  - by apply FilterMutate_in_range.
  - unfold FilterMutate. fold stores.
    destruct (Z.eqb_spec (Z.of_nat (length stores)) 0) as [?|?]; simpl; [by eexists|].
    destruct (Z.ltb_spec 2 (Z.of_nat (length stores))) as [?|?]; [by eexists|lia].
Qed.

(** X10.  FilterInsert never changes the bootstrap object.  It returns
    Corruption unless the result names exactly one store and that store has
    an mrs_id; otherwise it returns OK, and marks the insert as failed
    (already present) exactly when that mrs_id is at most the metadata's
    last_durable_mrs_id. *)
Theorem FilterInsert_outcomes
    (op : RowOp.t) (op_result : OperationResultPB.t)
    (b : TabletBootstrap) (t : TabletT) :
  tablet_ b = Some t →
  match OperationResultPB.mutated_stores op_result with
  | [store] =>
      if MemStoreTargetPB.has_mrs_id store then
        FilterInsert op op_result b
        = (Ret (if bool_decide
                     (MemStoreTargetPB.mrs_id store
                      ≤ TabletMetadata.last_durable_mrs_id (Tablet_metadata t))
                then SetFailed (StatusNS.AlreadyPresent
                                  "Row to insert was already flushed.") op
                else op),
           b)
      else ∃ msg, FilterInsert op op_result b
                  = (Fail (StatusNS.Corruption msg), b)
  | _ => ∃ msg, FilterInsert op op_result b
                = (Fail (StatusNS.Corruption msg), b)
  end.
Proof.
  intros Ht.
  destruct (OperationResultPB.mutated_stores op_result) as [|store [|? ?]] eqn:Hs.
  - unfold FilterInsert. rewrite Hs. by eexists.
  - destruct (MemStoreTargetPB.has_mrs_id store) eqn:Hm.
    + by apply FilterInsert_one_mrs.
    + unfold FilterInsert. rewrite Hs, Hm. by eexists.
  - unfold FilterInsert. rewrite Hs. by eexists.
Qed.

(* A row op that needs no replay comes out of its filter marked as failed,
   and the bootstrap object is not touched. *)
Lemma filter_of_filtered_out (op : RowOp.t) (op_result : OperationResultPB.t)
    (b : TabletBootstrap) (t : TabletT) :
  tablet_ b = Some t →
  OperationResultPB.has_failed_status op_result = false →
  filtered_out (Tablet_metadata t) op op_result = true →
  ∃ op', match RowOp.decoded_op_type op with
         | INSERT => FilterInsert op op_result
         | UPDATE | DELETE => FilterMutate op op_result
         | OTHER_ROW_OP _ => crash
         end b = (Ret op', b)
         ∧ marked_failed op'.
Proof.
  intros Ht Hnf. unfold filtered_out. rewrite Hnf. simpl.
  assert (∀ st, marked_failed (SetFailed st op)) as Hmark.
  { intros st. eexists. split; [reflexivity|done]. }
  assert (bool_decide (1 ≤ length (OperationResultPB.mutated_stores op_result) ≤ 2)%nat
          && forallb (WasStoreAlreadyFlushed (Tablet_metadata t))
               (OperationResultPB.mutated_stores op_result) = true →
          ∃ op', FilterMutate op op_result b = (Ret op', b) ∧ marked_failed op')
    as Hmut.
  { intros [Hlen%bool_decide_eq_true Hall]%andb_true_iff.
    rewrite (FilterMutate_in_range op op_result b t Ht Hlen), Hall. eauto. }
  destruct (RowOp.decoded_op_type op); [| | |done].
  - destruct (OperationResultPB.mutated_stores op_result) as [|store [|? ?]] eqn:Hs;
      [done| |done].
    intros [Hm Hf]%andb_true_iff.
    rewrite (FilterInsert_one_mrs op op_result b t store Ht Hs Hm).
    unfold WasStoreAlreadyFlushed in Hf. rewrite Hm in Hf.
    apply Z.leb_le in Hf. rewrite bool_decide_eq_true_2 by done.
    eauto.
  - apply Hmut.
  - apply Hmut.
Qed.

Lemma put_row_op_lookup (i j : nat) (op : RowOp.t) (tx : WriteTransactionState.t) :
  (i < length (WriteTransactionState.row_ops tx))%nat →
  WriteTransactionState.row_ops (put_row_op i op tx) !! j
  = if decide (i = j) then Some op else WriteTransactionState.row_ops tx !! j.
Proof.
  intros Hi. unfold put_row_op. simpl. destruct (decide (i = j)) as [<-|Hne].
  - by apply list_lookup_insert_eq.
  - by apply list_lookup_insert_ne.
Qed.

Lemma put_row_op_length (i : nat) (op : RowOp.t) (tx : WriteTransactionState.t) :
  length (WriteTransactionState.row_ops (put_row_op i op tx))
  = length (WriteTransactionState.row_ops tx).
Proof. unfold put_row_op. simpl. apply length_insert. Qed.

Lemma FilterAndApplyOperations_from_filtered_out
    (orig_result : TxResultPB.t) (b : TabletBootstrap) (t : TabletT)
    (n i : nat) (tx_state : WriteTransactionState.t) :
  tablet_ b = Some t →
  length (WriteTransactionState.row_ops tx_state) = (i + n)%nat →
  length (TxResultPB.ops orig_result) = (i + n)%nat →
  (∀ j op r, (i ≤ j)%nat →
     WriteTransactionState.row_ops tx_state !! j = Some op →
     TxResultPB.ops orig_result !! j = Some r →
     filtered_out (Tablet_metadata t) op r = true) →
  ∃ tx',
    FilterAndApplyOperations_from n i tx_state orig_result b = (Ret tx', b)
    ∧ length (WriteTransactionState.row_ops tx')
      = length (WriteTransactionState.row_ops tx_state)
    ∧ (∀ j, (j < i)%nat →
            WriteTransactionState.row_ops tx' !! j
            = WriteTransactionState.row_ops tx_state !! j)
    ∧ (∀ j op', (i ≤ j)%nat →
            WriteTransactionState.row_ops tx' !! j = Some op' →
            marked_failed op').
Proof.
  intros Ht. revert i tx_state.
  induction n as [|n IH]; intros i tx Hlen Hlen' Hall.
  - exists tx. split; [done|]. split; [done|]. split; [done|].
    intros j op' Hj Hl. apply lookup_lt_Some in Hl. lia.
  - cbn [FilterAndApplyOperations_from].
    destruct (WriteTransactionState.row_ops tx !! i) as [op|] eqn:Hop;
      [|apply lookup_ge_None in Hop; lia].
    destruct (TxResultPB.ops orig_result !! i) as [r|] eqn:Hr;
      [|apply lookup_ge_None in Hr; lia].
    assert (Hi : (i < length (WriteTransactionState.row_ops tx))%nat) by lia.
    assert (Htail : ∀ op', marked_failed op' →
      ∃ tx',
        FilterAndApplyOperations_from n (S i) (put_row_op i op' tx)
          orig_result b = (Ret tx', b)
        ∧ length (WriteTransactionState.row_ops tx')
          = length (WriteTransactionState.row_ops tx)
        ∧ (∀ j, (j < i)%nat →
                WriteTransactionState.row_ops tx' !! j
                = WriteTransactionState.row_ops tx !! j)
        ∧ (∀ j opj, (i ≤ j)%nat →
                WriteTransactionState.row_ops tx' !! j = Some opj →
                marked_failed opj)).
    { intros op' Hmark.
      destruct (IH (S i) (put_row_op i op' tx))
        as (tx' & Hrun & Hl & Hbefore & Hafter).
      { rewrite put_row_op_length. lia. }
      { lia. }
      { intros j opj rj Hj. rewrite put_row_op_lookup by done.
        destruct (decide (i = j)); [lia|]. apply Hall. lia. }
      exists tx'. split; [done|]. split; [by rewrite Hl, put_row_op_length|].
      split.
      - intros j Hj. rewrite Hbefore by lia. rewrite put_row_op_lookup by done.
        destruct (decide (i = j)); [lia|done].
      - intros j opj Hj Hlook. destruct (decide (j = i)) as [->|Hne].
        + rewrite Hbefore in Hlook by lia.
          rewrite put_row_op_lookup in Hlook by done.
          destruct (decide (i = i)); [|done]. by injection Hlook as <-.
        + apply (Hafter j); [lia|done]. }
    destruct (OperationResultPB.has_failed_status r) eqn:Hfs.
    + apply Htail. eexists. split; [reflexivity|done].
    + destruct (filter_of_filtered_out op r b t Ht Hfs) as (op' & Hf & Hmark).
      { by apply (Hall i). }
      unfold bind at 1. rewrite Hf.
      pose proof Hmark as (res & Hres & _). cbv zeta. rewrite Hres.
      by apply Htail.
Qed.

(** X11.  When every row op of a write needs no replay (it failed in the
    original transaction, or all the stores of its result are flushed),
    FilterAndApplyOperations returns OK without touching the bootstrap
    object: nothing is applied to the tablet, and every row op ends up
    marked as failed. *)
Theorem FilterAndApplyOperations_all_filtered_out
    (tx_state : WriteTransactionState.t) (orig_result : TxResultPB.t)
    (b : TabletBootstrap) (t : TabletT) :
  tablet_ b = Some t →
  length (WriteTransactionState.row_ops tx_state)
    = length (TxResultPB.ops orig_result) →
  (∀ j op r,
     WriteTransactionState.row_ops tx_state !! j = Some op →
     TxResultPB.ops orig_result !! j = Some r →
     filtered_out (Tablet_metadata t) op r = true) →
  ∃ tx',
    FilterAndApplyOperations tx_state orig_result b = (Ret tx', b)
    ∧ length (WriteTransactionState.row_ops tx')
      = length (WriteTransactionState.row_ops tx_state)
    ∧ Forall marked_failed (WriteTransactionState.row_ops tx').
Proof.
  intros Ht Hlen Hall. unfold FilterAndApplyOperations.
  destruct (FilterAndApplyOperations_from_filtered_out orig_result b t
              (length (WriteTransactionState.row_ops tx_state)) 0 tx_state Ht)
    as (tx' & Hrun & Hl & _ & Hmarked); [done|by rewrite Hlen| |].
  { intros j op r _. apply Hall. }
  exists tx'. split; [done|]. split; [done|].
  apply Forall_lookup. intros j op' Hj. apply (Hmarked j); [lia|done].
Qed.

(** ** What the replay keeps *)

Lemma preserves_unchanged {S A} (P : S → Prop) (m : M S A) :
  (∀ s, (m s).2 = s) → preserves P m.
Proof. intros Hm s Hs. by rewrite Hm. Qed.

Lemma preserves_ret {S A} (P : S → Prop) (a : A) : preserves P (ret a).
Proof. by apply preserves_unchanged. Qed.

Lemma preserves_fail {S A} (P : S → Prop) (e : Status) : preserves P (@fail S A e).
Proof. by apply preserves_unchanged. Qed.

Lemma preserves_crash {S A} (P : S → Prop) : preserves P (@crash S A).
Proof. by apply preserves_unchanged. Qed.

Lemma preserves_get {S} (P : S → Prop) : preserves P get.
Proof. by apply preserves_unchanged. Qed.

Lemma preserves_gets {S A} (P : S → Prop) (f : S → A) : preserves P (gets f).
Proof. by apply preserves_unchanged. Qed.

Lemma preserves_deref {S A} (P : S → Prop) (p : S → option A) :
  preserves P (deref p).
Proof. apply preserves_unchanged. intros s. unfold deref. by destruct (p s). Qed.

Lemma preserves_RETURN_NOT_OK {S} (P : S → Prop) (st : Status) :
  preserves P (RETURN_NOT_OK st).
Proof.
  apply preserves_unchanged. intros s. unfold RETURN_NOT_OK.
  by destruct (StatusNS.ok st).
Qed.

Lemma preserves_CHECK_OK {S} (P : S → Prop) (st : Status) :
  preserves P (CHECK_OK st).
Proof.
  apply preserves_unchanged. intros s. unfold CHECK_OK.
  by destruct (StatusNS.ok st).
Qed.

Lemma preserves_modify {S} (P : S → Prop) (f : S → S) :
  (∀ s, P s → P (f s)) → preserves P (modify f).
Proof. intros Hf s Hs. by apply Hf. Qed.

Lemma preserves_bind {S A B} (P : S → Prop) (m : M S A) (k : A → M S B) :
  preserves P m → (∀ a, preserves P (k a)) → preserves P (bind m k).
Proof.
  intros Hm Hk s Hs. unfold bind. specialize (Hm s Hs).
  destruct (m s) as [[a|e|] s1]; simpl in *; [|done|done].
  by apply Hk.
Qed.

Lemma preserves_PREPEND {S A} (P : S → Prop) (m : M S A) (msg : string) :
  preserves P m → preserves P (RETURN_NOT_OK_PREPEND m msg).
Proof.
  intros Hm s Hs. unfold RETURN_NOT_OK_PREPEND. specialize (Hm s Hs).
  by destruct (m s) as [[a|e|] s1].
Qed.

Lemma preserves_lift_fst {S T A} (P : S → Prop) (m : M S A) :
  preserves P m → preserves (λ s : S * T, P s.1) (lift_fst m).
Proof.
  intros Hm [s t] Hs. unfold lift_fst. simpl in *. specialize (Hm s Hs).
  by destruct (m s).
Qed.

Lemma preserves_lift_snd {S T A} (P : S → Prop) (m : M T A) :
  preserves (λ s : S * T, P s.1) (lift_snd m).
Proof.
  intros [s t] Hs. unfold lift_snd. simpl in *. by destruct (m t).
Qed.

Lemma preserves_with_local {S T A} (P : S → Prop) (t0 : T) (m : M (S * T) A) :
  preserves (λ s : S * T, P s.1) m → preserves P (with_local t0 m).
Proof.
  intros Hm s Hs. unfold with_local. specialize (Hm (s, t0) Hs).
  by destruct (m (s, t0)) as [[a|e|] [s1 t1]].
Qed.

Lemma replay_stable_play (P : TabletBootstrap → Prop) :
  replay_stable P → play_stable P.
Proof. intros (Ht & Hl & _ & Hc). by split; [|split]. Qed.

Section PlayStable.
Variable P : TabletBootstrap → Prop.
Hypothesis Hplay : play_stable P.

Let Htablet : ∀ b t, P b → P (set_tablet_ (Some t) b) := proj1 Hplay.
Let Hlog : ∀ b l, P b → P (set_log_ (Some l) b) := proj1 (proj2 Hplay).

Ltac stable_step :=
  first
    [ apply preserves_ret | apply preserves_fail | apply preserves_crash
    | apply preserves_get | apply preserves_gets | apply preserves_deref
    | apply preserves_RETURN_NOT_OK | apply preserves_CHECK_OK
    | apply preserves_PREPEND
    | apply preserves_modify; intros ? ?;
      first [by apply Htablet | by apply Hlog]
    | apply preserves_bind; [|intros ?]
    | match goal with
      | |- preserves _ (match ?x with _ => _ end) => destruct x
      end ].

Lemma stable_Append (entry : LogEntryPB.t) : preserves P (Append entry).
Proof. unfold Append. repeat stable_step. Qed.

Lemma stable_FilterInsert (op : RowOp.t) (r : OperationResultPB.t) :
  preserves P (FilterInsert op r).
Proof. unfold FilterInsert. repeat stable_step. Qed.

Lemma stable_count_unflushed (stores : list MemStoreTargetPB.t) (num : Z) :
  preserves P (count_unflushed stores num).
Proof.
  revert num. induction stores as [|store stores IH]; intros num; simpl;
    repeat first [apply IH | stable_step].
Qed.

Lemma stable_FilterMutate (op : RowOp.t) (r : OperationResultPB.t) :
  preserves P (FilterMutate op r).
Proof.
  unfold FilterMutate. repeat first [apply stable_count_unflushed | stable_step].
Qed.

Lemma stable_FilterAndApplyOperations_from (n i : nat)
    (tx : WriteTransactionState.t) (orig : TxResultPB.t) :
  preserves P (FilterAndApplyOperations_from n i tx orig).
Proof.
  revert i tx. induction n as [|n IH]; intros i tx; simpl;
    repeat first [ apply IH | apply stable_FilterInsert
                 | apply stable_FilterMutate | stable_step ].
Qed.

Lemma stable_PlayRowOperations (tx : WriteTransactionState.t)
    (schema_pb ops_pb : string) (r : TxResultPB.t) :
  preserves P (PlayRowOperations tx schema_pb ops_pb r).
Proof.
  unfold PlayRowOperations, FilterAndApplyOperations.
  repeat first [apply stable_FilterAndApplyOperations_from | stable_step].
Qed.

Lemma stable_PlayWriteRequest (replicate_op commit_op : OperationPB.t) :
  preserves P (PlayWriteRequest replicate_op commit_op).
Proof.
  unfold PlayWriteRequest.
  repeat first [ apply stable_PlayRowOperations | apply stable_Append
               | stable_step ].
Qed.

Lemma stable_PlayAlterSchemaRequest (replicate_op commit_op : OperationPB.t) :
  preserves P (PlayAlterSchemaRequest replicate_op commit_op).
Proof.
  unfold PlayAlterSchemaRequest. repeat first [apply stable_Append | stable_step].
Qed.

Lemma stable_PlayChangeConfigRequest (replicate_op commit_op : OperationPB.t) :
  preserves P (PlayChangeConfigRequest replicate_op commit_op).
Proof.
  intros b Hb. unfold PlayChangeConfigRequest. unfold bind at 1, deref.
  destruct (cmeta_ b) as [cmeta|] eqn:Hc; [|done].
  unfold bind at 1.
  destruct (Z.ltb_spec
              (QuorumPB.seqno (ConsensusMetadata.committed_quorum cmeta))
              (QuorumPB.seqno
                 (ChangeConfigRequestPB.new_config
                    (ReplicateMsg.change_config_request
                       (OperationPB.replicate replicate_op))))).
  - unfold modify. apply stable_Append.
    by apply (proj2 (proj2 Hplay) b cmeta).
  - unfold ret. by apply stable_Append.
Qed.

End PlayStable.

Section Stable.
Variable P : TabletBootstrap → Prop.
Hypothesis Hstable : replay_stable P.

Let Hplay : play_stable P := replay_stable_play P Hstable.
Let Hclock : ∀ b c, P b → P (set_clock_ c b) := proj1 (proj2 (proj2 Hstable)).

Ltac stable_step :=
  first
    [ apply preserves_ret | apply preserves_fail | apply preserves_crash
    | apply preserves_get | apply preserves_gets | apply preserves_deref
    | apply preserves_RETURN_NOT_OK | apply preserves_CHECK_OK
    | apply preserves_PREPEND
    | apply preserves_lift_snd
    | apply preserves_lift_fst
    | apply preserves_modify; intros ? ?; by apply Hclock
    | apply preserves_bind; [|intros ?]
    | match goal with
      | |- preserves _ (match ?x with _ => _ end) => destruct x
      end ].

Lemma stable_UpdateClock (timestamp : Z) : preserves P (UpdateClock timestamp).
Proof. unfold UpdateClock. repeat stable_step. Qed.

Lemma stable_HandleEntryPair (replicate_entry commit_entry : LogEntryPB.t) :
  preserves P (HandleEntryPair replicate_entry commit_entry).
Proof.
  unfold HandleEntryPair.
  repeat first [ apply (stable_PlayWriteRequest P Hplay)
               | apply (stable_PlayAlterSchemaRequest P Hplay)
               | apply (stable_PlayChangeConfigRequest P Hplay)
               | apply stable_UpdateClock | stable_step ].
Qed.

Lemma stable_print_segments (seq : list ReadableLogSegment.t) :
  preserves P (print_segments seq).
Proof.
  induction seq as [|seg seq IH]; simpl; repeat first [apply IH | stable_step].
Qed.

Lemma stable_check_mutated_stores (commit : CommitMsg.t)
    (stores : list MemStoreTargetPB.t) :
  preserves P (check_mutated_stores commit stores).
Proof.
  induction stores as [|store stores IH]; simpl; unfold print_entries;
    repeat first [apply IH | apply stable_print_segments | stable_step].
Qed.

Lemma stable_check_orphan_commit (commit : CommitMsg.t)
    (ops : list OperationResultPB.t) :
  preserves P (check_orphan_commit commit ops).
Proof.
  induction ops as [|op ops IH]; simpl;
    repeat first [apply IH | apply stable_check_mutated_stores | stable_step].
Qed.

Ltac replay_step :=
  first
    [ apply preserves_ret | apply preserves_fail | apply preserves_gets
    | apply (preserves_lift_snd P)
    | apply (preserves_lift_fst P)
    | apply preserves_bind; [|intros ?]
    | match goal with
      | |- preserves _ (match ?x with _ => _ end) => destruct x
      end ].

Lemma stable_HandleReplicateMessage (entry : LogEntryPB.t) :
  preserves (λ s : Replay, P s.1) (HandleReplicateMessage entry).
Proof.
  unfold HandleReplicateMessage.
  repeat first [apply (stable_Append P Hplay) | replay_step].
Qed.

Lemma stable_HandleCommitMessage (entry : LogEntryPB.t) :
  preserves (λ s : Replay, P s.1) (HandleCommitMessage entry).
Proof.
  unfold HandleCommitMessage.
  repeat first [ apply stable_HandleEntryPair | apply stable_check_orphan_commit
               | replay_step ].
Qed.

Lemma stable_HandleEntry (entry : LogEntryPB.t) :
  preserves (λ s : Replay, P s.1) (HandleEntry entry).
Proof.
  unfold HandleEntry.
  repeat first [ apply stable_HandleReplicateMessage
               | apply stable_HandleCommitMessage | replay_step ].
Qed.

Lemma stable_play_entries (segment : ReadableLogSegment.t) (idx : Z)
    (entries : list LogEntryPB.t) :
  preserves (λ s : Replay, P s.1) (play_entries segment idx entries).
Proof.
  revert idx. induction entries as [|entry rest IH]; intros idx; simpl;
    [apply preserves_ret|].
  apply preserves_bind; [|intros ?; apply IH].
  intros s Hs. pose proof (stable_HandleEntry entry s Hs) as He.
  destruct (HandleEntry entry s) as [[u|e|] s1]; simpl in *; [done| |done].
  by destruct (tablet_ s1.1).
Qed.

Lemma stable_play_segments (segments : list ReadableLogSegment.t) (n : Z) :
  (∀ b status, P b → P (set_listener_ status b)) →
  preserves (λ s : Replay, P s.1) (play_segments segments n).
Proof.
  intros Hlistener. revert n.
  induction segments as [|segment rest IH]; intros n; simpl;
    [apply preserves_ret|].
  destruct (ReadableLogSegment.ReadEntries segment) as [read_status entries].
  apply preserves_bind; [apply stable_play_entries|intros _].
  apply preserves_bind; [|intros _].
  { destruct (negb (StatusNS.ok read_status)); repeat first [stable_step | replay_step]. }
  apply preserves_bind; [apply (preserves_lift_fst P), preserves_deref|intros reader].
  apply preserves_bind; [|intros _; apply IH].
  apply (preserves_lift_fst P). unfold StatusMessage.
  apply preserves_modify. intros b Hb. by apply Hlistener.
Qed.

End Stable.

(* The properties that are followed through the replay. *)
Lemma seqno_at_least_stable (n : Z) : replay_stable (seqno_at_least n).
Proof.
  unfold replay_stable, seqno_at_least.
  split; [|split; [|split]]; try (intros [] ? (c & Hc & Hn); simpl in *; eauto).
  intros [] cmeta quorum (c & Hc & Hn) Hcm Hlt. simpl in *.
  eexists. split; [done|]. simpl. assert (c = cmeta) as -> by congruence. lia.
Qed.

Lemma non_null_stable : replay_stable non_null.
Proof.
  unfold replay_stable, non_null.
  split; [|split; [|split]]; intros [] ?; intros; simpl in *;
    intuition eauto.
Qed.

(** X13.  Whatever the playing of the segments returns, the sequence
    number of the committed quorum in the consensus metadata is not lower
    afterwards than before. *)
Theorem play_segments_never_lowers_quorum_seqno
    (segments : list ReadableLogSegment.t) (n : Z) (s : Replay)
    (cmeta : ConsensusMetadata.t) :
  cmeta_ s.1 = Some cmeta →
  ∃ cmeta',
    cmeta_ (play_segments segments n s).2.1 = Some cmeta'
    ∧ QuorumPB.seqno (ConsensusMetadata.committed_quorum cmeta)
      ≤ QuorumPB.seqno (ConsensusMetadata.committed_quorum cmeta').
Proof.
  intros Hc.
  apply (stable_play_segments
           (seqno_at_least
              (QuorumPB.seqno (ConsensusMetadata.committed_quorum cmeta)))).
  - apply seqno_at_least_stable.
  - intros [] ? (c & Hcc & Hn). simpl in *. by exists c.
  - exists cmeta. split; [done|lia].
Qed.

Lemma Append_cmeta (entry : LogEntryPB.t) (b : TabletBootstrap) :
  cmeta_ (Append entry b).2 = cmeta_ b.
Proof.
  unfold Append. unfold_monad. destruct (log_ b) as [l|]; [|done].
  destruct (Log_Append l entry) as [st l']. simpl.
  by destruct (StatusNS.ok st), b.
Qed.

(** X14.  PlayChangeConfigRequest replaces the committed quorum of the
    consensus metadata by the new configuration exactly when the sequence
    number of the new configuration is strictly higher, also when the
    append of the commit fails afterwards. *)
Theorem PlayChangeConfigRequest_committed_quorum
    (replicate_op commit_op : OperationPB.t) (b : TabletBootstrap)
    (cmeta : ConsensusMetadata.t) :
  cmeta_ b = Some cmeta →
  let quorum :=
    ChangeConfigRequestPB.new_config
      (ReplicateMsg.change_config_request (OperationPB.replicate replicate_op)) in
  cmeta_ (PlayChangeConfigRequest replicate_op commit_op b).2
  = Some (if bool_decide
               (QuorumPB.seqno (ConsensusMetadata.committed_quorum cmeta)
                < QuorumPB.seqno quorum)
          then ConsensusMetadata.mk quorum else cmeta).
Proof.
  intros Hc quorum. unfold PlayChangeConfigRequest. fold quorum.
  unfold bind at 1, deref. rewrite Hc. unfold bind at 1.
  destruct (Z.ltb_spec
              (QuorumPB.seqno (ConsensusMetadata.committed_quorum cmeta))
              (QuorumPB.seqno quorum)) as [Hlt|Hge].
  - rewrite bool_decide_eq_true_2 by done. unfold modify.
    rewrite Append_cmeta. by destruct b.
  - rewrite bool_decide_eq_false_2 by lia. unfold ret.
    by rewrite Append_cmeta.
Qed.

(** ** The segment pipeline on a refused entry *)

(** X16.  When the entries before position i of a segment are handled with
    status OK and HandleEntry refuses the entry at position i, the playing
    of the segment stops there: the status keeps the code of the refusal,
    its message is prefixed by the DebugInfo that names position i and the
    sequence number of the segment as an int (the number modulo 2^32), and
    the entries after it are not handled. *)
Theorem play_entries_stops_at_refused_entry
    (segment : ReadableLogSegment.t) (idx : Z)
    (before after : list LogEntryPB.t) (entry : LogEntryPB.t)
    (s0 s1 s2 : Replay) (u : unit) (err : Status) (t : TabletT) :
  play_entries segment idx before s0 = (Ret u, s1) →
  HandleEntry entry s1 = (Fail err, s2) →
  tablet_ s2.1 = Some t →
  play_entries segment idx (before ++ entry :: after) s0
  = (Fail (StatusNS.CloneAndPrepend
             (DebugInfo (Tablet_tablet_id t)
                (to_int (ReadableLogSegment.sequence_number segment))
                (idx + Z.of_nat (length before))
                (ReadableLogSegment.path segment) entry)
             err),
     s2).
Proof.
  revert idx s0. induction before as [|e es IH]; intros idx s0 Hbefore He Ht.
  - simpl in Hbefore. injection Hbefore as _ ->.
    cbn [app play_entries]. unfold bind. rewrite He, Ht.
    simpl. by rewrite Z.add_0_r.
  - cbn [app play_entries] in *. unfold bind at 1 in Hbefore. unfold bind at 1.
    destruct (HandleEntry e s0) as [[u1|e1|] s'] eqn:H0; simpl in *.
    + rewrite (IH _ _ Hbefore He Ht). do 4 f_equal. lia.
    + by destruct (tablet_ s'.1).
    + done.
Qed.

(** ** The recovery directory *)

Lemma set_fs_manager_twice (x y : FsT) (b : TabletBootstrap) :
  set_fs_manager x (set_fs_manager y b) = set_fs_manager x b.
Proof. done. Qed.

Lemma only_fs_unchanged {A} (m : M TabletBootstrap A) :
  (∀ b, (m b).2 = b) → only_fs m.
Proof. intros Hm b. rewrite Hm. by destruct b. Qed.

Lemma only_fs_bind {A B} (m : M TabletBootstrap A) (k : A → M TabletBootstrap B) :
  only_fs m → (∀ a, only_fs (k a)) → only_fs (bind m k).
Proof.
  intros Hm Hk b. unfold bind. specialize (Hm b).
  destruct (m b) as [[a|e|] b1]; simpl in *; [|done|done].
  rewrite Hk. rewrite Hm at 2. done.
Qed.

Lemma only_fs_PREPEND {A} (m : M TabletBootstrap A) (msg : string) :
  only_fs m → only_fs (RETURN_NOT_OK_PREPEND m msg).
Proof.
  intros Hm b. unfold RETURN_NOT_OK_PREPEND. specialize (Hm b).
  by destruct (m b) as [[a|e|] b1].
Qed.

Lemma only_fs_RETURN_NOT_OK (st : Status) : only_fs (RETURN_NOT_OK st).
Proof.
  apply only_fs_unchanged. intros b. unfold RETURN_NOT_OK.
  by destruct (StatusNS.ok st).
Qed.

Lemma only_fs_on_fs (f : FsT → Status * FsT) : only_fs (on_fs f).
Proof.
  intros b. unfold on_fs. unfold_monad. destruct (f (fs_manager b)) as [st fs'].
  simpl. by destruct (StatusNS.ok st).
Qed.

Ltac only_fs_step :=
  first
    [ apply only_fs_on_fs | apply only_fs_RETURN_NOT_OK | apply only_fs_PREPEND
    | apply only_fs_unchanged; by (intros ?; unfold_monad; repeat case_match)
    | apply only_fs_bind; [|intros ?]
    | match goal with
      | |- only_fs (match ?x with _ => _ end) => destruct x
      end ].

Lemma only_fs_delete_old_log_files (log_dir : string) (children : list string) :
  only_fs (delete_old_log_files log_dir children).
Proof.
  induction children as [|child rest IH]; simpl;
    repeat first [apply IH | only_fs_step].
Qed.

Lemma only_fs_PrepareRecoveryDir : only_fs PrepareRecoveryDir.
Proof.
  unfold PrepareRecoveryDir.
  repeat first [apply only_fs_delete_old_log_files | only_fs_step].
Qed.

Lemma bind_Ret_inv {S A B} (m : M S A) (k : A → M S B) (s s' : S) (r : B) :
  bind m k s = (Ret r, s') →
  ∃ a s1, m s = (Ret a, s1) ∧ k a s1 = (Ret r, s').
Proof.
  unfold bind. destruct (m s) as [[a|e|] s1]; [eauto|done|done].
Qed.

Lemma PREPEND_Ret_inv {S A} (m : M S A) (msg : string) (s s' : S) (r : A) :
  RETURN_NOT_OK_PREPEND m msg s = (Ret r, s') → m s = (Ret r, s').
Proof.
  unfold RETURN_NOT_OK_PREPEND. by destruct (m s) as [[a|e|] s1].
Qed.

(** X17.  When PrepareRecoveryDir returns OK, it answers that a recovery is
    needed exactly when the recovery directory existed, or the log
    directory existed and listed at least one log file; and it has changed
    nothing of the bootstrap object but the file system. *)
Theorem PrepareRecoveryDir_needs_recovery
    (b b' : TabletBootstrap) (t : TabletT) (needs_recovery : bool) :
  tablet_ b = Some t →
  PrepareRecoveryDir b = (Ret needs_recovery, b') →
  let tablet_id := TabletMetadata.oid (Tablet_metadata t) in
  let fs := fs_manager b in
  needs_recovery
  = (Fs_Exists fs (GetTabletWalRecoveryDir tablet_id)
     || Fs_Exists fs (GetTabletWalDir tablet_id)
        && existsb IsLogFileName (Fs_ListDir fs (GetTabletWalDir tablet_id)).2)
  ∧ b' = set_fs_manager (fs_manager b') b.
Proof.
  intros Ht Hrun tablet_id fs. split.
  - unfold PrepareRecoveryDir in Hrun.
    unfold bind at 1, deref at 1 in Hrun. rewrite Ht in Hrun.
    unfold bind at 1, gets at 1 in Hrun. fold tablet_id fs in Hrun.
    destruct (Fs_Exists fs (GetTabletWalRecoveryDir tablet_id)).
    + apply bind_Ret_inv in Hrun as (? & ? & _ & Hret). by injection Hret as <- _.
    + destruct (Fs_Exists fs (GetTabletWalDir tablet_id)); simpl in *.
      * destruct (Fs_ListDir fs (GetTabletWalDir tablet_id)) as [st children].
        apply bind_Ret_inv in Hrun as (? & ? & _ & Hrun).
        apply bind_Ret_inv in Hrun as (? & ? & _ & Hret).
        by injection Hret as <- _.
      * apply bind_Ret_inv in Hrun as (? & ? & _ & Hret). by injection Hret as <- _.
  - pose proof (only_fs_PrepareRecoveryDir b) as Hfs. by rewrite Hrun in Hfs.
Qed.

(** X18.  When FetchLogSegments returns OK, its answer is the one of
    PrepareRecoveryDir.  When no recovery is needed it has changed nothing
    but the file system, and the log reader is as it was; when a recovery is
    needed, the log reader is the one that OpenFromRecoveryDir returned with
    status OK on the file system as PrepareRecoveryDir left it. *)
Theorem FetchLogSegments_opens_reader_when_needed
    (b b' : TabletBootstrap) (t : TabletT) (needs_recovery : bool) :
  tablet_ b = Some t →
  FetchLogSegments b = (Ret needs_recovery, b') →
  ∃ b1,
    PrepareRecoveryDir b = (Ret needs_recovery, b1)
    ∧ if needs_recovery then
        let opened :=
          LogReader_OpenFromRecoveryDir (fs_manager b1)
            (TabletMetadata.oid (Tablet_metadata t)) in
        StatusNS.ok opened.1 = true ∧ b' = set_log_reader_ opened.2 b1
      else b' = b1 ∧ log_reader_ b' = log_reader_ b.
Proof.
  intros Ht Hrun. unfold FetchLogSegments in Hrun.
  apply bind_Ret_inv in Hrun as (needs & b1 & Hprep & Hrest).
  pose proof (only_fs_PrepareRecoveryDir b) as Hfs. rewrite Hprep in Hfs.
  simpl in Hfs.
  destruct needs; simpl in Hrest.
  - unfold bind at 1, deref at 1 in Hrest.
    assert (tablet_ b1 = Some t) as Ht1 by (rewrite Hfs; by destruct b).
    rewrite Ht1 in Hrest. unfold bind at 1, gets at 1 in Hrest.
    destruct (LogReader_OpenFromRecoveryDir (fs_manager b1)
                (TabletMetadata.oid (Tablet_metadata t))) as [st reader] eqn:Hopen.
    unfold bind at 1, modify at 1 in Hrest.
    unfold bind, RETURN_NOT_OK_PREPEND, RETURN_NOT_OK in Hrest.
    destruct (StatusNS.ok st) eqn:Hok; [|done].
    unfold ret in Hrest. injection Hrest as <- <-.
    exists b1. split; [done|]. cbv zeta. by rewrite Hopen.
  - unfold ret in Hrest. injection Hrest as <- <-.
    exists b1. split; [done|]. split; [done|].
    rewrite Hfs. by destruct b.
Qed.

(** ** The orchestrator *)

Lemma preserves_Ret {S A} (Q : S → Prop) (m : M S A) (s s' : S) (r : Outcome A) :
  preserves Q m → Q s → m s = (r, s') → Q s'.
Proof. intros Hm Hs Hrun. specialize (Hm s Hs). by rewrite Hrun in Hm. Qed.

Lemma OpenNewLog_Ret (b b' : TabletBootstrap) (u : unit) :
  OpenNewLog b = (Ret u, b') → non_null b'.
Proof.
  unfold OpenNewLog, non_null. unfold_monad.
  destruct (tablet_ b) as [t|] eqn:Ht; [|done].
  destruct (Log_Open (fs_manager b) (Tablet_tablet_id t)) as [[st l] fs'].
  simpl. destruct (StatusNS.ok st); simpl; [|done].
  destruct l as [l|]; simpl; [|done].
  intros [= ?]; subst b'. destruct b; simpl in *. split; by eexists.
Qed.

Ltac non_null_step :=
  first
    [ apply preserves_ret | apply preserves_fail | apply preserves_crash
    | apply preserves_get | apply preserves_gets | apply preserves_deref
    | apply preserves_RETURN_NOT_OK | apply preserves_PREPEND
    | apply preserves_modify; intros [] [? ?]; split; simpl in *; by eauto
    | apply preserves_bind; [|intros ?]
    | match goal with
      | |- preserves _ (match ?x with _ => _ end) => destruct x
      end ].

Lemma non_null_on_tablet (f : TabletT → Status * TabletT) :
  preserves non_null (on_tablet f).
Proof. unfold on_tablet. repeat non_null_step. Qed.

Lemma non_null_on_fs (f : FsT → Status * FsT) : preserves non_null (on_fs f).
Proof. unfold on_fs. repeat non_null_step. Qed.

Lemma non_null_RemoveRecoveryDir : preserves non_null RemoveRecoveryDir.
Proof.
  unfold RemoveRecoveryDir. repeat first [apply non_null_on_fs | non_null_step].
Qed.

Lemma non_null_StatusMessage (status : string) :
  preserves non_null (StatusMessage status).
Proof. unfold StatusMessage. repeat non_null_step. Qed.

Lemma PlaySegments_Ret_non_null (info0 info : ConsensusBootstrapInfo.t)
    (b b' : TabletBootstrap) :
  PlaySegments info0 b = (Ret info, b') → non_null b'.
Proof.
  unfold PlaySegments. intros (u & b1 & Hopen & Hrest)%bind_Ret_inv.
  apply PREPEND_Ret_inv, OpenNewLog_Ret in Hopen.
  eapply (preserves_Ret non_null); [|exact Hopen|exact Hrest].
  repeat first
    [ apply preserves_with_local, stable_play_segments;
      [apply non_null_stable | by intros [] ? [? ?]]
    | non_null_step ].
Qed.

Lemma hand_out_spec (info : ConsensusBootstrapInfo.t) (b b' : TabletBootstrap)
    (out : BootstrapOutputs) :
  hand_out info b = (Ret out, b') →
  out = mkBootstrapOutputs (tablet_ b) (log_ b) (opid_anchor_registry_ b) info
  ∧ tablet_ b' = None ∧ log_ b' = None ∧ listener_ b' = listener_ b.
Proof.
  unfold hand_out. unfold_monad. intros [= <- <-]. by destruct b.
Qed.

(* A Bootstrap that returns OK has reached the hand-over with the tablet
   and the new log in place. *)
Lemma Bootstrap_cases_Ret (tablet_id : string) (fetched_blocks needs_recovery : bool)
    (info : ConsensusBootstrapInfo.t) (b b' : TabletBootstrap)
    (out : BootstrapOutputs) :
  Bootstrap_cases tablet_id fetched_blocks needs_recovery info b = (Ret out, b') →
  ∃ b2, non_null b2
        ∧ out = mkBootstrapOutputs (tablet_ b2) (log_ b2)
                  (opid_anchor_registry_ b2) (results out)
        ∧ tablet_ b' = None ∧ log_ b' = None.
Proof.
  unfold Bootstrap_cases.
  destruct (negb fetched_blocks && negb needs_recovery).
  - intros (u & b1 & Hopen & Hrest)%bind_Ret_inv.
    apply PREPEND_Ret_inv, OpenNewLog_Ret in Hopen.
    apply bind_Ret_inv in Hrest as (? & b2 & Hunpin & Hrest).
    apply bind_Ret_inv in Hrest as (? & b3 & Hmsg & Hout).
    apply hand_out_spec in Hout as (-> & Ht & Hl & _).
    exists b3. split; [|done].
    eapply (preserves_Ret non_null); [apply non_null_StatusMessage| |exact Hmsg].
    eapply (preserves_Ret non_null); [apply non_null_on_tablet| |exact Hunpin].
    done.
  - destruct (fetched_blocks && negb needs_recovery); [done|].
    intros (info1 & b1 & Hplay & Hrest)%bind_Ret_inv.
    apply PREPEND_Ret_inv, PlaySegments_Ret_non_null in Hplay.
    apply bind_Ret_inv in Hrest as (cmeta & b2 & Hderef & Hrest).
    apply bind_Ret_inv in Hrest as (? & b3 & Hflush & Hrest).
    apply bind_Ret_inv in Hrest as (? & b4 & Hunpin & Hrest).
    apply bind_Ret_inv in Hrest as (? & b5 & Hremove & Hrest).
    apply bind_Ret_inv in Hrest as (? & b6 & Hmsg & Hout).
    apply hand_out_spec in Hout as (-> & Ht & Hl & _).
    exists b6. split; [|done].
    eapply (preserves_Ret non_null); [apply non_null_StatusMessage| |exact Hmsg].
    eapply (preserves_Ret non_null); [apply non_null_RemoveRecoveryDir| |exact Hremove].
    eapply (preserves_Ret non_null); [apply non_null_on_tablet| |exact Hunpin].
    eapply (preserves_Ret non_null); [|  |exact Hflush].
    { apply preserves_modify. intros [] [? ?]; split; simpl in *; by eauto. }
    eapply (preserves_Ret non_null); [apply preserves_deref| |exact Hderef].
    done.
Qed.

(** X19.  When Bootstrap returns OK, the tablet and the log it hands out
    are not null, and the bootstrap object has given them up.  So the
    dereference of the rebuilt log in BootstrapTablet is safe:
    BootstrapTablet then returns what ReEnableSyncIfRequired returns on
    that log, and hands out the log this call left. *)
Theorem Bootstrap_hands_out_tablet_and_log
    (info : ConsensusBootstrapInfo.t) (b b' : TabletBootstrap)
    (out : BootstrapOutputs) :
  Bootstrap info b = (Ret out, b') →
  is_Some (rebuilt_tablet out)
  ∧ tablet_ b' = None ∧ log_ b' = None
  ∧ ∃ l, rebuilt_log out = Some l
         ∧ BootstrapTablet info b
           = (if StatusNS.ok (Log_ReEnableSyncIfRequired l).1
              then Ret (mkBootstrapOutputs (rebuilt_tablet out)
                          (Some (Log_ReEnableSyncIfRequired l).2)
                          (opid_anchor_registry out) (results out))
              else Fail (Log_ReEnableSyncIfRequired l).1,
              b').
Proof.
  intros Hrun. pose proof Hrun as Hrun'. unfold Bootstrap in Hrun'.
  apply bind_Ret_inv in Hrun' as (? & ? & [= <- <-] & Hrest).
  apply bind_Ret_inv in Hrest as (r & b1 & _ & Hcases).
  apply Bootstrap_cases_Ret in Hcases as (b2 & [Ht [l Hl]] & Hout & Ht' & Hl').
  assert (rebuilt_log out = Some l) as Hlog by (rewrite Hout; simpl; done).
  split; [by rewrite Hout|]. split; [done|]. split; [done|].
  exists l. split; [done|].
  unfold BootstrapTablet. unfold bind at 1. rewrite Hrun, Hlog.
  destruct (Log_ReEnableSyncIfRequired l) as [st l']. simpl.
  unfold_monad. by destruct (StatusNS.ok st).
Qed.

(** X20.  For a tablet without row-sets and without a log to recover,
    Bootstrap, when it returns OK, reports (0,0) both as last_id and as
    last_committed_id, leaves the orphaned replicates of the result as they
    came, and has told the listener "No bootstrap required, opened a new
    log". *)
Theorem Bootstrap_of_fresh_tablet
    (info : ConsensusBootstrapInfo.t) (b b1 b' : TabletBootstrap)
    (out : BootstrapOutputs) :
  Bootstrap_fetch (TabletMetadata.oid (meta_ b)) b = (Ret (false, false), b1) →
  Bootstrap info b = (Ret out, b') →
  results out
  = ConsensusBootstrapInfo.mk MinimumOpId MinimumOpId
      (ConsensusBootstrapInfo.orphaned_replicates info)
  ∧ listener_ b' = "No bootstrap required, opened a new log".
Proof.
  intros Hfetch Hrun. unfold Bootstrap in Hrun.
  unfold bind at 1, get at 1 in Hrun. unfold bind at 1 in Hrun.
  rewrite Hfetch in Hrun. unfold Bootstrap_cases in Hrun. simpl in Hrun.
  apply bind_Ret_inv in Hrun as (? & b2 & _ & Hrest).
  apply bind_Ret_inv in Hrest as (? & b3 & _ & Hrest).
  apply bind_Ret_inv in Hrest as (? & b4 & Hmsg & Hout).
  apply hand_out_spec in Hout as (-> & _ & _ & Hlistener).
  split; [done|]. rewrite Hlistener.
  unfold StatusMessage, modify in Hmsg. injection Hmsg as _ <-. by destruct b3.
Qed.

(** X21.  When a recovery is needed and Bootstrap returns OK, the
    consensus information it hands out is what PlaySegments returned on the
    bootstrap object as the fetch of the blocks and of the log segments left
    it, and the listener has been told "Bootstrap complete.". *)
Theorem Bootstrap_after_recovery
    (info : ConsensusBootstrapInfo.t) (b b1 b' : TabletBootstrap)
    (out : BootstrapOutputs) (fetched_blocks : bool) :
  Bootstrap_fetch (TabletMetadata.oid (meta_ b)) b
    = (Ret (fetched_blocks, true), b1) →
  Bootstrap info b = (Ret out, b') →
  (∃ b2, PlaySegments info b1 = (Ret (results out), b2))
  ∧ listener_ b' = "Bootstrap complete.".
Proof.
  intros Hfetch Hrun. unfold Bootstrap in Hrun.
  unfold bind at 1, get at 1 in Hrun. unfold bind at 1 in Hrun.
  rewrite Hfetch in Hrun. unfold Bootstrap_cases in Hrun. simpl in Hrun.
  rewrite !andb_false_r in Hrun.
  apply bind_Ret_inv in Hrun as (info1 & b2 & Hplay%PREPEND_Ret_inv & Hrest).
  apply bind_Ret_inv in Hrest as (? & b3 & _ & Hrest).
  apply bind_Ret_inv in Hrest as (? & b4 & _ & Hrest).
  apply bind_Ret_inv in Hrest as (? & b5 & _ & Hrest).
  apply bind_Ret_inv in Hrest as (? & b6 & _ & Hrest).
  apply bind_Ret_inv in Hrest as (? & b7 & Hmsg & Hout).
  apply hand_out_spec in Hout as (-> & _ & _ & Hlistener).
  split; [by exists b2|]. rewrite Hlistener.
  unfold StatusMessage, modify in Hmsg. injection Hmsg as _ <-. by destruct b6.
Qed.

(** X22.  When the consensus metadata loads but the tablet metadata is not
    in state REMOTE_BOOTSTRAP_DONE, Bootstrap returns Corruption at once:
    the metadata is not pinned, no tablet is opened and the file system is
    not touched; only the loaded consensus metadata is kept. *)
Theorem Bootstrap_refuses_unfinished_remote_bootstrap
    (info : ConsensusBootstrapInfo.t) (b : TabletBootstrap) :
  let tablet_id := TabletMetadata.oid (meta_ b) in
  let loaded := ConsensusMetadata_Load (fs_manager b) tablet_id in
  StatusNS.ok loaded.1 = true →
  TabletMetadata.remote_bootstrap_state (meta_ b) ≠ REMOTE_BOOTSTRAP_DONE →
  Bootstrap info b
  = (Fail (StatusNS.Corruption
             ("Unable to locally bootstrap tablet " +:+ tablet_id +:+ ": " +:+
              "TabletMetadata bootstrap state is " +:+
              TabletBootstrapStatePB_Name
                (TabletMetadata.remote_bootstrap_state (meta_ b)))),
     set_cmeta_ loaded.2 b).
Proof.
  intros tablet_id loaded Hok Hstate. subst loaded tablet_id.
  unfold Bootstrap, Bootstrap_fetch.
  unfold bind at 1, get at 1. unfold bind at 1. unfold bind at 1, get at 1.
  destruct (ConsensusMetadata_Load (fs_manager b) (TabletMetadata.oid (meta_ b)))
    as [st cmeta].
  simpl in Hok. unfold bind at 1, modify at 1. unfold bind at 1.
  unfold RETURN_NOT_OK_PREPEND, RETURN_NOT_OK. rewrite Hok.
  unfold ret at 1.
  replace (meta_ (set_cmeta_ cmeta b)) with (meta_ b) by (by destruct b).
  by rewrite bool_decide_eq_false_2.
Qed.

(** ** The debug information of an entry *)

Lemma string_length_append (a b : string) :
  String.length (a +:+ b) = (String.length a + String.length b)%nat.
Proof. induction a as [|c a IH]; simpl; [done|]. by rewrite IH. Qed.

Lemma substring_0_length (n : nat) (s : string) :
  (n ≤ String.length s)%nat → String.length (String.substring 0 n s) = n.
Proof.
  revert s. induction n as [|n IH]; intros s Hn.
  - by destruct s.
  - destruct s as [|c s]; simpl in *; [lia|]. rewrite IH; [done|lia].
Qed.

Lemma substring_0_prefix (n : nat) (s : string) :
  ∃ rest, s = String.substring 0 n s +:+ rest.
Proof.
  revert s. induction n as [|n IH]; intros s.
  - exists s. by destruct s.
  - destruct s as [|c s]; simpl; [by exists ""|].
    destruct (IH s) as [rest Hrest]. exists rest. cbn.
    change (String c s = String c (String.substring 0 n s +:+ rest)). by f_equal.
Qed.

(** X23.  DebugInfo shows the debug string of the entry in full when it
    has at most 500 characters, and otherwise its first 500 characters
    followed by "...": what it shows of the entry never exceeds 503
    characters. *)
Theorem DebugInfo_truncates_the_entry
    (tablet_id : string) (segment_seqno entry_idx : Z) (segment_path : string)
    (entry : LogEntryPB.t) :
  let debug_str := LogEntryPB_ShortDebugString entry in
  ∃ shown,
    DebugInfo tablet_id segment_seqno entry_idx segment_path entry
    = "Debug Info: Error playing entry " +:+ pretty entry_idx +:+
      " of segment " +:+ pretty segment_seqno +:+
      " of tablet " +:+ tablet_id +:+
      ". Segment path: " +:+ segment_path +:+
      ". Entry: " +:+ shown
    ∧ (String.length shown ≤ 503)%nat
    ∧ if bool_decide (String.length debug_str ≤ 500)%nat
      then shown = debug_str
      else ∃ first rest,
             debug_str = first +:+ rest
             ∧ String.length first = 500%nat
             ∧ shown = first +:+ "...".
Proof.
  intros debug_str. unfold DebugInfo. fold debug_str.
  destruct (bool_decide_reflect (500 < String.length debug_str)%nat) as [Hlong|Hshort].
  - eexists. split; [reflexivity|].
    assert (String.length (String.substring 0 500 debug_str) = 500%nat) as Hlen
      by (apply substring_0_length; lia).
    split.
    + rewrite string_length_append, Hlen.
      change (String.length "...") with 3%nat. lia.
    + rewrite bool_decide_eq_false_2 by lia.
      destruct (substring_0_prefix 500 debug_str) as [rest Hrest].
      exists (String.substring 0 500 debug_str), rest. done.
  - eexists. split; [reflexivity|]. split; [lia|].
    by rewrite bool_decide_eq_true_2 by lia.
Qed.

End MoreProperties.

(** * The properties on the in-memory tablet server *)

Import InMemory Scenarios.
#[local] Existing Instance collaborators.

(* C9 at an OPERATION entry with no payload. *)
Lemma HandleEntry_operation_without_payload_witness :
  LogEntryPB.type empty_entry = OPERATION
  ∧ OperationPB.has_replicate (LogEntryPB.operation empty_entry) = false
  ∧ OperationPB.has_commit (LogEntryPB.operation empty_entry) = false
  ∧ HandleEntry empty_entry after_r11 = (Ret tt, after_r11).
Proof.
  split; [reflexivity|]. split; [reflexivity|]. split; [reflexivity|].
  apply (@HandleEntry_operation_without_payload collaborators);
    reflexivity.
Defined.

(* C6 at the abort of the write (1,1). *)
Lemma HandleEntryPair_abort_touches_nothing_witness :
  CommitMsg.op_type (OperationPB.commit (LogEntryPB.operation abort11)) = OP_ABORT
  ∧ HandleEntryPair r11 abort11 idle = (Ret tt, idle).
Proof.
  split; [reflexivity|].
  apply (@HandleEntryPair_abort_touches_nothing collaborators). reflexivity.
Defined.

(* C10 at a second replicate (0,0): the first one left prev_op_id at (0,0),
   so the sequence check lets the second through. *)
Lemma HandleReplicateMessage_duplicate_after_append_witness :
  may_follow (prev_op_id after_r00.2) (entry_id r00)
  ∧ log_ after_r00.1 = Some (mkLog [r00] true)
  ∧ pending_replicates after_r00.2 !! entry_id r00 = Some r00
  ∧ HandleReplicateMessage r00 after_r00
    = (Fail (StatusNS.Corruption2 "Found previous entry with the same id"
               "replicate term: 0 index: 0"),
       (set_log_ (Some (mkLog [r00; r00] true)) after_r00.1, after_r00.2)).
Proof.
  split; [by left|]. split; [reflexivity|]. split; [reflexivity|].
  apply (@HandleReplicateMessage_duplicate_after_append collaborators
           r00 r00 after_r00.1 after_r00.2 (mkLog [r00] true)).
  - by left.
  - reflexivity.
  - reflexivity.
Defined.


(* C8, as the code has it, at the replicate (1,3) after (1,1). *)
Lemma out_of_sequence_replicate_is_corruption_witness :
  prev_op_id after_r11.2 = mkOpId 1 1
  ∧ entry_id r13 = mkOpId 1 3
  ∧ ∃ s, HandleReplicateMessage r13 after_r11 = (Fail s, after_r11)
         ∧ code s = kCorruption
         ∧ message s
           = "Unexpected opid following opid term: 1 index: 1. Operation: 1,3 REPLICATE (Type: WRITE_OP)"
         ∧ contains "Unexpected opid following opid term: 1 index: 1"
             (message s) = true.
Proof.
  split; [reflexivity|]. split; [reflexivity|].
  apply (@out_of_sequence_replicate_is_corruption collaborators
           r13 after_r11.1 after_r11.2); reflexivity.
Defined.

(** C8, as the spec states it, fails: the replicate (1,1) is accepted, the
    replicate (1,3) that follows is refused with a Corruption status, and
    the text "Unexpected opid following 1,1" is not in its message. *)
Lemma out_of_sequence_message_counterexample :
  HandleReplicateMessage r11 (idle, ReplayState_new) = (Ret tt, after_r11)
  ∧ ∃ s, HandleReplicateMessage r13 after_r11 = (Fail s, after_r11)
         ∧ code s = kCorruption
         ∧ contains "Unexpected opid following 1,1" (message s) = false.
Proof.
  split; [reflexivity|].
  eexists. split; [reflexivity|]. split; reflexivity.
Qed.

(** C2.  The orphan commit of (1,1), whose row went to memrowset 1, comes
    from a segment whose read returned it together with an error, as
    PlaySegments hands it over; nothing is durable, so its mutated store is
    not flushed.  The claim has the handling fail with a Corruption status.
    The dump of the log that precedes the error reads the segment again
    under CHECK_OK, and the process is aborted instead: HandleCommitMessage
    returns no status, and neither does PlaySegments on that log. *)
Lemma orphan_commit_on_truncated_segment_aborts :
  let b := replaying 0 truncated_log in
  pending_replicates ReplayState_new !! entry_commited_op_id c11 = None
  ∧ (∃ store,
       store ∈ commit_mutated_stores
                 (OperationPB.commit (LogEntryPB.operation c11))
       ∧ WasStoreAlreadyFlushed (tablet_meta 0 ∅) store = false)
  ∧ (HandleCommitMessage c11 (b, ReplayState_new)).1 = Crash
  ∧ (PlaySegments fresh_info b).1 = Crash.
Proof.
  split; [reflexivity|]. split.
  - exists (MemStoreTargetPB.MRS 1). split; [|reflexivity].
    apply list_elem_of_In. by left.
  - split; reflexivity.
Qed.

(* C7 at a tablet with one row-set and no log directory. *)
Lemma Bootstrap_rowsets_without_log_is_illegal_witness :
  Bootstrap_fetch (TabletMetadata.oid (meta_ flushed_tablet)) flushed_tablet
    = (Ret (true, false), flushed_tablet_fetched)
  ∧ Bootstrap fresh_info flushed_tablet
    = (Fail (StatusNS.IllegalState
               "Tablet: tablet-1 had rowsets but no log segments could be found."),
       flushed_tablet_fetched)
  ∧ log_ flushed_tablet_fetched = log_ flushed_tablet.
Proof.
  assert (Hf : Bootstrap_fetch (TabletMetadata.oid (meta_ flushed_tablet))
                 flushed_tablet
               = (Ret (true, false), flushed_tablet_fetched)) by reflexivity.
  split; [exact Hf|].
  apply (@Bootstrap_rowsets_without_log_is_illegal collaborators
           fresh_info flushed_tablet flushed_tablet_fetched Hf).
Defined.

(* C4 on three replicates and the commit of the first: the replicates
   (1,2) and (1,3) stay pending. *)
Lemma PlaySegments_result_witness :
  let info :=
    ConsensusBootstrapInfo.mk (mkOpId 1 3) (mkOpId 1 1)
      [LogEntryPB.operation r13; LogEntryPB.operation r12] in
  ConsensusBootstrapInfo.orphaned_replicates fresh_info = []
  ∧ log_reader_ (replaying 0 two_orphans_log) = Some (reader two_orphans_log)
  ∧ PlaySegments fresh_info (replaying 0 two_orphans_log)
    = (Ret info, after_two_orphans_log)
  ∧ ∃ st : ReplayState,
      accepts_all ReplayState_new [r11; r12; r13; c11] st
      ∧ ConsensusBootstrapInfo.last_id info = prev_op_id st
      ∧ ConsensusBootstrapInfo.last_id info
        = last_replicate_id MinimumOpId [r11; r12; r13; c11]
      ∧ ConsensusBootstrapInfo.last_committed_id info = committed_op_id st
      ∧ ConsensusBootstrapInfo.last_committed_id info
        = max_commited_op_id MinimumOpId [r11; r12; r13; c11]
      ∧ ConsensusBootstrapInfo.orphaned_replicates info
        ≡ₚ pending_operations (pending_replicates st)
      ∧ (∀ op, op ∈ ConsensusBootstrapInfo.orphaned_replicates info
               ↔ ∃ i e, never_matched [r11; r12; r13; c11] i e
                        ∧ LogEntryPB.operation e = op).
Proof.
  intros info.
  assert (Hplay : PlaySegments fresh_info (replaying 0 two_orphans_log)
                  = (Ret info, after_two_orphans_log)) by reflexivity.
  split; [reflexivity|]. split; [reflexivity|]. split; [exact Hplay|].
  apply (@PlaySegments_result collaborators fresh_info info
           (replaying 0 two_orphans_log) after_two_orphans_log
           (reader two_orphans_log) eq_refl eq_refl Hplay).
Defined.

(** Scenarios 2 and 3 of the spec on the in-memory server: the write (1,1)
    and its commit.  When memrowset 1 is not durable the row is applied
    again; when it is, the row is filtered out.  In both cases the new log
    receives the replicate and a commit. *)
Example clean_replay_applies_the_row :
  let b := (PlaySegments fresh_info
              (replaying 0 [segment StatusNS.OK [r11; c11]])).2 in
  (memrowset <$> tablet_ b) = Some ["rowA"]
  ∧ (length ∘ entries <$> log_ b) = Some 2%nat
  ∧ clock_ b = 5.
Proof. repeat split; reflexivity. Qed.

Example flushed_row_is_skipped :
  let b := (PlaySegments fresh_info
              (replaying 5 [segment StatusNS.OK [r11; c11]])).2 in
  (memrowset <$> tablet_ b) = Some []
  ∧ (length ∘ entries <$> log_ b) = Some 2%nat
  ∧ clock_ b = 5.
Proof. repeat split; reflexivity. Qed.

(** ** The further properties on the in-memory tablet server *)

(* X1 on scenario 4: the replicates (1,1) and (1,2). *)
Lemma replayed_replicates_are_in_sequence_witness :
  log_reader_ (replaying 0 orphan_replicate_log)
    = Some (reader orphan_replicate_log)
  ∧ PlaySegments fresh_info (replaying 0 orphan_replicate_log)
    = (Ret (ConsensusBootstrapInfo.mk (mkOpId 1 2) (mkOpId 1 1)
              [LogEntryPB.operation r12]),
       after_orphan_replicate_log)
  ∧ in_sequence MinimumOpId (replicate_ids [r11; r12; c11]).
Proof.
  split; [reflexivity|]. split; [reflexivity|].
  apply (@replayed_replicates_are_in_sequence collaborators fresh_info
           (ConsensusBootstrapInfo.mk (mkOpId 1 2) (mkOpId 1 1)
              [LogEntryPB.operation r12])
           (replaying 0 orphan_replicate_log) after_orphan_replicate_log
           (reader orphan_replicate_log)); reflexivity.
Defined.

Lemma scenario_4_ids_nonneg (e : LogEntryPB.t) :
  e ∈ [r11; r12; c11] → is_replicate_entry e = true → nonneg (entry_id e).
Proof.
  intros He _. apply list_elem_of_In in He.
  destruct He as [<-|[<-|[<-|[]]]]; split; simpl; lia.
Qed.

(* X2 on scenario 4: last_id is (1,2). *)
Lemma last_id_dominates_replicates_witness :
  log_reader_ (replaying 0 orphan_replicate_log)
    = Some (reader orphan_replicate_log)
  ∧ PlaySegments fresh_info (replaying 0 orphan_replicate_log)
    = (Ret (ConsensusBootstrapInfo.mk (mkOpId 1 2) (mkOpId 1 1)
              [LogEntryPB.operation r12]),
       after_orphan_replicate_log)
  ∧ (∀ e, e ∈ [r11; r12; c11] → is_replicate_entry e = true →
          nonneg (entry_id e))
  ∧ (∀ e, e ∈ [r11; r12; c11] → is_replicate_entry e = true →
          OpId_le (entry_id e) (mkOpId 1 2)).
Proof.
  split; [reflexivity|]. split; [reflexivity|].
  split; [exact scenario_4_ids_nonneg|].
  apply (@last_id_dominates_replicates collaborators fresh_info
           (ConsensusBootstrapInfo.mk (mkOpId 1 2) (mkOpId 1 1)
              [LogEntryPB.operation r12])
           (replaying 0 orphan_replicate_log) after_orphan_replicate_log
           (reader orphan_replicate_log));
    [reflexivity | reflexivity | exact scenario_4_ids_nonneg].
Defined.

(* X3 at a second replicate (0,0) after the first was played. *)
Lemma duplicate_id_only_at_minimum_witness :
  play_entries (segment StatusNS.OK [r00]) 0 [r00] (idle, ReplayState_new)
    = (Ret tt, played_r00)
  ∧ (∀ e, e ∈ [r00] → is_replicate_entry e = true → nonneg (entry_id e))
  ∧ may_follow (prev_op_id played_r00.2) (entry_id r00)
  ∧ pending_replicates played_r00.2 !! entry_id r00 = Some r00
  ∧ entry_id r00 = mkOpId 0 0.
Proof.
  assert (Hnn : ∀ e, e ∈ [r00] → is_replicate_entry e = true →
                     nonneg (entry_id e)).
  { intros e He _. apply list_elem_of_In in He.
    destruct He as [<-|[]]; split; simpl; lia. }
  split; [reflexivity|]. split; [exact Hnn|]. split; [by left|].
  split; [reflexivity|].
  apply (@duplicate_id_only_at_minimum collaborators
           (segment StatusNS.OK [r00]) [r00] idle played_r00.1 played_r00.2 tt
           r00 r00);
    [reflexivity | exact Hnn | by left | reflexivity].
Defined.

(* X4 on scenario 4: last_committed_id is (1,1), the id of the commit. *)
Lemma last_committed_id_dominates_commits_witness :
  log_reader_ (replaying 0 orphan_replicate_log)
    = Some (reader orphan_replicate_log)
  ∧ PlaySegments fresh_info (replaying 0 orphan_replicate_log)
    = (Ret (ConsensusBootstrapInfo.mk (mkOpId 1 2) (mkOpId 1 1)
              [LogEntryPB.operation r12]),
       after_orphan_replicate_log)
  ∧ (∀ c, c ∈ [r11; r12; c11] → is_commit_entry c = true →
          OpId_le (entry_commited_op_id c) (mkOpId 1 1))
  ∧ (mkOpId 1 1 = MinimumOpId
     ∨ ∃ c, c ∈ [r11; r12; c11] ∧ is_commit_entry c = true
            ∧ entry_commited_op_id c = mkOpId 1 1).
Proof.
  split; [reflexivity|]. split; [reflexivity|].
  apply (@last_committed_id_dominates_commits collaborators fresh_info
           (ConsensusBootstrapInfo.mk (mkOpId 1 2) (mkOpId 1 1)
              [LogEntryPB.operation r12])
           (replaying 0 orphan_replicate_log) after_orphan_replicate_log
           (reader orphan_replicate_log)); reflexivity.
Defined.

(* X5 on scenario 4. *)
Lemma PlaySegments_ok_only_on_clean_log_witness :
  log_reader_ (replaying 0 orphan_replicate_log)
    = Some (reader orphan_replicate_log)
  ∧ PlaySegments fresh_info (replaying 0 orphan_replicate_log)
    = (Ret (ConsensusBootstrapInfo.mk (mkOpId 1 2) (mkOpId 1 1)
              [LogEntryPB.operation r12]),
       after_orphan_replicate_log)
  ∧ StatusNS.ok (LogReader.GetSegmentsSnapshot (reader orphan_replicate_log)).1
    = true
  ∧ Forall (λ seg, StatusNS.ok (ReadableLogSegment.ReadEntries seg).1 = true)
      orphan_replicate_log
  ∧ Forall (λ e, LogEntryPB.type e = OPERATION) [r11; r12; c11].
Proof.
  split; [reflexivity|]. split; [reflexivity|].
  apply (@PlaySegments_ok_only_on_clean_log collaborators fresh_info
           (ConsensusBootstrapInfo.mk (mkOpId 1 2) (mkOpId 1 1)
              [LogEntryPB.operation r12])
           (replaying 0 orphan_replicate_log) after_orphan_replicate_log
           (reader orphan_replicate_log)); reflexivity.
Defined.

(* X8 at the delta store 2 of row-set 0, after a flush that moved the
   row-set from delta store 2 to 4 and the memrowset from 1 to 3. *)
Lemma WasStoreAlreadyFlushed_monotone_witness :
  metadata_advanced (tablet_meta 1 {[ 0 := RowSetMetadata.mk 2 ]})
    (tablet_meta 3 {[ 0 := RowSetMetadata.mk 4 ]})
  ∧ WasStoreAlreadyFlushed (tablet_meta 1 {[ 0 := RowSetMetadata.mk 2 ]})
      (MemStoreTargetPB.DRS 0 2) = true
  ∧ WasStoreAlreadyFlushed (tablet_meta 3 {[ 0 := RowSetMetadata.mk 4 ]})
      (MemStoreTargetPB.DRS 0 2) = true.
Proof.
  assert (Hadv : metadata_advanced (tablet_meta 1 {[ 0 := RowSetMetadata.mk 2 ]})
                   (tablet_meta 3 {[ 0 := RowSetMetadata.mk 4 ]})).
  { split; [simpl; lia|].
    intros id rs' Hl. simpl in Hl.
    apply lookup_singleton_Some in Hl as [<- <-].
    exists (RowSetMetadata.mk 2). split; [reflexivity | simpl; lia]. }
  split; [exact Hadv|]. split; [reflexivity|].
  apply (WasStoreAlreadyFlushed_monotone
           (tablet_meta 1 {[ 0 := RowSetMetadata.mk 2 ]})
           (tablet_meta 3 {[ 0 := RowSetMetadata.mk 4 ]})
           (MemStoreTargetPB.DRS 0 2) Hadv).
  reflexivity.
Defined.

(* X9 at an update whose delta store belonged to a row-set that is no
   longer there. *)
Lemma FilterMutate_outcomes_witness :
  tablet_ durable5 = Some (mkTablet (tablet_meta 5 ∅) [])
  ∧ FilterMutate (RowOp.mk UPDATE "rowA" None)
      (OperationResultPB.mk false "" [MemStoreTargetPB.DRS 0 2]) durable5
    = (Ret (SetFailed (StatusNS.AlreadyPresent "Update was already flushed.")
              (RowOp.mk UPDATE "rowA" None)),
       durable5).
Proof.
  split; [reflexivity|].
  exact (@FilterMutate_outcomes collaborators (RowOp.mk UPDATE "rowA" None)
           (OperationResultPB.mk false "" [MemStoreTargetPB.DRS 0 2]) durable5
           (mkTablet (tablet_meta 5 ∅) []) eq_refl).
Defined.

(* X10 at an insert into memrowset 1 of a tablet whose memrowset 5 is
   durable. *)
Lemma FilterInsert_outcomes_witness :
  tablet_ durable5 = Some (mkTablet (tablet_meta 5 ∅) [])
  ∧ FilterInsert (RowOp.mk INSERT "rowA" None)
      (OperationResultPB.mk false "" [MemStoreTargetPB.MRS 1]) durable5
    = (Ret (SetFailed (StatusNS.AlreadyPresent "Row to insert was already flushed.")
              (RowOp.mk INSERT "rowA" None)),
       durable5).
Proof.
  split; [reflexivity|].
  exact (@FilterInsert_outcomes collaborators (RowOp.mk INSERT "rowA" None)
           (OperationResultPB.mk false "" [MemStoreTargetPB.MRS 1]) durable5
           (mkTablet (tablet_meta 5 ∅) []) eq_refl).
Defined.

(* X11 at the write of scenario 3: its row went to memrowset 1 and
   memrowset 5 is durable. *)
Lemma FilterAndApplyOperations_all_filtered_out_witness :
  tablet_ durable5 = Some (mkTablet (tablet_meta 5 ∅) [])
  ∧ length (WriteTransactionState.row_ops decoded_write)
    = length (TxResultPB.ops write_result)
  ∧ (∀ j op r,
       WriteTransactionState.row_ops decoded_write !! j = Some op →
       TxResultPB.ops write_result !! j = Some r →
       filtered_out (tablet_meta 5 ∅) op r = true)
  ∧ ∃ tx',
      FilterAndApplyOperations decoded_write write_result durable5
      = (Ret tx', durable5)
      ∧ length (WriteTransactionState.row_ops tx')
        = length (WriteTransactionState.row_ops decoded_write)
      ∧ Forall marked_failed (WriteTransactionState.row_ops tx').
Proof.
  assert (Hall : ∀ j op r,
            WriteTransactionState.row_ops decoded_write !! j = Some op →
            TxResultPB.ops write_result !! j = Some r →
            filtered_out (tablet_meta 5 ∅) op r = true).
  { intros [|j] op r; simpl; [|done]. intros [= <-] [= <-]. reflexivity. }
  split; [reflexivity|]. split; [reflexivity|]. split; [exact Hall|].
  apply (@FilterAndApplyOperations_all_filtered_out collaborators
           decoded_write write_result durable5
           (mkTablet (tablet_meta 5 ∅) []));
    [reflexivity | reflexivity | exact Hall].
Defined.

(* X13 on scenario 4. *)
Lemma play_segments_never_lowers_quorum_seqno_witness :
  cmeta_ (replaying 0 orphan_replicate_log)
    = Some (ConsensusMetadata.mk (QuorumPB.mk 0 ""))
  ∧ ∃ cmeta',
      cmeta_ (play_segments orphan_replicate_log 0
                (replaying 0 orphan_replicate_log, ReplayState_new)).2.1
      = Some cmeta'
      ∧ 0 ≤ QuorumPB.seqno (ConsensusMetadata.committed_quorum cmeta').
Proof.
  split; [reflexivity|].
  apply (@play_segments_never_lowers_quorum_seqno collaborators
           orphan_replicate_log 0
           (replaying 0 orphan_replicate_log, ReplayState_new)
           (ConsensusMetadata.mk (QuorumPB.mk 0 ""))).
  reflexivity.
Defined.

(* X14 at a change to a quorum with sequence number 3, the committed one
   having 0. *)
Lemma PlayChangeConfigRequest_committed_quorum_witness :
  cmeta_ idle = Some (ConsensusMetadata.mk (QuorumPB.mk 0 ""))
  ∧ cmeta_ (PlayChangeConfigRequest (change_config 3) change_config_commit idle).2
    = Some (ConsensusMetadata.mk (QuorumPB.mk 3 "a,b,c")).
Proof.
  split; [reflexivity|].
  exact (@PlayChangeConfigRequest_committed_quorum collaborators
           (change_config 3) change_config_commit idle
           (ConsensusMetadata.mk (QuorumPB.mk 0 "")) eq_refl).
Defined.

(* X16 on the segment (1,1), (1,3), (1,2): the replicate (1,3) at position
   1 is refused. *)
Lemma play_entries_stops_at_refused_entry_witness :
  play_entries (segment StatusNS.OK [r11; r13; r12]) 0 [r11]
    (idle, ReplayState_new) = (Ret tt, after_r11)
  ∧ tablet_ after_r11.1 = Some (mkTablet (tablet_meta 0 ∅) [])
  ∧ ∃ err,
      HandleEntry r13 after_r11 = (Fail err, after_r11)
      ∧ play_entries (segment StatusNS.OK [r11; r13; r12]) 0
          ([r11] ++ r13 :: [r12]) (idle, ReplayState_new)
        = (Fail (StatusNS.CloneAndPrepend
                   (DebugInfo "tablet-1" 1 (0 + Z.of_nat (length [r11]))
                      "/wals/tablet-1.recovery/wal-000001" r13)
                   err),
           after_r11).
Proof.
  split; [reflexivity|]. split; [reflexivity|].
  eexists. split; [reflexivity|].
  apply (@play_entries_stops_at_refused_entry collaborators
           (segment StatusNS.OK [r11; r13; r12]) 0 [r11] [r12] r13
           (idle, ReplayState_new) after_r11 after_r11 tt _
           (mkTablet (tablet_meta 0 ∅) []));
    reflexivity.
Defined.

(* X17 at a tablet with one segment in its log directory and no recovery
   directory. *)
Lemma PrepareRecoveryDir_needs_recovery_witness :
  tablet_ crashed_tablet_opened = Some (mkTablet (tablet_meta 0 ∅) [])
  ∧ PrepareRecoveryDir crashed_tablet_opened = (Ret true, crashed_tablet_prepared)
  ∧ true
    = (Fs_Exists (fs_manager crashed_tablet_opened) "/wals/tablet-1.recovery"
       || Fs_Exists (fs_manager crashed_tablet_opened) "/wals/tablet-1"
          && existsb IsLogFileName
               (Fs_ListDir (fs_manager crashed_tablet_opened) "/wals/tablet-1").2)
  ∧ crashed_tablet_prepared
    = set_fs_manager (fs_manager crashed_tablet_prepared) crashed_tablet_opened.
Proof.
  split; [reflexivity|]. split; [reflexivity|].
  apply (@PrepareRecoveryDir_needs_recovery collaborators
           crashed_tablet_opened crashed_tablet_prepared
           (mkTablet (tablet_meta 0 ∅) []) true); reflexivity.
Defined.

(* X19 at the bootstrap of the tablet with the segment of scenario 4. *)
Lemma Bootstrap_hands_out_tablet_and_log_witness :
  Bootstrap fresh_info crashed_tablet
    = (Ret crashed_tablet_outputs, crashed_tablet_bootstrapped)
  ∧ is_Some (rebuilt_tablet crashed_tablet_outputs)
  ∧ tablet_ crashed_tablet_bootstrapped = None
  ∧ log_ crashed_tablet_bootstrapped = None
  ∧ ∃ l, rebuilt_log crashed_tablet_outputs = Some l
         ∧ BootstrapTablet fresh_info crashed_tablet
           = (if StatusNS.ok (Log_ReEnableSyncIfRequired l).1
              then Ret (mkBootstrapOutputs (rebuilt_tablet crashed_tablet_outputs)
                          (Some (Log_ReEnableSyncIfRequired l).2)
                          (opid_anchor_registry crashed_tablet_outputs)
                          (results crashed_tablet_outputs))
              else Fail (Log_ReEnableSyncIfRequired l).1,
              crashed_tablet_bootstrapped).
Proof.
  split; [reflexivity|].
  apply (@Bootstrap_hands_out_tablet_and_log collaborators fresh_info
           crashed_tablet crashed_tablet_bootstrapped crashed_tablet_outputs).
  reflexivity.
Defined.

(* X20 at a tablet that was just created. *)
Lemma Bootstrap_of_fresh_tablet_witness :
  Bootstrap_fetch (TabletMetadata.oid (meta_ new_tablet)) new_tablet
    = (Ret (false, false), new_tablet_fetched)
  ∧ Bootstrap fresh_info new_tablet
    = (Ret new_tablet_outputs, new_tablet_bootstrapped)
  ∧ results new_tablet_outputs
    = ConsensusBootstrapInfo.mk MinimumOpId MinimumOpId
        (ConsensusBootstrapInfo.orphaned_replicates fresh_info)
  ∧ listener_ new_tablet_bootstrapped
    = "No bootstrap required, opened a new log".
Proof.
  split; [reflexivity|]. split; [reflexivity|].
  apply (@Bootstrap_of_fresh_tablet collaborators fresh_info new_tablet
           new_tablet_fetched new_tablet_bootstrapped new_tablet_outputs);
    reflexivity.
Defined.

(* X22 at a tablet whose metadata says REMOTE_BOOTSTRAP_COPYING. *)
Lemma Bootstrap_refuses_unfinished_remote_bootstrap_witness :
  StatusNS.ok (ConsensusMetadata_Load (fs_manager copying_tablet) "tablet-1").1
    = true
  ∧ TabletMetadata.remote_bootstrap_state (meta_ copying_tablet)
    ≠ REMOTE_BOOTSTRAP_DONE
  ∧ Bootstrap fresh_info copying_tablet
    = (Fail (StatusNS.Corruption
               "Unable to locally bootstrap tablet tablet-1: TabletMetadata bootstrap state is REMOTE_BOOTSTRAP_COPYING"),
       set_cmeta_ (Some (ConsensusMetadata.mk (QuorumPB.mk 0 ""))) copying_tablet).
Proof.
  split; [reflexivity|]. split; [discriminate|].
  apply (@Bootstrap_refuses_unfinished_remote_bootstrap collaborators
           fresh_info copying_tablet); [reflexivity | discriminate].
Defined.

(* X18 at the tablet with one segment in its log directory. *)
Lemma FetchLogSegments_opens_reader_when_needed_witness :
  tablet_ crashed_tablet_opened = Some (mkTablet (tablet_meta 0 ∅) [])
  ∧ FetchLogSegments crashed_tablet_opened
    = (Ret true, crashed_tablet_with_reader)
  ∧ ∃ b1,
      PrepareRecoveryDir crashed_tablet_opened = (Ret true, b1)
      ∧ StatusNS.ok
          (LogReader_OpenFromRecoveryDir (fs_manager b1) "tablet-1").1 = true
      ∧ crashed_tablet_with_reader
        = set_log_reader_
            (LogReader_OpenFromRecoveryDir (fs_manager b1) "tablet-1").2 b1.
Proof.
  split; [reflexivity|]. split; [reflexivity|].
  apply (@FetchLogSegments_opens_reader_when_needed collaborators
           crashed_tablet_opened crashed_tablet_with_reader
           (mkTablet (tablet_meta 0 ∅) []) true); reflexivity.
Defined.

(* X21 at the bootstrap of the tablet with the segment of scenario 4. *)
Lemma Bootstrap_after_recovery_witness :
  Bootstrap_fetch (TabletMetadata.oid (meta_ crashed_tablet)) crashed_tablet
    = (Ret (false, true), crashed_tablet_fetched)
  ∧ Bootstrap fresh_info crashed_tablet
    = (Ret crashed_tablet_outputs, crashed_tablet_bootstrapped)
  ∧ (∃ b2, PlaySegments fresh_info crashed_tablet_fetched
           = (Ret (results crashed_tablet_outputs), b2))
  ∧ listener_ crashed_tablet_bootstrapped = "Bootstrap complete.".
Proof.
  split; [reflexivity|]. split; [reflexivity|].
  apply (@Bootstrap_after_recovery collaborators fresh_info crashed_tablet
           crashed_tablet_fetched crashed_tablet_bootstrapped
           crashed_tablet_outputs false); reflexivity.
Defined.


(* X24 at the orphan commit of (1,1) in a log that can be read again: its
   row went to memrowset 1 and nothing is durable, so the handling returns
   a Corruption status. *)
Lemma orphan_commit_outcomes_witness :
  let b := replaying 0 orphan_commit_log in
  tablet_ b = Some (mkTablet (tablet_meta 0 ∅) [])
  ∧ pending_replicates ReplayState_new !! entry_commited_op_id c11 = None
  ∧ log_reader_ b = Some (reader orphan_commit_log)
  ∧ log_readable (reader orphan_commit_log)
  ∧ (HandleCommitMessage c11 (b, ReplayState_new)).2
    = (b, UpdateCommittedOpId (entry_commited_op_id c11) ReplayState_new)
  ∧ ∃ msg, (HandleCommitMessage c11 (b, ReplayState_new)).1
           = Fail (StatusNS.Corruption msg).
Proof.
  intros b.
  assert (Hread : log_readable (reader orphan_commit_log)).
  { split; [reflexivity|]. constructor; [reflexivity | constructor]. }
  split; [reflexivity|]. split; [reflexivity|]. split; [reflexivity|].
  split; [exact Hread|].
  destruct (@orphan_commit_outcomes collaborators c11 b ReplayState_new
              (mkTablet (tablet_meta 0 ∅) []) eq_refl eq_refl)
    as (Hstate & _ & _ & Hunflushed).
  split; [exact Hstate|].
  assert (Hex : ∃ store,
            store ∈ commit_mutated_stores
                      (OperationPB.commit (LogEntryPB.operation c11))
            ∧ WasStoreAlreadyFlushed (tablet_meta 0 ∅) store = false).
  { exists (MemStoreTargetPB.MRS 1). split; [|reflexivity].
    apply list_elem_of_In. by left. }
  destruct (Hunflushed Hex (reader orphan_commit_log) eq_refl) as [Hc _].
  exact (Hc Hread).
Defined.
